(** * URL summarizer: content normalizer, outbound requests, and the two
      entry points (function-style handler and long-running server)

    Shallow embedding of [functions/summarize.js] (the function-style
    handler, [exports.handler]) and of the long-running server (the
    [http.createServer] callback), together with the helper [makeRequest]
    that both share.

    JavaScript strings are sequences of UTF-16 code units; they are
    modelled as [list N].  Regular expressions without the [u] flag, [length],
    [substring] and [trim] all work on code units, so this is the level at
    which the source operates. *)

From Stdlib Require Import NArith ZArith List String Ascii Bool Lia.
From Stdlib Require Import SpecFloat.
Import ListNotations.

Set Warnings "-register-all".

Local Open Scope N_scope.

(** ** JavaScript strings *)

Definition jstr := list N.

(** An ASCII literal of the source, as code units. *)
Definition lit (s : string) : jstr :=
  List.map N_of_ascii (list_ascii_of_string s).

Fixpoint str_eqb (a b : jstr) : bool :=
  match a, b with
  | [], [] => true
  | x :: a', y :: b' => N.eqb x y && str_eqb a' b'
  | _, _ => false
  end.

(** [a.startsWith(b)] on code units. *)
Fixpoint starts_with (b a : jstr) : bool :=
  match b, a with
  | [], _ => true
  | x :: b', y :: a' => N.eqb x y && starts_with b' a'
  | _ :: _, [] => false
  end.

(** [hay.includes(needle)]. *)
Fixpoint includes (needle hay : jstr) : bool :=
  starts_with needle hay ||
  match hay with
  | [] => false
  | _ :: hay' => includes needle hay'
  end.

(** ** The content normalizer (handler, source lines 122-135) *)

Module Normalizer.

Definition LT : N := 60.   (* '<' *)
Definition GT : N := 62.   (* '>' *)
Definition SP : N := 32.   (* ' ' *)

(** The class [\s] of ECMAScript regular expressions, which is also the
    set of code units removed by [String.prototype.trim]: WhiteSpace and
    LineTerminator. *)
Definition is_ws (c : N) : bool :=
  ((9 <=? c) && (c <=? 13)) || (c =? 32) || (c =? 160) || (c =? 5760)
  || ((8192 <=? c) && (c <=? 8202))
  || (c =? 8232) || (c =? 8233) || (c =? 8239) || (c =? 8287)
  || (c =? 12288) || (c =? 65279).

Definition has_gt (s : jstr) : bool := existsb (N.eqb GT) s.

(** [s.replace(/<[^>]*>/g, ' ')].

    The scan goes left to right.  At a ['<'] the pattern [<[^>]*>] matches
    exactly when some ['>'] occurs later (the greedy [[^>]*] stops at the
    first one); the match is then replaced by one space and the scan resumes
    after that ['>'] ([skip_tag]).  Otherwise the code unit is copied and
    the scan moves one position to the right. *)
Fixpoint strip_tags (s : jstr) : jstr :=
  match s with
  | [] => []
  | c :: r =>
      if (c =? LT) && has_gt r then SP :: skip_tag r
      else c :: strip_tags r
  end
with skip_tag (s : jstr) : jstr :=
  match s with
  | [] => []
  | c :: r => if c =? GT then strip_tags r else skip_tag r
  end.

(** [s.replace(/\s+/g, ' ')]: [in_run] tells whether the previous code unit
    belonged to the whitespace run being replaced. *)
Fixpoint collapse_from (in_run : bool) (s : jstr) : jstr :=
  match s with
  | [] => []
  | c :: r =>
      if is_ws c
      then (if in_run then collapse_from true r else SP :: collapse_from true r)
      else c :: collapse_from false r
  end.

Definition collapse_ws (s : jstr) : jstr := collapse_from false s.

Fixpoint trimStart (s : jstr) : jstr :=
  match s with
  | [] => []
  | c :: r => if is_ws c then trimStart r else s
  end.

Fixpoint trimEnd (s : jstr) : jstr :=
  match s with
  | [] => []
  | c :: r =>
      match trimEnd r with
      | [] => if is_ws c then [] else [c]
      | t => c :: t
      end
  end.

(** [s.trim()]. *)
Definition trim (s : jstr) : jstr := trimEnd (trimStart s).

Definition MAX_CHARS : N := 10000.

Definition ELLIPSIS : jstr := lit "...".

(** [s.substring(0, n)] for [0 <= n]. *)
Definition substring0 (n : N) (s : jstr) : jstr := firstn (N.to_nat n) s.

Definition js_length (s : jstr) : N := N.of_nat (List.length s).

(** Lines 132-135: the length cap. *)
Definition truncate (s : jstr) : jstr :=
  if MAX_CHARS <? js_length s then substring0 MAX_CHARS s ++ ELLIPSIS else s.

(** Lines 123-135 of the handler, from [content.toString()] on. *)
Definition normalize (content : jstr) : jstr :=
  let mainContent := content in
  let mainContent := strip_tags mainContent in
  let mainContent := trim (collapse_ws mainContent) in
  truncate mainContent.

(** *** The normalizer in the specification's words *)

(** A string matching [<[^>]*>]. *)
Definition is_tag (m : jstr) : Prop :=
  exists body, m = LT :: body ++ [GT] /\ ~ In GT body.

(** No substring of [t] matches [<[^>]*>]. *)
Definition tag_free (t : jstr) : Prop :=
  forall a m b, t = a ++ m ++ b -> ~ is_tag m.


(** The fields of [s] between whitespace code units. *)
Fixpoint fields (s : jstr) : list jstr :=
  match s with
  | [] => [[]]
  | c :: r =>
      if is_ws c then [] :: fields r
      else match fields r with
           | w :: ws => (c :: w) :: ws
           | [] => [[c]]
           end
  end.

Definition nonempty (w : jstr) : bool :=
  match w with [] => false | _ :: _ => true end.

(** The maximal runs of non-whitespace code units of [s], in order. *)
Definition words (s : jstr) : list jstr := filter nonempty (fields s).

(** The words joined by single spaces. *)
Fixpoint unwords (ws : list jstr) : jstr :=
  match ws with
  | [] => []
  | [w] => w
  | w :: ws' => w ++ SP :: unwords ws'
  end.

(** *** Decidable normal forms used in the proofs *)

(** No ['<'] of [x] is followed, anywhere later, by a ['>']. *)
Fixpoint tagfree_b (x : jstr) : bool :=
  match x with
  | [] => true
  | c :: r => negb ((c =? LT) && has_gt r) && tagfree_b r
  end.

(** Every whitespace code unit of [x] is a space that follows a
    non-whitespace code unit; [after_sp] tells whether a space (or the
    start of the text) precedes [x]. *)
Fixpoint spaced (after_sp : bool) (x : jstr) : bool :=
  match x with
  | [] => true
  | c :: r =>
      if is_ws c then (c =? SP) && negb after_sp && spaced true r
      else spaced false r
  end.

(** The words of [s], with its first field kept even when it is empty. *)
Definition words_after (s : jstr) : list jstr :=
  match fields s with
  | w :: ws => w :: filter nonempty ws
  | [] => []
  end.

End Normalizer.

(** ** JavaScript values *)

Module Js.

(** The values the program handles: what [JSON.parse] can return, and
    [undefined].  Numbers are IEEE 754 binary64 values, given by sign,
    mantissa and exponent. *)
Inductive JsVal :=
| JUndefined
| JNull
| JBool (b : bool)
| JNum (n : spec_float)
| JStr (s : jstr)
| JArr (items : list JsVal)
| JObj (props : list (jstr * JsVal)).

(** An [Error] instance created by the runtime ([SyntaxError],
    [TypeError]): its [message] and [stack]. *)
Record NativeError := { err_message : jstr; err_stack : jstr }.

(** The runtime library the program calls.  [JSON_parse] returns the
    [SyntaxError] it throws on text that is not JSON; [TypeError what] is the
    error object the runtime creates when the operation [what] fails;
    [url_pathname u] is [url.parse(u).pathname] ([None] for [null]), or
    the [URIError] that [url.parse] throws on a target whose authority part
    it cannot decode. *)
Class Runtime := {
  JSON_parse : jstr -> NativeError + JsVal;
  JSON_stringify : JsVal -> jstr;
  Number_toString : spec_float -> jstr;
  TypeError : jstr -> NativeError;
  url_pathname : jstr -> NativeError + option jstr
}.

(** ToBoolean. *)
Definition truthy (v : JsVal) : bool :=
  match v with
  | JUndefined | JNull => false
  | JBool b => b
  | JNum n =>
      match n with
      | S754_zero _ | S754_nan => false
      | S754_infinity _ | S754_finite _ _ _ => true
      end
  | JStr s => match s with [] => false | _ :: _ => true end
  | JArr _ | JObj _ => true
  end.

Fixpoint lookup {A : Type} (k : jstr) (props : list (jstr * A)) : option A :=
  match props with
  | [] => None
  | (k', v) :: rest => if str_eqb k k' then Some v else lookup k rest
  end.

Definition has_own {A : Type} (k : jstr) (props : list (jstr * A)) : bool :=
  match lookup k props with Some _ => true | None => false end.

Section WithRuntime.
Context {rt : Runtime}.

(** [v.name], for the property names the program reads ([url],
    [candidates], [content], [parts], [text]); none of them is defined on a
    built-in prototype, so only own properties of objects can supply them.
    Reading a property of [null] or [undefined] throws. *)
Definition getField (v : JsVal) (name : jstr) : NativeError + JsVal :=
  match v with
  | JUndefined | JNull => inl (TypeError (lit "Cannot read properties of " ++ name))
  | JObj props =>
      match lookup name props with
      | Some x => inr x
      | None => inr JUndefined
      end
  | JBool _ | JNum _ | JStr _ | JArr _ => inr JUndefined
  end.

(** [v[0]]. *)
Definition index0 (v : JsVal) : NativeError + JsVal :=
  match v with
  | JUndefined | JNull => inl (TypeError (lit "Cannot read properties of 0"))
  | JArr items =>
      match items with
      | x :: _ => inr x
      | [] => inr JUndefined
      end
  | JStr s =>
      match s with
      | c :: _ => inr (JStr [c])
      | [] => inr JUndefined
      end
  | JObj props =>
      match lookup (lit "0") props with
      | Some x => inr x
      | None => inr JUndefined
      end
  | JBool _ | JNum _ => inr JUndefined
  end.

(** ToString, as template literals and [Array.prototype.join] apply it.
    An object whose own property [toString] shadows the inherited method
    cannot be converted (no JSON value is callable). *)
Fixpoint ToString (v : JsVal) : NativeError + jstr :=
  match v with
  | JUndefined => inr (lit "undefined")
  | JNull => inr (lit "null")
  | JBool true => inr (lit "true")
  | JBool false => inr (lit "false")
  | JNum n => inr (Number_toString n)
  | JStr s => inr s
  | JArr items =>
      (fix join (l : list JsVal) : NativeError + jstr :=
         match l with
         | [] => inr []
         | x :: rest =>
             match (match x with
                    | JUndefined | JNull => inr []
                    | _ => ToString x
                    end) with
             | inl e => inl e
             | inr sx =>
                 match rest with
                 | [] => inr sx
                 | _ :: _ =>
                     match join rest with
                     | inl e => inl e
                     | inr sr => inr (sx ++ lit "," ++ sr)
                     end
                 end
             end
         end) items
  | JObj props =>
      if has_own (lit "toString") props
      then inl (TypeError (lit "Cannot convert object to primitive value"))
      else inr (lit "[object Object]")
  end.

(** [v.toString()]. *)
Definition toString (v : JsVal) : NativeError + jstr :=
  match v with
  | JUndefined | JNull => inl (TypeError (lit "Cannot read properties of toString"))
  | _ => ToString v
  end.

End WithRuntime.

(** What a [catch] clause of the program can receive: one of the two
    plain objects [makeRequest] rejects with, or a native error. *)
Inductive JsError :=
| RejResponse (status : Z) (data : jstr) (headers : list (jstr * jstr))
    (* { response: { status, data, headers } } *)
| RejRequest (message : jstr)
    (* { request: req, message } *)
| Thrown (e : NativeError).

(** [error.response]. *)
Definition error_response (error : JsError)
  : option (Z * jstr * list (jstr * jstr)) :=
  match error with
  | RejResponse st d hs => Some (st, d, hs)
  | RejRequest _ | Thrown _ => None
  end.

(** Whether [error.request] is set. *)
Definition error_request (error : JsError) : bool :=
  match error with
  | RejRequest _ => true
  | RejResponse _ _ _ | Thrown _ => false
  end.

(** [error.message]. *)
Definition error_message (error : JsError) : JsVal :=
  match error with
  | RejResponse _ _ _ => JUndefined
  | RejRequest m => JStr m
  | Thrown e => JStr (err_message e)
  end.

(** [error.stack]. *)
Definition error_stack (error : JsError) : JsVal :=
  match error with
  | RejResponse _ _ _ | RejRequest _ => JUndefined
  | Thrown e => JStr (err_stack e)
  end.

End Js.

(** The numeric literals [0.2], [100] and [3000] of the source, as
    binary64: [0x1.999999999999ap-3], [0x1.9p6] and [0x1.77p11]. *)
Module Literals.

Definition TEMPERATURE : spec_float :=
  S754_finite false 7205759403792794 (-55).

Definition MAX_OUTPUT_TOKENS : spec_float :=
  S754_finite false 7036874417766400 (-46).

Definition DEFAULT_PORT : spec_float :=
  S754_finite false 6597069766656000 (-41).

End Literals.

(** ** Outbound requests *)

Module Net.
Import Js.

Definition Headers := list (jstr * jstr).

(** One call of [makeRequest]: the URL, the method and headers of
    [requestOptions], and the payload written to the request, if any.  The
    host, port and path that [url.parse] derives from the URL are left to
    the network. *)
Record OutReq := {
  req_url : JsVal;
  req_method : jstr;
  req_headers : list (jstr * JsVal);
  req_payload : option jstr
}.

(** What the runtime answers to one call: the ['end'] event of a response
    with its status code, headers and accumulated body; the ['error'] event
    of the request; or an exception thrown inside the promise executor by
    [url.parse], [protocol.request] or [req.write] (as [url.parse] does for
    a [requestUrl] that is not a string), which rejects the promise with
    that exception. *)
Inductive NetOutcome :=
| Responded (statusCode : Z) (headers : Headers) (responseData : jstr)
| Failed (message : jstr)
| Raised (e : NativeError).

(** The computations of the two entry points: they end with a value or
    with an exception, and record the calls of [makeRequest] made on the
    way.  An entry point that ends with an exception has produced no
    response: the promise of the handler is rejected, the callback of the
    server leaves [res] open.  Console output is not modelled; an argument
    of a logging call whose evaluation can throw is. *)
Definition Async (A : Type) : Type := (JsError + A) * list OutReq.

Definition ret {A : Type} (a : A) : Async A := (inr a, []).

Definition throw {A : Type} (e : JsError) : Async A := (inl e, []).

Definition bind {A B : Type} (m : Async A) (k : A -> Async B) : Async B :=
  match m with
  | (inl e, t) => (inl e, t)
  | (inr a, t) => let (r, t') := k a in (r, t ++ t')
  end.

(** [try { m } catch (error) { h error }]. *)
Definition try_catch {A : Type} (m : Async A) (h : JsError -> Async A) : Async A :=
  match m with
  | (inl e, t) => let (r, t') := h e in (r, t ++ t')
  | (inr a, t) => (inr a, t)
  end.

(** A synchronous step that may throw a native error. *)
Definition lift {A : Type} (r : NativeError + A) : Async A :=
  match r with
  | inl e => throw (Thrown e)
  | inr a => ret a
  end.

Notation "x <- m ;; k" := (bind m (fun x => k))
  (at level 61, m at next level, right associativity).

(** The [options] argument of [makeRequest]. *)
Record Options := {
  opt_method : option jstr;
  opt_headers : option (list (jstr * JsVal))
}.

Definition no_options : Options := {| opt_method := None; opt_headers := None |}.

(** The object [makeRequest] resolves with. *)
Record Resolved := { data : JsVal; status : Z; headers : Headers }.

Section WithRuntime.
Context {rt : Runtime}.

(** The ['end'] and ['error'] callbacks of [makeRequest] (lines 26-68). *)
Definition settle (reply : NetOutcome) : JsError + Resolved :=
  match reply with
  | Responded statusCode hs responseData =>
      if ((200 <=? statusCode) && (statusCode <? 300))%Z then
        let contentType :=
          match lookup (lit "content-type") hs with
          | Some v => v
          | None => []
          end in
        if includes (lit "application/json") contentType then
          match JSON_parse responseData with
          | inr v => inr {| data := v; status := statusCode; headers := hs |}
          | inl _ =>
              inr {| data := JStr responseData; status := statusCode; headers := hs |}
          end
        else inr {| data := JStr responseData; status := statusCode; headers := hs |}
      else inl (RejResponse statusCode responseData hs)
  | Failed message => inl (RejRequest message)
  | Raised e => inl (Thrown e)
  end.

(** [makeRequest(requestUrl, options, data)], answered by [reply]. *)
Definition makeRequest (reply : NetOutcome)
    (requestUrl : JsVal) (options : Options) (data : JsVal) : Async Resolved :=
  let requestOptions :=
    {| req_url := requestUrl;
       req_method :=
         match opt_method options with
         | Some (c :: m) => c :: m
         | Some [] | None => lit "GET"
         end;
       req_headers :=
         match opt_headers options with
         | Some hs => hs
         | None => []
         end;
       req_payload :=
         if truthy data
         then Some (match data with
                    | JStr s => s
                    | _ => JSON_stringify data
                    end)
         else None |} in
  (settle reply, [requestOptions]).

End WithRuntime.

End Net.

(** ** The function-style handler ([exports.handler]) *)

Module Summarize.
Import Js Net Normalizer.

(** [process.env]. *)
Record Env := {
  GEMINI_API_KEY : option jstr;
  GEMINI_API_URL : option jstr
}.

(** A value of [process.env], as the expression reading it yields it. *)
Definition env_val (x : option jstr) : JsVal :=
  match x with
  | Some s => JStr s
  | None => JUndefined
  end.

Record Event := { httpMethod : jstr; body : jstr }.

(** The object the handler returns; also the state of the server's [res]
    once the response has ended. *)
Record Response := {
  statusCode : Z;
  res_headers : list (jstr * jstr);
  res_body : jstr
}.

Definition QUOTE : N := 34.

Definition PROMPT_INTRO : jstr :=
  lit "Summarize the following web page content in one concise sentence:"
  ++ [10; 10].

(** The request object both entry points send to the summarization API. *)
Definition gemini_payload (prompt : jstr) : JsVal :=
  JObj [ (lit "contents",
          JArr [ JObj [ (lit "parts",
                         JArr [ JObj [ (lit "text", JStr prompt) ] ]) ] ]);
         (lit "generationConfig",
          JObj [ (lit "temperature", JNum Literals.TEMPERATURE);
                 (lit "maxOutputTokens", JNum Literals.MAX_OUTPUT_TOKENS) ]) ].

Definition DEFAULT_GEMINI_API_URL : jstr :=
  lit "https://generativelanguage.googleapis.com/v1beta/models/gemini-1.0-pro:generateContent".

Definition cors_headers : list (jstr * jstr) :=
  [ (lit "Access-Control-Allow-Origin", lit "*");
    (lit "Access-Control-Allow-Headers", lit "Content-Type");
    (lit "Access-Control-Allow-Methods", lit "POST, OPTIONS") ].

Section WithRuntime.
Context {rt : Runtime}.

(** [geminiResponse.data.candidates[0].content.parts[0].text]. *)
Definition extract_summary (d : JsVal) : NativeError + JsVal :=
  match getField d (lit "candidates") with
  | inl e => inl e
  | inr candidates =>
  match index0 candidates with
  | inl e => inl e
  | inr candidate =>
  match getField candidate (lit "content") with
  | inl e => inl e
  | inr content =>
  match getField content (lit "parts") with
  | inl e => inl e
  | inr parts =>
  match index0 parts with
  | inl e => inl e
  | inr part => getField part (lit "text")
  end end end end end.

(** The call of [makeRequest] that reaches the summarization API from
    the handler (lines 154-175). *)
Definition handler_gemini_call (geminiReply : NetOutcome)
    (geminiApiUrl geminiApiKey prompt : jstr) : Async Resolved :=
  makeRequest geminiReply
    (JStr (geminiApiUrl ++ lit "?key=" ++ geminiApiKey))
    {| opt_method := Some (lit "POST");
       opt_headers := Some [ (lit "Content-Type", JStr (lit "application/json")) ] |}
    (gemini_payload prompt).

(** [JSON.stringify(error, null, 2)], the argument of the logging call
    of line 195.  The object [makeRequest] rejects with on the ['error']
    event holds the request object [req], whose structure is circular:
    serialising it throws a [TypeError].  The other rejection object holds
    a number, a string and the response headers, and a native error has no
    enumerable property; both are serialised.  The text is only logged. *)
Definition stringify_error (error : JsError) : NativeError + unit :=
  match error with
  | RejRequest _ => inl (TypeError (lit "Converting circular structure to JSON"))
  | RejResponse _ _ _ | Thrown _ => inr tt
  end.

(** The [catch] clause of the handler (lines 193-231).  An exception
    thrown inside it is caught by nothing: the handler's promise is
    rejected with it. *)
Definition handler_catch (headers : list (jstr * jstr)) (error : JsError)
  : Async Response :=
  _ <- lift (stringify_error error) ;;
  match error_response error with
  | Some (st, d, _) =>
      ret {| statusCode := (if st =? 0 then 500 else st)%Z;
             res_headers := headers;
             res_body := JSON_stringify
               (JObj [ (lit "error", JStr (lit "Error processing request"));
                       (lit "details", JStr d);
                       (lit "message", error_message error);
                       (lit "stack", error_stack error) ]) |}
  | None =>
      if error_request error then
        ret {| statusCode := 500%Z;
               res_headers := headers;
               res_body := JSON_stringify
                 (JObj [ (lit "error", JStr (lit "Error making request"));
                         (lit "details", JStr (lit "No response received"));
                         (lit "message", error_message error);
                         (lit "stack", error_stack error) ]) |}
      else
        ret {| statusCode := 500%Z;
               res_headers := headers;
               res_body := JSON_stringify
                 (JObj [ (lit "error", JStr (lit "Unexpected error"));
                         (lit "message", error_message error);
                         (lit "stack", error_stack error) ]) |}
  end.

(** [exports.handler] (lines 78-233).  [fetchReply] answers the request
    for the target URL, [geminiReply] the request to the summarization
    API. *)
Definition handler (env : Env) (fetchReply geminiReply : NetOutcome)
    (event : Event) : Async Response :=
  let headers := cors_headers in
  if str_eqb (httpMethod event) (lit "OPTIONS") then
    ret {| statusCode := 204%Z; res_headers := headers; res_body := [] |}
  else if negb (str_eqb (httpMethod event) (lit "POST")) then
    ret {| statusCode := 405%Z; res_headers := headers;
           res_body := JSON_stringify
             (JObj [ (lit "error", JStr (lit "Method not allowed")) ]) |}
  else
    try_catch
      (requestData <- lift (JSON_parse (body event)) ;;
       targetUrl <- lift (getField requestData (lit "url")) ;;
       if negb (truthy targetUrl) then
         ret {| statusCode := 400%Z; res_headers := headers;
                res_body := JSON_stringify
                  (JObj [ (lit "error", JStr (lit "URL is required")) ]) |}
       else
         _ <- lift (ToString targetUrl) ;;
         response <- makeRequest fetchReply targetUrl no_options JNull ;;
         let content := data response in
         mainContent <- lift (toString content) ;;
         let mainContent := strip_tags mainContent in
         let mainContent := trim (collapse_ws mainContent) in
         let mainContent := truncate mainContent in
         let geminiApiKey := GEMINI_API_KEY env in
         let geminiApiUrl :=
           match GEMINI_API_URL env with
           | Some (c :: u) => c :: u
           | Some [] | None => DEFAULT_GEMINI_API_URL
           end in
         match geminiApiKey with
         | Some (c :: k) =>
             let prompt := PROMPT_INTRO ++ mainContent in
             geminiResponse <-
               handler_gemini_call geminiReply geminiApiUrl (c :: k) prompt ;;
             summary <- lift (extract_summary (data geminiResponse)) ;;
             ret {| statusCode := 200%Z;
                    res_headers :=
                      headers ++ [ (lit "Content-Type", lit "application/json") ];
                    res_body := JSON_stringify
                      (JObj [ (lit "url", targetUrl); (lit "summary", summary) ]) |}
         | Some [] | None =>
             ret {| statusCode := 500%Z; res_headers := headers;
                    res_body := JSON_stringify
                      (JObj [ (lit "error",
                               JStr (lit "GEMINI_API_KEY environment variable is not set")) ]) |}
         end)
      (handler_catch headers).

End WithRuntime.

End Summarize.

(** ** The long-running server (the [http.createServer] callback) *)

Module Server.
Import Js Net Summarize.

(** The incoming request: method, URL and the body chunks joined. *)
Record Request := { method : jstr; url : jstr; req_body : jstr }.

(** [res] before the callback touches it. *)
Definition fresh_res : Response :=
  {| statusCode := 200%Z; res_headers := []; res_body := [] |}.

(** [res.setHeader(name, value)]. *)
Definition setHeader (name value : jstr) (res : Response) : Response :=
  {| statusCode := statusCode res;
     res_headers :=
       filter (fun h => negb (str_eqb (fst h) name)) (res_headers res)
       ++ [ (name, value) ];
     res_body := res_body res |}.

(** [res.statusCode = code]. *)
Definition setStatus (code : Z) (res : Response) : Response :=
  {| statusCode := code; res_headers := res_headers res; res_body := res_body res |}.

(** [res.end(chunk)]. *)
Definition end_ (chunk : jstr) (res : Response) : Response :=
  {| statusCode := statusCode res; res_headers := res_headers res; res_body := chunk |}.

Definition json_content (res : Response) : Response :=
  setHeader (lit "Content-Type") (lit "application/json") res.

Definition WELCOME : Js.JsVal :=
  JObj [ (lit "message", JStr (lit "Welcome to the URL Summarizer API"));
         (lit "endpoints",
          JObj [ (lit "summarize",
                  JStr (lit "POST /summarize with {" ++ [QUOTE] ++ lit "url"
                        ++ [QUOTE] ++ lit ": " ++ [QUOTE]
                        ++ lit "https://example.com" ++ [QUOTE] ++ lit "}")) ]) ].

Section WithRuntime.
Context {rt : Runtime}.

(** The call of [makeRequest] that reaches the summarization API from
    the server (lines 411-435). *)
Definition server_gemini_call (env : Env) (geminiReply : NetOutcome)
    (mainContent : jstr) : Async Resolved :=
  makeRequest geminiReply
    (env_val (GEMINI_API_URL env))
    {| opt_method := Some (lit "POST");
       opt_headers :=
         Some [ (lit "Content-Type", JStr (lit "application/json"));
                (lit "x-goog-api-key", env_val (GEMINI_API_KEY env)) ] |}
    (gemini_payload (PROMPT_INTRO ++ mainContent)).

(** The [catch] clause of the summarize endpoint (lines 448-471). *)
Definition server_catch (res : Response) (error : JsError) : Async Response :=
  let res := setStatus 500%Z res in
  let res := json_content res in
  match error_response error with
  | Some (_, d, _) =>
      ret (end_ (JSON_stringify
                   (JObj [ (lit "error", JStr (lit "Error processing request"));
                           (lit "details", JStr d) ])) res)
  | None =>
      if error_request error then
        ret (end_ (JSON_stringify
                     (JObj [ (lit "error", JStr (lit "No response received from server"));
                             (lit "details", error_message error) ])) res)
      else
        ret (end_ (JSON_stringify
                     (JObj [ (lit "error", JStr (lit "Error setting up request"));
                             (lit "details", error_message error) ])) res)
  end.

(** The request callback (lines 341-480): the state of [res] when the
    response ends.  Inside the [try] block [res] is written only right
    before a [return] or at the very end, so the [catch] clause starts from
    the [res] the block was entered with.  [url.parse(req.url)] (line 354)
    is outside every [try]: when it throws, the callback ends with that
    exception and [res] is never ended. *)
Definition server (env : Env) (fetchReply geminiReply : NetOutcome)
    (req : Request) : Async Response :=
  let res := fresh_res in
  let res := setHeader (lit "Access-Control-Allow-Origin") (lit "*") res in
  let res := setHeader (lit "Access-Control-Allow-Methods") (lit "GET, POST, OPTIONS") res in
  let res := setHeader (lit "Access-Control-Allow-Headers") (lit "Content-Type") res in
  if str_eqb (method req) (lit "OPTIONS") then
    ret (end_ [] (setStatus 204%Z res))
  else
    pathname <- lift (url_pathname (url req)) ;;
    let path_is (p : jstr) :=
      match pathname with
      | Some q => str_eqb q p
      | None => false
      end in
    if path_is (lit "/") && str_eqb (method req) (lit "GET") then
      ret (end_ (JSON_stringify WELCOME) (setStatus 200%Z (json_content res)))
    else if path_is (lit "/summarize") && str_eqb (method req) (lit "POST") then
      try_catch
        (let body := req_body req in
         match JSON_parse body with
         | inl _ =>
             ret (end_ (JSON_stringify
                          (JObj [ (lit "error", JStr (lit "Invalid JSON in request body")) ]))
                       (json_content (setStatus 400%Z res)))
         | inr requestData =>
             targetUrl <- lift (getField requestData (lit "url")) ;;
             if negb (truthy targetUrl) then
               ret (end_ (JSON_stringify
                            (JObj [ (lit "error", JStr (lit "URL is required")) ]))
                         (json_content (setStatus 400%Z res)))
             else
               _ <- lift (ToString targetUrl) ;;
               response <- makeRequest fetchReply targetUrl no_options JNull ;;
               let content := data response in
               mainContent <- lift (toString content) ;;
               geminiResponse <- server_gemini_call env geminiReply mainContent ;;
               summary <- lift (extract_summary (data geminiResponse)) ;;
               ret (end_ (JSON_stringify
                            (JObj [ (lit "url", targetUrl); (lit "summary", summary) ]))
                         (json_content (setStatus 200%Z res)))
         end)
        (server_catch res)
    else
      ret (end_ (JSON_stringify (JObj [ (lit "error", JStr (lit "Not found")) ]))
                (json_content (setStatus 404%Z res))).

End WithRuntime.

End Server.

(** ** Replies, named *)

Module Replies.
Import Js Net Summarize Server.

(** The handler's reply to a native error. *)
Definition unexpected_error {rt : Runtime} (e : NativeError) : Response :=
  {| statusCode := 500%Z;
     res_headers := cors_headers;
     res_body := JSON_stringify
       (JObj [ (lit "error", JStr (lit "Unexpected error"));
               (lit "message", JStr (err_message e));
               (lit "stack", JStr (err_stack e)) ]) |}.

Definition url_is_required {rt : Runtime} : jstr :=
  JSON_stringify (JObj [ (lit "error", JStr (lit "URL is required")) ]).

(** [res] once the callback has set the three CORS headers. *)
Definition cors_res : Response :=
  setHeader (lit "Access-Control-Allow-Headers") (lit "Content-Type")
    (setHeader (lit "Access-Control-Allow-Methods") (lit "GET, POST, OPTIONS")
       (setHeader (lit "Access-Control-Allow-Origin") (lit "*") fresh_res)).

(** The server's JSON reply with status [code]. *)
Definition json_reply {rt : Runtime} (code : Z) (v : JsVal) : Response :=
  end_ (JSON_stringify v) (json_content (setStatus code cors_res)).

End Replies.

(** ** A small runtime to run the model on *)

Module Sample.
Import Js Net Summarize Server.

Definition syntax_error : NativeError :=
  {| err_message := lit "Unexpected token";
     err_stack := lit "SyntaxError: Unexpected token" |}.

Fixpoint strip_prefix (p s : jstr) : option jstr :=
  match p, s with
  | [], _ => Some s
  | x :: p', y :: s' => if x =? y then strip_prefix p' s' else None
  | _ :: _, [] => None
  end.

Definition BACKSLASH : N := 92.

Definition hex_value (c : N) : option N :=
  if (48 <=? c) && (c <=? 57) then Some (c - 48)
  else if (97 <=? c) && (c <=? 102) then Some (c - 87)
  else if (65 <=? c) && (c <=? 70) then Some (c - 55)
  else None.

(** The character a two-character escape of JSON stands for. *)
Definition unescape (e : N) : option N :=
  if e =? QUOTE then Some QUOTE
  else if e =? BACKSLASH then Some BACKSLASH
  else if e =? 47 then Some 47
  else if e =? 98 then Some 8
  else if e =? 102 then Some 12
  else if e =? 110 then Some 10
  else if e =? 114 then Some 13
  else if e =? 116 then Some 9
  else None.

(** The rest of a JSON string after its opening quote: the text it
    denotes, and what follows the closing quote.  A control character
    cannot occur unescaped. *)
Fixpoint until_quote (s : jstr) : option (jstr * jstr) :=
  match s with
  | [] => None
  | c :: r =>
      if c =? QUOTE then Some ([], r)
      else if c <? 32 then None
      else if c =? BACKSLASH then
        match r with
        | [] => None
        | e :: r1 =>
            match unescape e with
            | Some x =>
                match until_quote r1 with
                | Some (a, b) => Some (x :: a, b)
                | None => None
                end
            | None =>
                if e =? 117 then
                  match r1 with
                  | h1 :: h2 :: h3 :: h4 :: r2 =>
                      match hex_value h1, hex_value h2, hex_value h3, hex_value h4 with
                      | Some d1, Some d2, Some d3, Some d4 =>
                          match until_quote r2 with
                          | Some (a, b) =>
                              Some (d1 * 4096 + d2 * 256 + d3 * 16 + d4 :: a, b)
                          | None => None
                          end
                      | _, _, _, _ => None
                      end
                  | _ => None
                  end
                else None
            end
        end
      else match until_quote r with
           | Some (a, b) => Some (c :: a, b)
           | None => None
           end
  end.

Definition quoted (s : jstr) : jstr := [QUOTE] ++ s ++ [QUOTE].

(** The text [{"url":"u"}]. *)
Definition url_body (u : jstr) : jstr :=
  lit "{" ++ quoted (lit "url") ++ lit ":" ++ quoted u ++ lit "}".

Definition API_OPEN : jstr :=
  lit "{" ++ quoted (lit "candidates") ++ lit ":[{" ++ quoted (lit "content")
  ++ lit ":{" ++ quoted (lit "parts") ++ lit ":[{" ++ quoted (lit "text")
  ++ lit ":" ++ [QUOTE].

(** The text [{"candidates":[{"content":{"parts":[{"text":"t"}]}}]}]. *)
Definition api_body (t : jstr) : jstr := API_OPEN ++ t ++ [QUOTE] ++ lit "}]}}]}".

(** A [JSON.parse] for the bodies the runs below use: [null], [{}],
    [{"url":"..."}] and the answer of the summarization API with one
    candidate, each written without white space.  It reports a syntax error
    on every other text. *)
Definition parse (s : jstr) : NativeError + JsVal :=
  if str_eqb s (lit "null") then inr JNull
  else if str_eqb s (lit "{}") then inr (JObj [])
  else
    match strip_prefix (lit "{" ++ quoted (lit "url") ++ lit ":" ++ [QUOTE]) s with
    | Some r =>
        match until_quote r with
        | Some (u, rest) =>
            if str_eqb rest (lit "}") then inr (JObj [ (lit "url", JStr u) ])
            else inl syntax_error
        | None => inl syntax_error
        end
    | None =>
        match strip_prefix API_OPEN s with
        | Some r =>
            match until_quote r with
            | Some (t, rest) =>
                if str_eqb rest (lit "}]}}]}") then
                  inr (JObj [ (lit "candidates",
                     JArr [ JObj [ (lit "content",
                       JObj [ (lit "parts",
                         JArr [ JObj [ (lit "text", JStr t) ] ]) ]) ] ]) ])
                else inl syntax_error
            | None => inl syntax_error
            end
        | None => inl syntax_error
        end
    end.

(** The decimal text of the two numbers the program serialises; [parse]
    reads no number, so no other number reaches it. *)
Definition show_number (n : spec_float) : jstr :=
  if SFeqb n Literals.MAX_OUTPUT_TOKENS then lit "100"
  else if SFeqb n Literals.TEMPERATURE then lit "0.2"
  else lit "0".

Definition hex_digit (d : N) : N := if d <? 10 then 48 + d else 87 + d.

(** The escape [\uXXXX] of a code unit, in lower-case hexadecimal. *)
Definition unicode_escape (c : N) : jstr :=
  [ BACKSLASH; 117;
    hex_digit (c / 4096); hex_digit ((c / 256) mod 16);
    hex_digit ((c / 16) mod 16); hex_digit (c mod 16) ].

(** How [JSON.stringify] writes one code unit that is not a surrogate. *)
Definition escape_unit (c : N) : jstr :=
  if c =? 8 then [BACKSLASH; 98]
  else if c =? 9 then [BACKSLASH; 116]
  else if c =? 10 then [BACKSLASH; 110]
  else if c =? 12 then [BACKSLASH; 102]
  else if c =? 13 then [BACKSLASH; 114]
  else if c =? QUOTE then [BACKSLASH; QUOTE]
  else if c =? BACKSLASH then [BACKSLASH; BACKSLASH]
  else if c <? 32 then unicode_escape c
  else [c].

Definition is_high_surrogate (c : N) : bool := (55296 <=? c) && (c <=? 56319).

Definition is_low_surrogate (c : N) : bool := (56320 <=? c) && (c <=? 57343).

(** The inside of the string literal [JSON.stringify] writes for [s]: the
    quote, the backslash and the control characters are escaped, and so is
    a surrogate that is not part of a pair. *)
Fixpoint escape (s : jstr) : jstr :=
  match s with
  | [] => []
  | c :: r =>
      if is_high_surrogate c then
        match r with
        | d :: r1 =>
            if is_low_surrogate d then c :: d :: escape r1
            else unicode_escape c ++ escape r
        | [] => unicode_escape c
        end
      else if is_low_surrogate c then unicode_escape c ++ escape r
      else escape_unit c ++ escape r
  end.

Definition json_string (s : jstr) : jstr := [QUOTE] ++ escape s ++ [QUOTE].

(** [JSON.stringify] without indentation, as the program applies it: to
    objects. *)
Fixpoint stringify (v : JsVal) : jstr :=
  match v with
  | JUndefined => lit "undefined"
  | JNull => lit "null"
  | JBool true => lit "true"
  | JBool false => lit "false"
  | JNum n =>
      match n with
      | S754_nan | S754_infinity _ => lit "null"
      | S754_zero _ | S754_finite _ _ _ => show_number n
      end
  | JStr s => json_string s
  | JArr items =>
      lit "[" ++
      (fix join (l : list JsVal) : jstr :=
         match l with
         | [] => []
         | x :: rest =>
             (match x with JUndefined => lit "null" | _ => stringify x end)
             ++ match rest with [] => [] | _ :: _ => lit "," ++ join rest end
         end) items
      ++ lit "]"
  | JObj props =>
      lit "{" ++
      (fix join (first : bool) (l : list (jstr * JsVal)) : jstr :=
         match l with
         | [] => []
         | (k, x) :: rest =>
             match x with
             | JUndefined => join first rest
             | _ =>
                 (if first then [] else lit ",")
                 ++ json_string k ++ lit ":" ++ stringify x ++ join false rest
             end
         end) true props
      ++ lit "}"
  end.

Definition uri_error : NativeError :=
  {| err_message := lit "URI malformed";
     err_stack := lit "URIError: URI malformed" |}.

(** The request target [//%E0@x/]: its authority has a user part,
    [%E0], that is not the encoding of any text. *)
Definition UNDECODABLE_TARGET : jstr := lit "//%E0@x/".

(** The code units [url.parse] copies into the path unchanged: letters,
    digits and [/ - . _ ~]. *)
Definition plain_unit (c : N) : bool :=
  ((48 <=? c) && (c <=? 57)) || ((65 <=? c) && (c <=? 90))
  || ((97 <=? c) && (c <=? 122))
  || (c =? 47) || (c =? 45) || (c =? 46) || (c =? 95) || (c =? 126).

(** The path of a target: what precedes the first [?] or [#], when it
    is made of plain code units. *)
Fixpoint plain_path (s : jstr) : option jstr :=
  match s with
  | [] => Some []
  | c :: r =>
      if (c =? 63) || (c =? 35) then Some []
      else if plain_unit c then
        match plain_path r with
        | Some q => Some (c :: q)
        | None => None
        end
      else None
  end.

(** A [url.parse(u).pathname] for the request targets the runs below
    use: a target that starts with a single [/] and whose path is plain, and
    [UNDECODABLE_TARGET], on which [url.parse] throws.  Other targets are
    outside what it understands; it gives them no path. *)
Definition pathname_of (u : jstr) : NativeError + option jstr :=
  if str_eqb u UNDECODABLE_TARGET then inl uri_error
  else
    match u with
    | 47 :: 47 :: _ => inr None
    | 47 :: _ => inr (plain_path u)
    | _ => inr None
    end.

Definition runtime : Runtime :=
  {| JSON_parse := parse;
     JSON_stringify := stringify;
     Number_toString := show_number;
     TypeError := fun what =>
       {| err_message := what; err_stack := lit "TypeError: " ++ what |};
     url_pathname := pathname_of |}.

(** The number [123], and the [TypeError] of [url.parse] for an argument
    that is not a string. *)
Definition NUMERIC_URL : JsVal := JNum (S754_finite false 8655355533852672 (-46)).

Definition not_a_string : NativeError :=
  {| err_message := lit "The url argument must be of type string. Received type number (123)";
     err_stack := lit "TypeError [ERR_INVALID_ARG_TYPE]: The url argument must be of type string. Received type number (123)" |}.

Definition env : Env :=
  {| GEMINI_API_KEY := Some (lit "k3y");
     GEMINI_API_URL := Some (lit "https://api.example/v1/generate") |}.

Definition html_headers : Headers := [ (lit "content-type", lit "text/html") ].

Definition json_headers : Headers :=
  [ (lit "content-type", lit "application/json; charset=utf-8") ].

Definition page : NetOutcome :=
  Responded 200%Z html_headers (lit "<html><body>Hello <b>World</b></body></html>").

Definition answer : NetOutcome :=
  Responded 200%Z json_headers (api_body (lit "A greeting.")).

Definition not_found : NetOutcome :=
  Responded 404%Z html_headers (lit "Not Found").

Definition post (b : jstr) : Event := {| httpMethod := lit "POST"; body := b |}.

Definition post_summarize (b : jstr) : Request :=
  {| method := lit "POST"; url := lit "/summarize"; req_body := b |}.

End Sample.

(** ** The outbound calls, named *)

Module Calls.
Import Js Net Normalizer Summarize Server.

(** The call [makeRequest(targetUrl)]: the target, by [GET], without
    headers or payload. *)
Definition fetch_call (target : JsVal) : OutReq :=
  {| req_url := target; req_method := lit "GET"; req_headers := [];
     req_payload := None |}.

(** The handler's call to the summarization API for the fetched [text]. *)
Definition handler_api_call {rt : Runtime} (env : Env) (key text : jstr) : OutReq :=
  {| req_url :=
       JStr (match GEMINI_API_URL env with
             | Some (c :: u) => c :: u
             | Some [] | None => DEFAULT_GEMINI_API_URL
             end ++ lit "?key=" ++ key);
     req_method := lit "POST";
     req_headers := [ (lit "Content-Type", JStr (lit "application/json")) ];
     req_payload :=
       Some (JSON_stringify (gemini_payload (PROMPT_INTRO ++ normalize text))) |}.

(** The server's call to the summarization API for the fetched [text]. *)
Definition server_api_call {rt : Runtime} (env : Env) (text : jstr) : OutReq :=
  {| req_url := env_val (GEMINI_API_URL env);
     req_method := lit "POST";
     req_headers :=
       [ (lit "Content-Type", JStr (lit "application/json"));
         (lit "x-goog-api-key", env_val (GEMINI_API_KEY env)) ];
     req_payload := Some (JSON_stringify (gemini_payload (PROMPT_INTRO ++ text))) |}.

End Calls.

(** ** Server start-up: the [.env] file (server, lines 241-265) *)

Module Startup.
Import Js Normalizer Summarize.

Definition NEWLINE : N := 10.
Definition HASH : N := 35.
Definition EQUALS : N := 61.

(** [s.split(sep)] for a separator of one code unit. *)
Fixpoint split (sep : N) (s : jstr) : list jstr :=
  match s with
  | [] => [[]]
  | c :: r =>
      if c =? sep then [] :: split sep r
      else match split sep r with
           | w :: ws => (c :: w) :: ws
           | [] => [[c]]
           end
  end.

(** The object [env]: its own properties, the most recently written
    first. *)
Definition Dict := list (jstr * jstr).

(** [env[k] = v].  Writing a string to [__proto__] goes to the inherited
    setter, which ignores it. *)
Definition assign (k v : jstr) (env : Dict) : Dict :=
  if str_eqb k (lit "__proto__") then env else (k, v) :: env.

(** The callback of [forEach] (lines 244-251). *)
Definition read_line (env : Dict) (line : jstr) : Dict :=
  if nonempty line && negb (starts_with [HASH] line) then
    match split EQUALS line with
    | key :: value :: _ =>
        if nonempty key && nonempty value
        then assign (trim key) (trim value) env
        else env
    | _ => env
    end
  else env.

(** Lines 242-251: the object [env] after the loop. *)
Definition load_env (envFile : jstr) : Dict :=
  fold_left read_line (split NEWLINE envFile) [].

Definition NUL : N := 0.

(** The text before the first NUL. *)
Fixpoint upto_nul (s : jstr) : jstr :=
  match s with
  | [] => []
  | c :: r => if c =? NUL then [] else c :: upto_nul r
  end.

(** [process.env.NAME = v], as a later read of [process.env.NAME] sees
    it: the runtime converts the value to a string, so [undefined] becomes
    ["undefined"], and hands it to the environment of the process, where a
    value ends at the first NUL.  The values come from a file decoded as
    UTF-8 and are well-formed text, which the environment keeps as it
    is. *)
Definition stored (v : option jstr) : jstr :=
  upto_nul (match v with
            | Some s => s
            | None => lit "undefined"
            end).

(** How start-up ends: [process.exit(1)] after the missing names are
    reported, or the server listening with its configuration. *)
Inductive Started :=
| Exit (missingEnvVars : list jstr)
| Listening (env : Env) (port : JsVal).

(** Lines 253-265 and 483-484. *)
Definition startup (envFile : jstr) : Started :=
  let env := load_env envFile in
  let key := stored (lookup (lit "GEMINI_API_KEY") env) in
  let url := stored (lookup (lit "GEMINI_API_URL") env) in
  let port :=
    stored (Some (match lookup (lit "PORT") env with
                  | Some (c :: p) => c :: p
                  | Some [] | None => lit "3000"
                  end)) in
  let process_env :=
    [ (lit "GEMINI_API_KEY", key); (lit "GEMINI_API_URL", url);
      (lit "PORT", port) ] in
  let missingEnvVars :=
    filter (fun envVar =>
              match lookup envVar process_env with
              | Some (_ :: _) => false
              | Some [] | None => true
              end)
           [ lit "GEMINI_API_KEY"; lit "GEMINI_API_URL" ] in
  match missingEnvVars with
  | _ :: _ => Exit missingEnvVars
  | [] =>
      let PORT :=
        match lookup (lit "PORT") process_env with
        | Some (c :: p) => JStr (c :: p)
        | Some [] | None => JNum Literals.DEFAULT_PORT
        end in
      Listening {| GEMINI_API_KEY := Some key; GEMINI_API_URL := Some url |} PORT
  end.

End Startup.

(** ** The page's submit handler ([index.html], lines 128-176) *)

Module Client.
Import Js Normalizer.

(** What the DOM stores when a value is assigned to [textContent] or to
    [href]: the value converted to a string, or the exception the
    conversion throws. *)
Class Browser := {
  as_textContent : JsVal -> NativeError + jstr;
  as_href : JsVal -> NativeError + jstr
}.

(** The parts of the page the script reads and writes: which of the
    three blocks are displayed, whether the button is disabled, and the
    texts. *)
Record Page := {
  loading_shown : bool;
  result_shown : bool;
  error_shown : bool;
  submit_disabled : bool;
  summary_text : jstr;
  original_text : jstr;
  original_href : jstr;
  error_text : jstr
}.

(** The argument of [fetch]. *)
Record Call := {
  call_url : jstr;
  call_method : jstr;
  call_headers : list (jstr * jstr);
  call_body : jstr
}.

(** What [fetch] gives: a rejection, or a response with its status and
    its body text (or the error that reading the body ends with). *)
Inductive Fetched :=
| FetchRejected (e : NativeError)
| FetchResponse (status : Z) (body : NativeError + jstr).

(** "URL wo nyuuryoku shite kudasai". *)
Definition ENTER_URL : jstr :=
  lit "URL" ++ [12434; 20837; 21147; 12375; 12390; 12367; 12384; 12373; 12356].

(** "eraa ga hassei shimashita". *)
Definition AN_ERROR_OCCURRED : jstr :=
  [12456; 12521; 12540; 12364; 30330; 29983; 12375; 12414; 12375; 12383].

(** "eraa: ". *)
Definition ERROR_PREFIX : jstr := [12456; 12521; 12540; 58; 32].

Definition ENDPOINT : jstr := lit "/.netlify/functions/summarize".

(** [showError(message)] (lines 173-176). *)
Definition showError (message : jstr) (p : Page) : Page :=
  {| loading_shown := loading_shown p;
     result_shown := result_shown p;
     error_shown := true;
     submit_disabled := submit_disabled p;
     summary_text := summary_text p;
     original_text := original_text p;
     original_href := original_href p;
     error_text := message |}.

(** Lines 137-141. *)
Definition reset_ui (p : Page) : Page :=
  {| loading_shown := true;
     result_shown := false;
     error_shown := false;
     submit_disabled := true;
     summary_text := summary_text p;
     original_text := original_text p;
     original_href := original_href p;
     error_text := error_text p |}.

(** The [finally] clause (lines 167-170). *)
Definition finish (p : Page) : Page :=
  {| loading_shown := false;
     result_shown := result_shown p;
     error_shown := error_shown p;
     submit_disabled := false;
     summary_text := summary_text p;
     original_text := original_text p;
     original_href := original_href p;
     error_text := error_text p |}.

Definition set_summary (t : jstr) (p : Page) : Page :=
  {| loading_shown := loading_shown p;
     result_shown := result_shown p;
     error_shown := error_shown p;
     submit_disabled := submit_disabled p;
     summary_text := t;
     original_text := original_text p;
     original_href := original_href p;
     error_text := error_text p |}.

Definition set_original_text (t : jstr) (p : Page) : Page :=
  {| loading_shown := loading_shown p;
     result_shown := result_shown p;
     error_shown := error_shown p;
     submit_disabled := submit_disabled p;
     summary_text := summary_text p;
     original_text := t;
     original_href := original_href p;
     error_text := error_text p |}.

Definition set_original_href (t : jstr) (p : Page) : Page :=
  {| loading_shown := loading_shown p;
     result_shown := result_shown p;
     error_shown := error_shown p;
     submit_disabled := submit_disabled p;
     summary_text := summary_text p;
     original_text := original_text p;
     original_href := t;
     error_text := error_text p |}.

Definition show_result (p : Page) : Page :=
  {| loading_shown := loading_shown p;
     result_shown := true;
     error_shown := error_shown p;
     submit_disabled := submit_disabled p;
     summary_text := summary_text p;
     original_text := original_text p;
     original_href := original_href p;
     error_text := error_text p |}.

Section WithRuntime.
Context {rt : Runtime} {dom : Browser}.

(** The [try] block after [fetch] has settled (lines 153-163): the page
    it leaves, and the [message] of the error it throws, if any.  The
    [catch] clause reads nothing else of the error. *)
Definition try_block (reply : Fetched) (p : Page) : (jstr + unit) * Page :=
  match reply with
  | FetchRejected e => (inl (err_message e), p)
  | FetchResponse status body =>
      match body with
      | inl e => (inl (err_message e), p)
      | inr text =>
          match JSON_parse text with
          | inl e => (inl (err_message e), p)
          | inr data =>
              if negb ((200 <=? status) && (status <=? 299))%Z then
                match getField data (lit "error") with
                | inl e => (inl (err_message e), p)
                | inr described =>
                    if truthy described then
                      match ToString described with
                      | inl e => (inl (err_message e), p)
                      | inr message => (inl message, p)
                      end
                    else (inl AN_ERROR_OCCURRED, p)
                end
              else
                match getField data (lit "summary") with
                | inl e => (inl (err_message e), p)
                | inr summary =>
                match as_textContent summary with
                | inl e => (inl (err_message e), p)
                | inr shown =>
                let p := set_summary shown p in
                match getField data (lit "url") with
                | inl e => (inl (err_message e), p)
                | inr url =>
                match as_textContent url with
                | inl e => (inl (err_message e), p)
                | inr shown_url =>
                let p := set_original_text shown_url p in
                match as_href url with
                | inl e => (inl (err_message e), p)
                | inr href =>
                let p := set_original_href href p in
                (inr tt, show_result p)
                end end end end end
          end
      end
  end.

(** The submit listener (lines 128-171), once [fetch] has settled with
    [reply]: the page it leaves and the call it made, if any. *)
Definition on_submit (value : jstr) (reply : Fetched) (p : Page)
  : Page * option Call :=
  let url := trim value in
  if negb (nonempty url) then (showError ENTER_URL p, None)
  else
    let p := reset_ui p in
    let call :=
      {| call_url := ENDPOINT;
         call_method := lit "POST";
         call_headers := [ (lit "Content-Type", lit "application/json") ];
         call_body := JSON_stringify (JObj [ (lit "url", JStr url) ]) |} in
    let (thrown, p) := try_block reply p in
    let p :=
      match thrown with
      | inl message => showError (ERROR_PREFIX ++ message) p
      | inr _ => p
      end in
    (finish p, Some call).

End WithRuntime.

(** A browser for running the model: strings are stored as they are,
    [null] and [undefined] give the empty text, other values their
    [ToString]. *)
Definition sample_browser : Browser :=
  {| as_textContent := fun v =>
       match v with
       | JUndefined | JNull => inr []
       | _ => ToString (rt := Sample.runtime) v
       end;
     as_href := fun v => ToString (rt := Sample.runtime) v |}.

Definition blank_page : Page :=
  {| loading_shown := false; result_shown := false; error_shown := false;
     submit_disabled := false; summary_text := []; original_text := [];
     original_href := lit "#"; error_text := [] |}.

End Client.

(** * Properties *)

Module NormalizerFacts.
Import Normalizer.

(** Unfold the normalizer's functions one step, leaving the comparisons of
    code units folded. *)
Ltac step :=
  cbn [strip_tags skip_tag has_gt existsb tagfree_b collapse_from collapse_ws
       trimStart trimEnd spaced fields filter unwords nonempty app
       orb andb negb] in *.

(** ** Tag stripping *)


Lemma has_gt_false (r : jstr) : has_gt r = false <-> ~ In GT r.
Proof.
  unfold has_gt. split.
  - intros H Hin. assert (existsb (N.eqb GT) r = true) as E.
    { apply existsb_exists. exists GT. split; [assumption | apply N.eqb_refl]. }
    congruence.
  - intros H. destruct (existsb (N.eqb GT) r) eqn:E; [|reflexivity].
    apply existsb_exists in E as (x & Hx & Ex).
    apply N.eqb_eq in Ex. subst x. contradiction.
Qed.

Lemma has_gt_app (a b : jstr) : has_gt (a ++ b) = has_gt a || has_gt b.
Proof. unfold has_gt. apply existsb_app. Qed.





Lemma tagfree_b_fixed (x : jstr) : tagfree_b x = true -> strip_tags x = x.
Proof.
  induction x as [|c r IH]; step; [reflexivity|].
  intros H. apply andb_true_iff in H as [H1 H2].
  apply negb_true_iff in H1. rewrite H1. f_equal. apply IH. assumption.
Qed.

Lemma tagfree_b_suffix (a y : jstr) :
  tagfree_b (a ++ y) = true -> tagfree_b y = true.
Proof.
  induction a as [|c a IH]; step; [trivial|].
  intros H. apply andb_true_iff in H as [_ H]. apply IH. assumption.
Qed.

Lemma tagfree_b_sound (x : jstr) : tagfree_b x = true -> tag_free x.
Proof.
  intros H a m b E (body & -> & Hb). subst x.
  apply tagfree_b_suffix in H. step.
  apply andb_true_iff in H as [H _]. apply negb_true_iff in H.
  rewrite <- app_assoc, has_gt_app in H. step.
  rewrite N.eqb_refl in H. step. rewrite orb_true_r in H. discriminate.
Qed.



Lemma no_gt_tagfree (r : jstr) : has_gt r = false -> tagfree_b r = true.
Proof.
  induction r as [|c r IH]; step; [reflexivity|].
  intros H. apply orb_false_iff in H as [_ H]. fold (has_gt r) in H.
  rewrite H, andb_false_r. step. apply IH. assumption.
Qed.

Lemma no_lt_tagfree (pre r : jstr) :
  ~ In LT pre -> tagfree_b r = true -> tagfree_b (pre ++ r) = true.
Proof.
  induction pre as [|c pre IH]; intros Hp Hr; step; [assumption|].
  destruct (N.eqb_spec c LT) as [->|Hc].
  - exfalso. apply Hp. left. reflexivity.
  - step. apply IH; [|assumption]. intros Hin. apply Hp. right. assumption.
Qed.



(** ** Whitespace collapse and trim *)

Lemma is_ws_SP : is_ws SP = true.
Proof. reflexivity. Qed.

Lemma is_ws_not_angle (c : N) : is_ws c = true -> (c =? LT) = false /\ (c =? GT) = false.
Proof.
  intros H. split.
  - destruct (N.eqb_spec c LT) as [->|]; [discriminate H | reflexivity].
  - destruct (N.eqb_spec c GT) as [->|]; [discriminate H | reflexivity].
Qed.

Lemma collapse_true_head (s : jstr) :
  trimStart (collapse_from true s) = collapse_from true s.
Proof.
  induction s as [|c r IH]; step; [reflexivity|].
  destruct (is_ws c) eqn:W; [assumption|].
  step. rewrite W. reflexivity.
Qed.

Lemma trimStart_collapse (s : jstr) :
  trimStart (collapse_ws s) = collapse_from true s.
Proof.
  destruct s as [|c r]; step; [reflexivity|].
  destruct (is_ws c) eqn:W; step.
  - rewrite is_ws_SP. apply collapse_true_head.
  - rewrite W. reflexivity.
Qed.

Lemma trimEnd_cons_word (c : N) (x : jstr) :
  is_ws c = false -> trimEnd (c :: x) = c :: trimEnd x.
Proof.
  intros W. step. rewrite W. destruct (trimEnd x); reflexivity.
Qed.

Lemma fields_cons (s : jstr) : exists w ws, fields s = w :: ws.
Proof.
  destruct s as [|c r]; step; [eauto|].
  destruct (is_ws c); [eauto|]. destruct (fields r); eauto.
Qed.

Lemma unwords_cons_char (c : N) (w : jstr) (F : list jstr) :
  unwords ((c :: w) :: F) = c :: unwords (w :: F).
Proof. destruct F; reflexivity. Qed.

Lemma words_head_nonempty (s w : jstr) (W : list jstr) :
  words s = w :: W -> w <> [].
Proof.
  unfold words. intros E.
  assert (In w (filter nonempty (fields s))) as H by (rewrite E; left; reflexivity).
  apply filter_In in H as [_ H]. destruct w; [discriminate | discriminate].
Qed.

Lemma unwords_nonempty (w : jstr) (W : list jstr) :
  w <> [] -> unwords (w :: W) <> [].
Proof.
  destruct w as [|c w]; [congruence|]. intros _.
  rewrite unwords_cons_char. discriminate.
Qed.

(** Collapsing and trimming leaves the words of the text, joined by single
    spaces. *)
Lemma collapse_words (s : jstr) :
  trimEnd (collapse_from true s) = unwords (words s) /\
  trimEnd (collapse_from false s) = unwords (words_after s).
Proof.
  induction s as [|c r [IHa IHb]]; [split; reflexivity|].
  unfold words, words_after in *.
  destruct (fields_cons r) as (w & ws & Er).
  step. destruct (is_ws c) eqn:W.
  - step. split; [assumption|].
    destruct (filter nonempty (fields r)) as [|w1 W1] eqn:EW.
    + rewrite is_ws_SP, IHa. reflexivity.
    + rewrite IHa.
      assert (unwords (w1 :: W1) <> []) as Hne.
      { apply unwords_nonempty. apply (@words_head_nonempty r w1 W1). exact EW. }
      destruct (unwords (w1 :: W1)) eqn:EU; [congruence|]. reflexivity.
  - rewrite Er in IHb |- *. cbn [filter nonempty].
    rewrite unwords_cons_char, trimEnd_cons_word, IHb by assumption.
    split; reflexivity.
Qed.

Lemma trim_collapse_words (s : jstr) :
  trim (collapse_ws s) = unwords (words s).
Proof.
  unfold trim. rewrite trimStart_collapse. apply collapse_words.
Qed.

(** ** Normal forms *)

Lemma spaced_collapse (s : jstr) :
  spaced true (collapse_from true s) = true /\
  spaced false (collapse_from false s) = true.
Proof.
  induction s as [|c r [IHa IHb]]; [split; reflexivity|].
  step. destruct (is_ws c) eqn:W; step.
  - rewrite is_ws_SP, N.eqb_refl, IHa. split; [reflexivity|reflexivity].
  - rewrite W. split; assumption.
Qed.

Lemma spaced_trimEnd (b : bool) (x : jstr) :
  spaced b x = true -> spaced b (trimEnd x) = true.
Proof.
  revert b. induction x as [|c r IH]; intros b H; [reflexivity|].
  step. destruct (trimEnd r) as [|d t] eqn:ET.
  - destruct (is_ws c) eqn:W; [reflexivity|]. step. rewrite W. reflexivity.
  - step. destruct (is_ws c) eqn:W.
    + apply andb_true_iff in H as [H1 H2]. rewrite H1. apply (IH true). assumption.
    + apply (IH false). assumption.
Qed.

Lemma trimEnd_idem (x : jstr) : trimEnd (trimEnd x) = trimEnd x.
Proof.
  induction x as [|c r IH]; [reflexivity|].
  step. destruct (trimEnd r) as [|d t] eqn:ET.
  - destruct (is_ws c) eqn:W; [reflexivity|]. step. rewrite W. reflexivity.
  - cbn [trimEnd]. cbn [trimEnd] in IH. rewrite IH. reflexivity.
Qed.

Lemma spaced_fixed (x : jstr) :
  (spaced true x = true -> collapse_from true x = x) /\
  (spaced false x = true -> collapse_from false x = x).
Proof.
  induction x as [|c r [IHa IHb]]; [split; reflexivity|].
  step. destruct (is_ws c) eqn:W; split; intros H.
  - rewrite andb_false_r in H. discriminate.
  - apply andb_true_iff in H as [H1 H2]. rewrite andb_true_r in H1.
    apply N.eqb_eq in H1. subst c. f_equal. apply IHa. assumption.
  - f_equal. apply IHb. assumption.
  - f_equal. apply IHb. assumption.
Qed.

(** A text that is single-spaced and has no trailing whitespace is left
    unchanged by collapse-and-trim. *)
Lemma trim_collapse_fixed (z : jstr) :
  spaced true z = true -> trimEnd z = z -> trim (collapse_ws z) = z.
Proof.
  intros Hs He. unfold trim. rewrite trimStart_collapse.
  rewrite (proj1 (spaced_fixed z) Hs). assumption.
Qed.

Lemma trim_collapse_spaced (s : jstr) :
  spaced true (trim (collapse_ws s)) = true.
Proof.
  unfold trim. rewrite trimStart_collapse.
  apply spaced_trimEnd. apply spaced_collapse.
Qed.

Lemma trim_collapse_trimmed (s : jstr) :
  trimEnd (trim (collapse_ws s)) = trim (collapse_ws s).
Proof. unfold trim. apply trimEnd_idem. Qed.

Lemma spaced_firstn (k : nat) (b : bool) (x : jstr) :
  spaced b x = true -> spaced b (firstn k x) = true.
Proof.
  revert b x. induction k as [|k IH]; intros b x H; [reflexivity|].
  destruct x as [|c r]; [reflexivity|].
  cbn [firstn]. step. destruct (is_ws c).
  - apply andb_true_iff in H as [H1 H2]. rewrite H1. apply IH. assumption.
  - apply IH. assumption.
Qed.

Lemma spaced_ellipsis (b : bool) (p : jstr) :
  spaced b p = true -> spaced b (p ++ ELLIPSIS) = true.
Proof.
  revert b. induction p as [|c r IH]; intros b H.
  - reflexivity.
  - step. destruct (is_ws c).
    + apply andb_true_iff in H as [H1 H2]. rewrite H1. apply IH. assumption.
    + apply IH. assumption.
Qed.

Lemma trimEnd_app_fixed (p q : jstr) :
  q <> [] -> trimEnd q = q -> trimEnd (p ++ q) = p ++ q.
Proof.
  intros Hq Eq. induction p as [|c r IH]; [assumption|].
  step. cbn [app] in IH. rewrite IH.
  destruct (r ++ q) eqn:E; [|reflexivity].
  apply app_eq_nil in E as [_ E]. congruence.
Qed.

(** ** Tag-freeness along the pipeline *)

Lemma has_gt_cons (c : N) (r : jstr) : has_gt (c :: r) = (GT =? c) || has_gt r.
Proof. reflexivity. Qed.

Ltac stepg :=
  cbn [strip_tags skip_tag tagfree_b collapse_from collapse_ws
       trimStart trimEnd app orb andb negb] in *;
  rewrite ?has_gt_cons in *.


Lemma has_gt_strip (s : jstr) :
  (has_gt (strip_tags s) = true -> has_gt s = true) /\
  (has_gt (skip_tag s) = true -> has_gt s = true).
Proof.
  induction s as [|c r [IHa IHb]]; [split; trivial|].
  split; stepg.
  - destruct ((c =? LT) && has_gt r) eqn:E; stepg.
    + apply andb_true_iff in E as [_ E]. rewrite E, orb_true_r. reflexivity.
    + intros H. apply orb_true_iff in H as [H|H]; [rewrite H; reflexivity|].
      rewrite (IHa H), orb_true_r. reflexivity.
  - destruct (N.eqb_spec c GT) as [->|Hc].
    + intros _. rewrite N.eqb_refl. reflexivity.
    + intros H. rewrite (IHb H), orb_true_r. reflexivity.
Qed.

Lemma tagfree_strip (s : jstr) :
  tagfree_b (strip_tags s) = true /\ tagfree_b (skip_tag s) = true.
Proof.
  induction s as [|c r [IHa IHb]]; [split; reflexivity|].
  split; stepg.
  - destruct ((c =? LT) && has_gt r) eqn:E; stepg.
    + rewrite IHb. reflexivity.
    + rewrite IHa, andb_true_r. apply negb_true_iff.
      destruct (c =? LT); [|reflexivity]. stepg.
      destruct (has_gt (strip_tags r)) eqn:G; [|reflexivity].
      apply has_gt_strip in G. congruence.
  - destruct (c =? GT); assumption.
Qed.

Lemma has_gt_collapse (b : bool) (s : jstr) :
  has_gt (collapse_from b s) = has_gt s.
Proof.
  revert b. induction s as [|c r IH]; intros b; [reflexivity|].
  stepg. destruct (is_ws c) eqn:W.
  - destruct (is_ws_not_angle _ W) as [_ Hg]. rewrite N.eqb_sym, Hg.
    destruct b; stepg; rewrite IH; reflexivity.
  - stepg. rewrite IH. reflexivity.
Qed.

Lemma tagfree_collapse (b : bool) (s : jstr) :
  tagfree_b s = true -> tagfree_b (collapse_from b s) = true.
Proof.
  revert b. induction s as [|c r IH]; intros b H; [reflexivity|].
  stepg. apply andb_true_iff in H as [H1 H2].
  destruct (is_ws c) eqn:W.
  - destruct b; stepg; [apply IH; assumption|].
    rewrite IH by assumption. reflexivity.
  - stepg. rewrite has_gt_collapse, H1. apply IH. assumption.
Qed.

Lemma tagfree_trimStart (s : jstr) :
  tagfree_b s = true -> tagfree_b (trimStart s) = true.
Proof.
  induction s as [|c r IH]; intros H; [reflexivity|].
  cbn [trimStart]. destruct (is_ws c); [|assumption].
  apply IH. stepg. apply andb_true_iff in H as [_ H]. assumption.
Qed.

Lemma has_gt_trimEnd (s : jstr) : has_gt (trimEnd s) = has_gt s.
Proof.
  induction s as [|c r IH]; [reflexivity|].
  stepg. destruct (trimEnd r) as [|d t] eqn:ET.
  - rewrite <- IH. stepg. destruct (is_ws c) eqn:W; [|reflexivity].
    destruct (is_ws_not_angle _ W) as [_ Hg]. rewrite N.eqb_sym, Hg. reflexivity.
  - rewrite has_gt_cons, IH. reflexivity.
Qed.

Lemma tagfree_trimEnd (s : jstr) :
  tagfree_b s = true -> tagfree_b (trimEnd s) = true.
Proof.
  induction s as [|c r IH]; intros H; [reflexivity|].
  cbn [tagfree_b] in H. apply andb_true_iff in H as [H1 H2].
  pose proof (has_gt_trimEnd r) as G. specialize (IH H2).
  cbn [trimEnd]. destruct (trimEnd r) as [|d t] eqn:ET.
  - destruct (is_ws c); [reflexivity|]. cbn [tagfree_b has_gt existsb].
    rewrite andb_false_r. reflexivity.
  - cbn [tagfree_b]. cbn [tagfree_b] in IH. rewrite IH, G, H1. reflexivity.
Qed.

Lemma has_gt_firstn (k : nat) (s : jstr) :
  has_gt (firstn k s) = true -> has_gt s = true.
Proof.
  revert s. induction k as [|k IH]; intros s; [discriminate|].
  destruct s as [|c r]; [trivial|]. cbn [firstn]. rewrite !has_gt_cons.
  intros H. apply orb_true_iff in H as [H|H]; [rewrite H; reflexivity|].
  rewrite (IH _ H), orb_true_r. reflexivity.
Qed.

Lemma tagfree_firstn (k : nat) (s : jstr) :
  tagfree_b s = true -> tagfree_b (firstn k s) = true.
Proof.
  revert s. induction k as [|k IH]; intros s H; [reflexivity|].
  destruct s as [|c r]; [reflexivity|]. cbn [firstn tagfree_b] in *.
  apply andb_true_iff in H as [H1 H2]. rewrite (IH _ H2), andb_true_r.
  apply negb_true_iff. apply negb_true_iff in H1.
  destruct (c =? LT); [|reflexivity]. cbn [andb] in *.
  destruct (has_gt (firstn k r)) eqn:G; [|reflexivity].
  apply has_gt_firstn in G. congruence.
Qed.

Lemma tagfree_ellipsis (p : jstr) :
  tagfree_b p = true -> tagfree_b (p ++ ELLIPSIS) = true.
Proof.
  induction p as [|c r IH]; intros H; [reflexivity|].
  cbn [app tagfree_b] in *. apply andb_true_iff in H as [H1 H2].
  rewrite (IH H2), has_gt_app, andb_true_r.
  replace (has_gt ELLIPSIS) with false by reflexivity.
  rewrite orb_false_r. assumption.
Qed.

(** ** Truncation *)

Lemma length_ELLIPSIS : List.length ELLIPSIS = 3%nat.
Proof. reflexivity. Qed.

Lemma truncate_short (b : jstr) :
  js_length b <= MAX_CHARS -> truncate b = b.
Proof.
  intros H. unfold truncate.
  destruct (N.ltb_spec MAX_CHARS (js_length b)); [lia | reflexivity].
Qed.

Lemma truncate_long (b : jstr) :
  MAX_CHARS < js_length b -> truncate b = substring0 MAX_CHARS b ++ ELLIPSIS.
Proof.
  intros H. unfold truncate.
  destruct (N.ltb_spec MAX_CHARS (js_length b)); [reflexivity | lia].
Qed.

Lemma substring0_length (n : N) (b : jstr) :
  n <= js_length b -> js_length (substring0 n b) = n.
Proof.
  unfold js_length, substring0. intros H. rewrite length_firstn. lia.
Qed.

Lemma js_length_app (a b : jstr) : js_length (a ++ b) = js_length a + js_length b.
Proof. unfold js_length. rewrite length_app. lia. Qed.

Lemma substring0_app (n : N) (a b : jstr) :
  js_length a = n -> substring0 n (a ++ b) = a.
Proof.
  unfold js_length, substring0. intros H.
  replace (N.to_nat n) with (List.length a + 0)%nat by lia.
  rewrite firstn_app_2. cbn [firstn]. apply app_nil_r.
Qed.

(** ** The normalizer *)


(** The spec's end-to-end example: the body
    [<html><body>Hello <b>World</b></body></html>] normalizes to
    [Hello World]. *)
Example normalize_hello_world :
  normalize (lit "<html><body>Hello <b>World</b></body></html>")
  = lit "Hello World".
Proof. vm_compute. reflexivity. Qed.

Example normalize_keeps_unclosed_angle :
  normalize (lit "a > b < c") = lit "a > b < c".
Proof. vm_compute. reflexivity. Qed.

Lemma normalize_tagfree (s : jstr) : tagfree_b (normalize s) = true.
Proof.
  unfold normalize, truncate, trim, substring0.
  set (z := trimEnd (trimStart (collapse_ws (strip_tags s)))).
  assert (tagfree_b z = true) as Hz.
  { apply tagfree_trimEnd, tagfree_trimStart, tagfree_collapse, tagfree_strip. }
  destruct (MAX_CHARS <? js_length z); [|assumption].
  apply tagfree_ellipsis, tagfree_firstn. assumption.
Qed.

Lemma trimEnd_ELLIPSIS : trimEnd ELLIPSIS = ELLIPSIS.
Proof. reflexivity. Qed.

(** C4. Normalizing an already normalized text changes nothing. *)
Theorem normalize_idempotent (s : jstr) :
  normalize (normalize s) = normalize s.
Proof.
  assert (strip_tags (normalize s) = normalize s) as E1
    by apply tagfree_b_fixed, normalize_tagfree.
  unfold normalize at 1. rewrite E1.
  unfold normalize.
  set (z := trim (collapse_ws (strip_tags s))).
  assert (spaced true z = true) as Sz by apply trim_collapse_spaced.
  assert (trimEnd z = z) as Tz by apply trim_collapse_trimmed.
  destruct (N.le_gt_cases (js_length z) MAX_CHARS) as [Hle|Hgt].
  - rewrite (truncate_short _ Hle).
    rewrite (@trim_collapse_fixed z Sz Tz). apply truncate_short. assumption.
  - rewrite (truncate_long _ Hgt).
    set (p := substring0 MAX_CHARS z).
    assert (js_length p = MAX_CHARS) as Lp.
    { apply substring0_length. lia. }
    rewrite trim_collapse_fixed.
    + rewrite truncate_long.
      * rewrite substring0_app by assumption. reflexivity.
      * rewrite js_length_app, Lp. unfold js_length. rewrite length_ELLIPSIS.
        unfold MAX_CHARS. lia.
    + apply spaced_ellipsis. apply spaced_firstn. assumption.
    + apply trimEnd_app_fixed; [discriminate | apply trimEnd_ELLIPSIS].
Qed.

End NormalizerFacts.

Module StringFacts.

Lemma str_eqb_eq (a b : jstr) : str_eqb a b = true <-> a = b.
Proof.
  revert b. induction a as [|x a IH]; intros [|y b]; cbn [str_eqb];
    try (split; [discriminate | discriminate]); [split; reflexivity|].
  rewrite andb_true_iff, N.eqb_eq, IH. split.
  - intros [-> ->]. reflexivity.
  - intros E. injection E as -> ->. split; reflexivity.
Qed.

Lemma str_eqb_neq (a b : jstr) : a <> b -> str_eqb a b = false.
Proof.
  intros H. destruct (str_eqb a b) eqn:E; [|reflexivity].
  apply str_eqb_eq in E. contradiction.
Qed.

Lemma str_eqb_refl (a : jstr) : str_eqb a a = true.
Proof. apply str_eqb_eq. reflexivity. Qed.

End StringFacts.

(** ** [makeRequest] *)

Module RequestFacts.
Import Js Net.

Section WithRuntime.
Context {rt : Runtime}.

Lemma settle_2xx (st : Z) (hs : Headers) (d : jstr) :
  (200 <= st < 300)%Z ->
  exists v, settle (Responded st hs d) = inr {| data := v; status := st; headers := hs |}.
Proof.
  intros H. cbn [settle].
  replace ((200 <=? st) && (st <? 300))%Z with true by lia.
  destruct (includes _ _); [destruct (JSON_parse d)|]; eauto.
Qed.

Lemma settle_not_2xx (st : Z) (hs : Headers) (d : jstr) :
  ~ (200 <= st < 300)%Z ->
  settle (Responded st hs d) = inl (RejResponse st d hs).
Proof.
  intros H. cbn [settle].
  replace ((200 <=? st) && (st <? 300))%Z with false by lia. reflexivity.
Qed.

(** Every rejection comes from one of the three ways the promise can
    fail; a rejection that carries a response carries a status outside
    200-299. *)
Lemma settle_rejected (reply : NetOutcome) (err : JsError) :
  settle reply = inl err ->
  match err with
  | RejResponse st d hs => reply = Responded st hs d /\ ~ (200 <= st < 300)%Z
  | RejRequest m => reply = Failed m
  | Thrown e => reply = Raised e
  end.
Proof.
  destruct reply as [st hs d | m | e]; cbn [settle].
  - destruct (Z.leb_spec 200 st); destruct (Z.ltb_spec st 300); cbn [andb];
      try (intros E; injection E as <-; split; [reflexivity | lia]).
    destruct (includes _ _); [destruct (JSON_parse d)|]; discriminate.
  - intros E. injection E as <-. reflexivity.
  - intros E. injection E as <-. reflexivity.
Qed.

End WithRuntime.

(** C6. [makeRequest] resolves exactly when the status code received is
    in 200-299, and then with that status and those headers; a response
    with any other status rejects with an object whose [response] carries
    the status, the body and the headers (and which has no [request]); a
    failure of the connection rejects with an object that has a [request]
    and the error's message, and no [response]. *)
Theorem makeRequest_by_status (rt : Runtime)
    (requestUrl : JsVal) (options : Options) (payload : JsVal) :
  (forall st hs responseData,
     ((exists r,
         fst (makeRequest (Responded st hs responseData) requestUrl options payload)
         = inr r /\ status r = st /\ headers r = hs)
      <-> (200 <= st < 300)%Z) /\
     (~ (200 <= st < 300)%Z ->
      exists err,
        fst (makeRequest (Responded st hs responseData) requestUrl options payload)
        = inl err /\
        error_response err = Some (st, responseData, hs) /\
        error_request err = false)) /\
  (forall message,
     exists err,
       fst (makeRequest (Failed message) requestUrl options payload) = inl err /\
       error_request err = true /\
       error_response err = None /\
       error_message err = JStr message).
Proof.
  split.
  - intros st hs d. cbn [makeRequest fst]. split; [split|].
    + intros (r & E & _). destruct (Z.leb_spec 200 st); destruct (Z.ltb_spec st 300);
        try lia; rewrite settle_not_2xx in E by lia; discriminate.
    + intros H. destruct (settle_2xx st hs d H) as (v & E).
      rewrite E. eexists. split; [reflexivity|]. split; reflexivity.
    + intros H. rewrite (settle_not_2xx st hs d H).
      eexists. split; [reflexivity|]. split; reflexivity.
  - intros m. eexists. split; [reflexivity|]. repeat split.
Qed.

(** C10, as stated, fails: an exception thrown inside the promise
    executor (here by [url.parse], for a [requestUrl] that is a number)
    rejects the promise, although no response with a status outside 200-299
    was received and the request emitted no ['error'] event. *)
Lemma rejection_by_exception :
  fst (makeRequest (rt := Sample.runtime) (Raised Sample.not_a_string)
         Sample.NUMERIC_URL no_options JNull)
  = inl (Thrown Sample.not_a_string)
  /\
  ~ ((exists st hs responseData,
        Raised Sample.not_a_string = Responded st hs responseData /\
        ~ (200 <= st < 300)%Z)
     \/ (exists message, Raised Sample.not_a_string = Failed message)).
Proof.
  split; [reflexivity|].
  intros [(st & hs & d & E & _) | (m & E)]; discriminate E.
Qed.

(** C10. A 2xx response announced as JSON whose body does not parse
    still resolves, with the raw body as [data]; and [makeRequest] rejects
    in three cases only: a response whose status is outside 200-299, with
    the object built from that response; an ['error'] event of the request,
    with the object that holds the request; an exception thrown inside the
    promise executor, with that exception.  A body that does not parse is
    none of them. *)
Theorem makeRequest_keeps_unparsable_body (rt : Runtime)
    (requestUrl : JsVal) (options : Options) (payload : JsVal)
    (st : Z) (hs : Headers) (contentType responseData : jstr) (e : NativeError) :
  (200 <= st < 300)%Z ->
  lookup (lit "content-type") hs = Some contentType ->
  includes (lit "application/json") contentType = true ->
  JSON_parse responseData = inl e ->
  fst (makeRequest (Responded st hs responseData) requestUrl options payload)
  = inr {| data := JStr responseData; status := st; headers := hs |}
  /\
  (forall reply err,
     fst (makeRequest reply requestUrl options payload) = inl err ->
     (exists st' hs' body',
        reply = Responded st' hs' body' /\
        ~ (200 <= st' < 300)%Z /\ err = RejResponse st' body' hs')
     \/ (exists message, reply = Failed message /\ err = RejRequest message)
     \/ (exists x, reply = Raised x /\ err = Thrown x)).
Proof.
  intros Hst Hct Hinc Hparse. split.
  - cbn [makeRequest fst settle].
    replace ((200 <=? st) && (st <? 300))%Z with true by lia.
    rewrite Hct, Hinc, Hparse. reflexivity.
  - intros reply err E. cbn [makeRequest fst] in E.
    pose proof (settle_rejected _ _ E) as R.
    destruct err as [s d h | m | x].
    + destruct R as [R N]. left. exists s, h, d. repeat split; assumption.
    + right. left. exists m. split; [exact R | reflexivity].
    + right. right. exists x. split; [exact R | reflexivity].
Qed.

Lemma makeRequest_keeps_unparsable_body_witness :
  fst (makeRequest (rt := Sample.runtime)
         (Responded 200%Z Sample.json_headers (lit "oops"))
         (JStr (lit "http://example.com/data")) no_options JNull)
  = inr {| data := JStr (lit "oops"); status := 200%Z; headers := Sample.json_headers |}
  /\
  (forall reply err,
     fst (makeRequest (rt := Sample.runtime) reply
            (JStr (lit "http://example.com/data")) no_options JNull) = inl err ->
     (exists st' hs' body',
        reply = Responded st' hs' body' /\
        ~ (200 <= st' < 300)%Z /\ err = RejResponse st' body' hs')
     \/ (exists message, reply = Failed message /\ err = RejRequest message)
     \/ (exists x, reply = Raised x /\ err = Thrown x)).
Proof.
  apply (makeRequest_keeps_unparsable_body Sample.runtime
           (JStr (lit "http://example.com/data")) no_options JNull
           200%Z Sample.json_headers
           (lit "application/json; charset=utf-8") (lit "oops") Sample.syntax_error).
  - lia.
  - reflexivity.
  - reflexivity.
  - reflexivity.
Defined.

End RequestFacts.

(** ** The monad of the entry points *)

Module AsyncFacts.
Import Js Net.

Lemma bind_ret {A B : Type} (a : A) (k : A -> Async B) : bind (ret a) k = k a.
Proof. unfold bind, ret. destruct (k a). reflexivity. Qed.

Lemma bind_throw {A B : Type} (e : JsError) (k : A -> Async B) :
  bind (throw e) k = throw e.
Proof. reflexivity. Qed.

Lemma bind_lift_inr {A B : Type} (a : A) (k : A -> Async B) :
  bind (lift (inr a)) k = k a.
Proof. apply bind_ret. Qed.

Lemma bind_lift_inl {A B : Type} (e : NativeError) (k : A -> Async B) :
  bind (lift (inl e)) k = throw (Thrown e).
Proof. reflexivity. Qed.

Lemma try_catch_ret {A : Type} (a : A) (h : JsError -> Async A) :
  try_catch (ret a) h = ret a.
Proof. reflexivity. Qed.

Lemma try_catch_throw {A : Type} (e : JsError) (h : JsError -> Async A) :
  try_catch (throw e) h = h e.
Proof. unfold try_catch, throw. destruct (h e). reflexivity. Qed.

Lemma bind_rejected {A B : Type} (e : JsError) (t : list OutReq) (k : A -> Async B) :
  bind (inl e, t) k = (inl e, t).
Proof. reflexivity. Qed.

Lemma bind_resolved {A B : Type} (a : A) (t : list OutReq) (k : A -> Async B) :
  bind (inr a, t) k = (fst (k a), t ++ snd (k a)).
Proof. unfold bind. destruct (k a). reflexivity. Qed.

Lemma try_catch_rejected {A : Type} (e : JsError) (t : list OutReq)
    (h : JsError -> Async A) :
  try_catch (inl e, t) h = (fst (h e), t ++ snd (h e)).
Proof. unfold try_catch. destruct (h e). reflexivity. Qed.

Lemma try_catch_resolved {A : Type} (a : A) (t : list OutReq)
    (h : JsError -> Async A) :
  try_catch (inr a, t) h = (inr a, t).
Proof. reflexivity. Qed.

End AsyncFacts.

(** ** The handler *)

Module HandlerFacts.
Import Js Net Normalizer Summarize Replies StringFacts AsyncFacts RequestFacts.

Section WithRuntime.
Context {rt : Runtime}.
Variables (env : Env) (fetchReply geminiReply : NetOutcome).

Lemma handler_post (b : jstr) :
  handler env fetchReply geminiReply {| httpMethod := lit "POST"; body := b |}
  = try_catch
      (requestData <- lift (JSON_parse b) ;;
       targetUrl <- lift (getField requestData (lit "url")) ;;
       if negb (truthy targetUrl) then
         ret {| statusCode := 400%Z; res_headers := cors_headers;
                res_body := url_is_required |}
       else
         _ <- lift (ToString targetUrl) ;;
         response <- makeRequest fetchReply targetUrl no_options JNull ;;
         mainContent <- lift (toString (data response)) ;;
         match GEMINI_API_KEY env with
         | Some (c :: k) =>
             geminiResponse <-
               handler_gemini_call geminiReply
                 match GEMINI_API_URL env with
                 | Some (c :: u) => c :: u
                 | Some [] | None => DEFAULT_GEMINI_API_URL
                 end
                 (c :: k) (PROMPT_INTRO ++ normalize mainContent) ;;
             summary <- lift (extract_summary (data geminiResponse)) ;;
             ret {| statusCode := 200%Z;
                    res_headers :=
                      cors_headers ++ [ (lit "Content-Type", lit "application/json") ];
                    res_body := JSON_stringify
                      (JObj [ (lit "url", targetUrl); (lit "summary", summary) ]) |}
         | Some [] | None =>
             ret {| statusCode := 500%Z; res_headers := cors_headers;
                    res_body := JSON_stringify
                      (JObj [ (lit "error",
                               JStr (lit "GEMINI_API_KEY environment variable is not set")) ]) |}
         end)
      (handler_catch cors_headers).
Proof. reflexivity. Qed.

Lemma handler_catch_thrown (e : NativeError) :
  handler_catch cors_headers (Thrown e) = ret (unexpected_error e).
Proof. reflexivity. Qed.

(** The [catch] clause answers a rejection that carries a response. *)
Lemma handler_catch_response (st : Z) (d : jstr) (hs : Headers) :
  handler_catch cors_headers (RejResponse st d hs)
  = ret {| statusCode := (if st =? 0 then 500 else st)%Z;
           res_headers := cors_headers;
           res_body := JSON_stringify
             (JObj [ (lit "error", JStr (lit "Error processing request"));
                     (lit "details", JStr d);
                     (lit "message", JUndefined);
                     (lit "stack", JUndefined) ]) |}.
Proof. reflexivity. Qed.

(** It throws on a rejection that carries the request: the logging call
    of line 195 cannot serialise it. *)
Lemma handler_catch_request (m : jstr) :
  handler_catch cors_headers (RejRequest m)
  = throw (Thrown (TypeError (lit "Converting circular structure to JSON"))).
Proof. reflexivity. Qed.

(** A body that parses to a value other than [null] and whose [url] is
    missing or falsy is refused with 400, before any outbound call. *)
Lemma handler_url_required (b : jstr) (v target : JsVal) :
  JSON_parse b = inr v ->
  getField v (lit "url") = inr target ->
  truthy target = false ->
  handler env fetchReply geminiReply {| httpMethod := lit "POST"; body := b |}
  = (inr {| statusCode := 400%Z; res_headers := cors_headers;
            res_body := url_is_required |}, []).
Proof.
  intros P F T. rewrite handler_post, P, bind_lift_inr, F, bind_lift_inr, T.
  reflexivity.
Qed.

(** The [catch] clause makes no outbound call. *)
Lemma handler_catch_trace (error : JsError) :
  snd (handler_catch cors_headers error) = [].
Proof. destruct error as [st d hs | m | e]; reflexivity. Qed.

(** The status the handler derives from a failed outbound call, when
    its [catch] clause answers. *)
Lemma handler_catch_status (error : JsError) :
  (exists r, handler_catch cors_headers error = ret r /\
     res_headers r = cors_headers /\
     statusCode r =
       match error with
       | RejResponse st _ _ => if (st =? 0)%Z then 500%Z else st
       | RejRequest _ | Thrown _ => 500%Z
       end)
  \/ (exists m, error = RejRequest m /\
       handler_catch cors_headers error
       = throw (Thrown (TypeError (lit "Converting circular structure to JSON")))).
Proof.
  destruct error as [st d hs | m | e].
  - left. eexists. split; [reflexivity|]. split; reflexivity.
  - right. exists m. split; reflexivity.
  - left. eexists. split; [reflexivity|]. split; reflexivity.
Qed.

End WithRuntime.

(** C8. Any method other than [OPTIONS] and [POST] is answered with 405,
    the body [{"error":"Method not allowed"}] and the CORS headers; the
    answer depends neither on the request body nor on the network, and no
    outbound call is made. *)
Theorem handler_method_not_allowed (rt : Runtime) (env : Env)
    (fetchReply geminiReply : NetOutcome) (event : Event) :
  httpMethod event <> lit "OPTIONS" ->
  httpMethod event <> lit "POST" ->
  handler env fetchReply geminiReply event
  = (inr {| statusCode := 405%Z;
            res_headers :=
              [ (lit "Access-Control-Allow-Origin", lit "*");
                (lit "Access-Control-Allow-Headers", lit "Content-Type");
                (lit "Access-Control-Allow-Methods", lit "POST, OPTIONS") ];
            res_body := JSON_stringify
              (JObj [ (lit "error", JStr (lit "Method not allowed")) ]) |}, []).
Proof.
  intros H1 H2. unfold handler.
  rewrite (str_eqb_neq _ _ H1), (str_eqb_neq _ _ H2). reflexivity.
Qed.

Lemma handler_method_not_allowed_witness :
  handler (rt := Sample.runtime) Sample.env Sample.page Sample.answer
    {| httpMethod := lit "GET"; body := lit "ignored" |}
  = (inr {| statusCode := 405%Z;
            res_headers :=
              [ (lit "Access-Control-Allow-Origin", lit "*");
                (lit "Access-Control-Allow-Headers", lit "Content-Type");
                (lit "Access-Control-Allow-Methods", lit "POST, OPTIONS") ];
            res_body := JSON_stringify (Runtime := Sample.runtime)
              (JObj [ (lit "error", JStr (lit "Method not allowed")) ]) |}, []).
Proof.
  apply (handler_method_not_allowed Sample.runtime Sample.env Sample.page
           Sample.answer {| httpMethod := lit "GET"; body := lit "ignored" |}).
  - discriminate.
  - discriminate.
Defined.

(** C5 (handler). A body that is not JSON makes [JSON.parse] throw inside
    the [try] block; the [catch] clause answers 500 "Unexpected error",
    not 400. *)
Theorem handler_unparsable_body (rt : Runtime) (env : Env)
    (fetchReply geminiReply : NetOutcome) (b : jstr) (e : NativeError) :
  JSON_parse b = inl e ->
  handler env fetchReply geminiReply {| httpMethod := lit "POST"; body := b |}
  = (inr {| statusCode := 500%Z;
            res_headers := cors_headers;
            res_body := JSON_stringify
              (JObj [ (lit "error", JStr (lit "Unexpected error"));
                      (lit "message", JStr (err_message e));
                      (lit "stack", JStr (err_stack e)) ]) |}, []).
Proof.
  intros P. rewrite handler_post, P, bind_lift_inl, try_catch_throw. reflexivity.
Qed.

Lemma handler_unparsable_body_witness :
  handler (rt := Sample.runtime) Sample.env Sample.page Sample.answer
    {| httpMethod := lit "POST"; body := lit "not json" |}
  = (inr {| statusCode := 500%Z;
            res_headers := cors_headers;
            res_body := JSON_stringify (Runtime := Sample.runtime)
              (JObj [ (lit "error", JStr (lit "Unexpected error"));
                      (lit "message", JStr (err_message Sample.syntax_error));
                      (lit "stack", JStr (err_stack Sample.syntax_error)) ]) |}, []).
Proof.
  apply (handler_unparsable_body Sample.runtime Sample.env Sample.page
           Sample.answer (lit "not json") Sample.syntax_error).
  reflexivity.
Defined.

End HandlerFacts.

(** ** The server *)

Module ServerFacts.
Import Js Net Normalizer Summarize Server Replies StringFacts AsyncFacts RequestFacts.

Section WithRuntime.
Context {rt : Runtime}.
Variables (env : Env) (fetchReply geminiReply : NetOutcome).

Lemma server_summarize (u b : jstr) :
  url_pathname u = inr (Some (lit "/summarize")) ->
  server env fetchReply geminiReply {| method := lit "POST"; url := u; req_body := b |}
  = try_catch
      match JSON_parse b with
      | inl _ =>
          ret (json_reply 400%Z
                 (JObj [ (lit "error", JStr (lit "Invalid JSON in request body")) ]))
      | inr requestData =>
          targetUrl <- lift (getField requestData (lit "url")) ;;
          if negb (truthy targetUrl) then
            ret (json_reply 400%Z (JObj [ (lit "error", JStr (lit "URL is required")) ]))
          else
            _ <- lift (ToString targetUrl) ;;
            response <- makeRequest fetchReply targetUrl no_options JNull ;;
            mainContent <- lift (toString (data response)) ;;
            geminiResponse <- server_gemini_call env geminiReply mainContent ;;
            summary <- lift (extract_summary (data geminiResponse)) ;;
            ret (json_reply 200%Z
                   (JObj [ (lit "url", targetUrl); (lit "summary", summary) ]))
      end
      (server_catch cors_res).
Proof.
  intros H. unfold server. cbn [method url req_body].
  rewrite H, bind_lift_inr. reflexivity.
Qed.

Lemma server_catch_status (error : JsError) :
  exists r, server_catch cors_res error = ret r /\ statusCode r = 500%Z.
Proof.
  destruct error as [st d hs | m | e]; eexists; (split; [reflexivity|]); reflexivity.
Qed.

(** The server refuses a body that is not JSON with 400. *)
Lemma server_unparsable_body (u b : jstr) (e : NativeError) :
  url_pathname u = inr (Some (lit "/summarize")) ->
  JSON_parse b = inl e ->
  server env fetchReply geminiReply {| method := lit "POST"; url := u; req_body := b |}
  = (inr (json_reply 400%Z
            (JObj [ (lit "error", JStr (lit "Invalid JSON in request body")) ])), []).
Proof.
  intros H P. rewrite (server_summarize u b H), P. reflexivity.
Qed.

Lemma server_url_required (u b : jstr) (v target : JsVal) :
  url_pathname u = inr (Some (lit "/summarize")) ->
  JSON_parse b = inr v ->
  getField v (lit "url") = inr target ->
  truthy target = false ->
  server env fetchReply geminiReply {| method := lit "POST"; url := u; req_body := b |}
  = (inr (json_reply 400%Z (JObj [ (lit "error", JStr (lit "URL is required")) ])), []).
Proof.
  intros H P F T. rewrite (server_summarize u b H), P, F, bind_lift_inr, T.
  reflexivity.
Qed.

End WithRuntime.

(** A request whose target [url.parse] accepts and that is neither
    [OPTIONS], nor [GET] on [/], nor [POST] on [/summarize] is answered with
    404 and [{"error":"Not found"}]. *)
Lemma server_not_found (rt : Runtime) (env : Env)
    (fetchReply geminiReply : NetOutcome) (req : Request) (pathname : option jstr) :
  url_pathname (url req) = inr pathname ->
  method req <> lit "OPTIONS" ->
  ~ (pathname = Some (lit "/") /\ method req = lit "GET") ->
  ~ (pathname = Some (lit "/summarize") /\ method req = lit "POST") ->
  exists res,
    server env fetchReply geminiReply req = (inr res, []) /\
    statusCode res = 404%Z /\
    res_body res = JSON_stringify (JObj [ (lit "error", JStr (lit "Not found")) ]).
Proof.
  intros H0 H1 H2 H3. unfold server. rewrite (str_eqb_neq _ _ H1).
  rewrite H0, bind_lift_inr.
  assert (forall p m,
             ~ (pathname = Some p /\ method req = m) ->
             match pathname with
             | Some q => str_eqb q p
             | None => false
             end && str_eqb (method req) m = false) as K.
  { intros p m N. destruct pathname as [q|]; [|reflexivity].
    destruct (str_eqb q p) eqn:E1; [|reflexivity].
    destruct (str_eqb (method req) m) eqn:E2; [|reflexivity].
    apply str_eqb_eq in E1, E2. subst. exfalso. apply N. split; reflexivity. }
  rewrite (K _ _ H2), (K _ _ H3).
  eexists. split; [reflexivity|]. split; reflexivity.
Qed.

(** C9 (server). [url.parse(req.url)] is evaluated outside every [try]
    block.  For a request other than [OPTIONS] whose target it cannot
    decode, the callback ends with the exception [url.parse] throws: no
    404 is sent, the response is never ended, and no outbound call is
    made. *)
Theorem server_undecodable_target (rt : Runtime) (env : Env)
    (fetchReply geminiReply : NetOutcome) (req : Request) (e : NativeError) :
  method req <> lit "OPTIONS" ->
  url_pathname (url req) = inl e ->
  server env fetchReply geminiReply req = (inl (Thrown e), []).
Proof.
  intros H1 H0. unfold server. rewrite (str_eqb_neq _ _ H1).
  rewrite H0, bind_lift_inl. reflexivity.
Qed.

Lemma server_undecodable_target_witness :
  server (rt := Sample.runtime) Sample.env Sample.page Sample.answer
    {| method := lit "DELETE"; url := Sample.UNDECODABLE_TARGET; req_body := [] |}
  = (inl (Thrown Sample.uri_error), []).
Proof.
  apply (server_undecodable_target Sample.runtime Sample.env Sample.page
           Sample.answer
           {| method := lit "DELETE"; url := Sample.UNDECODABLE_TARGET;
              req_body := [] |}
           Sample.uri_error).
  - discriminate.
  - reflexivity.
Defined.

(** C7 (server). When the target answers with a status outside 200-299,
    the server answers 500 whatever that status is: the upstream status is
    not passed on. *)
Theorem server_hides_upstream_status (rt : Runtime) (env : Env)
    (geminiReply : NetOutcome) (u b : jstr) (v target : JsVal) (text : jstr)
    (st : Z) (hs : Headers) (d : jstr) :
  url_pathname u = inr (Some (lit "/summarize")) ->
  JSON_parse b = inr v ->
  getField v (lit "url") = inr target ->
  truthy target = true ->
  ToString target = inr text ->
  ~ (200 <= st < 300)%Z ->
  exists res trace,
    server env (Responded st hs d) geminiReply
      {| method := lit "POST"; url := u; req_body := b |} = (inr res, trace) /\
    statusCode res = 500%Z /\
    res_body res = JSON_stringify
      (JObj [ (lit "error", JStr (lit "Error processing request"));
              (lit "details", JStr d) ]).
Proof.
  intros H P F T S N.
  rewrite (server_summarize env _ geminiReply u b H), P, F, bind_lift_inr, T.
  cbn [negb]. rewrite S, bind_lift_inr.
  unfold makeRequest. rewrite (settle_not_2xx st hs d N).
  rewrite bind_rejected, try_catch_rejected.
  eexists. eexists. split; [reflexivity|]. split; reflexivity.
Qed.

Lemma server_hides_upstream_status_witness :
  exists res trace,
    server (rt := Sample.runtime) Sample.env
      (Responded 404%Z Sample.html_headers (lit "Not Found")) Sample.answer
      {| method := lit "POST"; url := lit "/summarize";
         req_body := Sample.url_body (lit "http://example.com/missing") |}
    = (inr res, trace) /\
    statusCode res = 500%Z /\
    res_body res = JSON_stringify (Runtime := Sample.runtime)
      (JObj [ (lit "error", JStr (lit "Error processing request"));
              (lit "details", JStr (lit "Not Found")) ]).
Proof.
  apply (server_hides_upstream_status Sample.runtime Sample.env Sample.answer
           (lit "/summarize") (Sample.url_body (lit "http://example.com/missing"))
           (JObj [ (lit "url", JStr (lit "http://example.com/missing")) ])
           (JStr (lit "http://example.com/missing"))
           (lit "http://example.com/missing")
           404%Z Sample.html_headers (lit "Not Found")).
  - reflexivity.
  - reflexivity.
  - reflexivity.
  - reflexivity.
  - reflexivity.
  - lia.
Defined.

End ServerFacts.

(** ** The two entry points side by side *)

Module VariantFacts.
Import Js Net Normalizer Summarize Server Replies StringFacts AsyncFacts RequestFacts.
Import HandlerFacts ServerFacts.

Section Calls.
Context {rt : Runtime}.

Lemma bind_makeRequest_rejected {B : Type} (reply : NetOutcome) (err : JsError)
    (target : JsVal) (options : Options) (payload : JsVal)
    (k : Resolved -> Async B) :
  settle reply = inl err ->
  bind (makeRequest reply target options payload) k
  = (inl err, snd (makeRequest reply target options payload)).
Proof. intros E. unfold makeRequest. rewrite E. reflexivity. Qed.

Lemma bind_makeRequest_resolved {B : Type} (reply : NetOutcome) (r : Resolved)
    (target : JsVal) (options : Options) (payload : JsVal)
    (k : Resolved -> Async B) :
  settle reply = inr r ->
  bind (makeRequest reply target options payload) k
  = (fst (k r), snd (makeRequest reply target options payload) ++ snd (k r)).
Proof. intros E. unfold makeRequest. rewrite E. apply bind_resolved. Qed.

(** A rejection never leads the handler to answer 200: its [catch]
    clause answers with another status, or, when the connection failed, it
    throws. *)
Lemma handler_catch_not_200 (reply : NetOutcome) (err : JsError) :
  settle reply = inl err ->
  (exists r, handler_catch cors_headers err = ret r /\ statusCode r <> 200%Z)
  \/ (exists m x, reply = Failed m /\
       handler_catch cors_headers err = throw (Thrown x)).
Proof.
  intros E. pose proof (settle_rejected _ _ E) as R.
  destruct (handler_catch_status err) as [(r & Er & _ & Es) | (m & -> & Er)].
  - left. exists r. split; [exact Er|]. rewrite Es.
    destruct err as [st d hs | m | e]; try discriminate.
    destruct R as [_ R]. destruct (Z.eqb_spec st 0); [discriminate | lia].
  - right. exists m. eexists. split; [exact R | exact Er].
Qed.

End Calls.

Ltac leaf :=
  cbn [fst snd app ret throw];
  do 4 eexists; split; [reflexivity|]; split; [reflexivity|].

Ltac absurd_status :=
  exfalso;
  match goal with
  | H : inr _ = inr _ |- _ => injection H as <-
  | H : inl _ = inr _ |- _ => discriminate H
  | _ => idtac
  end;
  (congruence || discriminate || contradiction).

(** The remaining conjuncts when neither entry point answers 200 and
    the request was not refused for a missing URL. *)
Ltac dead :=
  split; [intros ? ? ? ? ?; congruence|];
  split; [split; [intros (? & ? & ?) | intros ?]; absurd_status|];
  intros ? ? ?; absurd_status.

(** C1, as amended.  For a [POST] (on [/summarize] for the server) with
    the same body, the same answers from the target and from the
    summarization API, and the credential configured, the server answers.
    When the body parses to a value other than [null] whose [url] is missing
    or falsy, both answer 400 with [{"error":"URL is required"}] and call
    nothing.  One answers 200 exactly when the other does, and then with
    the same body [{url, summary}]; on that path both first request the
    target, and then the handler sends the prompt built from the normalized
    text while the server sends the prompt built from the fetched text as it
    is.  [ho] is what the handler ends with: a response, or an exception
    when it returns none. *)
Theorem variants_agree (rt : Runtime) (env : Env)
    (fetchReply geminiReply : NetOutcome) (u b : jstr) (c : N) (k : jstr) :
  url_pathname u = inr (Some (lit "/summarize")) ->
  GEMINI_API_KEY env = Some (c :: k) ->
  exists ho th rs ts,
    handler env fetchReply geminiReply {| httpMethod := lit "POST"; body := b |}
    = (ho, th) /\
    server env fetchReply geminiReply
      {| method := lit "POST"; url := u; req_body := b |} = (inr rs, ts) /\
    (forall v target,
       JSON_parse b = inr v ->
       getField v (lit "url") = inr target ->
       truthy target = false ->
       ho = inr {| statusCode := 400%Z;
                   res_headers := cors_headers;
                   res_body := JSON_stringify
                     (JObj [ (lit "error", JStr (lit "URL is required")) ]) |} /\
       statusCode rs = 400%Z /\
       res_body rs = JSON_stringify (JObj [ (lit "error", JStr (lit "URL is required")) ]) /\
       th = [] /\ ts = []) /\
    ((exists rh, ho = inr rh /\ statusCode rh = 200%Z) <-> statusCode rs = 200%Z) /\
    (forall rh, ho = inr rh -> statusCode rh = 200%Z ->
     res_body rs = res_body rh /\
     exists v target fetched text answered summary,
       JSON_parse b = inr v /\
       getField v (lit "url") = inr target /\
       settle fetchReply = inr fetched /\
       toString (data fetched) = inr text /\
       settle geminiReply = inr answered /\
       extract_summary (data answered) = inr summary /\
       res_body rh = JSON_stringify
         (JObj [ (lit "url", target); (lit "summary", summary) ]) /\
       th = snd (makeRequest fetchReply target no_options JNull)
            ++ snd (handler_gemini_call geminiReply
                      match GEMINI_API_URL env with
                      | Some (x :: y) => x :: y
                      | Some [] | None => DEFAULT_GEMINI_API_URL
                      end
                      (c :: k) (PROMPT_INTRO ++ normalize text)) /\
       ts = snd (makeRequest fetchReply target no_options JNull)
            ++ snd (server_gemini_call env geminiReply text)).
Proof.
  intros H K.
  rewrite handler_post, (server_summarize env fetchReply geminiReply u b H), K.
  destruct (JSON_parse b) as [e|v] eqn:P.
  { rewrite bind_lift_inl, try_catch_throw, handler_catch_thrown, try_catch_ret.
    leaf. dead. }
  rewrite !bind_lift_inr.
  destruct (getField v (lit "url")) as [e|target] eqn:F.
  { rewrite !bind_lift_inl, !try_catch_throw, handler_catch_thrown.
    destruct (server_catch_status (Thrown e)) as (rs & -> & Es).
    leaf. dead. }
  rewrite !bind_lift_inr.
  destruct (truthy target) eqn:T; cbn [negb].
  2: { rewrite !try_catch_ret. leaf.
       split; [intros v' t' Pv Fv Tv; repeat split|].
       split; [split; [intros (? & ? & ?) | intros ?]; absurd_status|].
       intros ? ? ?; absurd_status. }
  destruct (ToString target) as [e|shown] eqn:TS.
  { rewrite !bind_lift_inl, !try_catch_throw, handler_catch_thrown.
    destruct (server_catch_status (Thrown e)) as (rs & -> & Es).
    leaf. dead. }
  rewrite !bind_lift_inr.
  destruct (settle fetchReply) as [err|fetched] eqn:Sf.
  { rewrite !(bind_makeRequest_rejected _ _ _ _ _ _ Sf), !try_catch_rejected.
    destruct (server_catch_status err) as (rs & -> & Es).
    destruct (handler_catch_not_200 _ _ Sf) as [(rh & -> & Eh) | (m & x & Em & ->)].
    - leaf. dead.
    - leaf. dead. }
  rewrite !(bind_makeRequest_resolved _ _ _ _ _ _ Sf).
  destruct (toString (data fetched)) as [e|text] eqn:TT.
  { rewrite !bind_lift_inl. cbn [fst snd throw]. rewrite !try_catch_rejected.
    rewrite handler_catch_thrown.
    destruct (server_catch_status (Thrown e)) as (rs & -> & Es).
    leaf. dead. }
  rewrite !bind_lift_inr. unfold handler_gemini_call, server_gemini_call.
  destruct (settle geminiReply) as [err|answered] eqn:Sg.
  { rewrite !(bind_makeRequest_rejected _ _ _ _ _ _ Sg). cbn [fst snd].
    rewrite !try_catch_rejected.
    destruct (server_catch_status err) as (rs & -> & Es).
    destruct (handler_catch_not_200 _ _ Sg) as [(rh & -> & Eh) | (m & x & Em & ->)].
    - leaf. dead.
    - leaf. dead. }
  rewrite !(bind_makeRequest_resolved _ _ _ _ _ _ Sg).
  destruct (extract_summary (data answered)) as [e|summary] eqn:X.
  { rewrite !bind_lift_inl. cbn [fst snd throw]. rewrite !try_catch_rejected.
    rewrite handler_catch_thrown.
    destruct (server_catch_status (Thrown e)) as (rs & -> & Es).
    leaf. dead. }
  rewrite !bind_lift_inr. cbn [fst snd ret]. rewrite !try_catch_resolved.
  leaf.
  split; [intros v' t' Pv Fv Tv; congruence|].
  split; [split; [intros _; reflexivity | intros _; eexists; split; reflexivity]|].
  intros rh E _. injection E as <-. split; [reflexivity|].
  exists v, target, fetched, text, answered, summary.
  rewrite !app_nil_r. repeat split; assumption || reflexivity.
Qed.

Lemma variants_agree_witness :
  exists ho th rs ts,
    handler (rt := Sample.runtime) Sample.env Sample.page Sample.answer
      (Sample.post (Sample.url_body (lit "http://example.com/page-with-html")))
    = (ho, th) /\
    server (rt := Sample.runtime) Sample.env Sample.page Sample.answer
      (Sample.post_summarize (Sample.url_body (lit "http://example.com/page-with-html")))
    = (inr rs, ts) /\
    ((exists rh, ho = inr rh /\ statusCode rh = 200%Z) <-> statusCode rs = 200%Z) /\
    (forall rh, ho = inr rh -> statusCode rh = 200%Z -> res_body rs = res_body rh).
Proof.
  destruct (variants_agree Sample.runtime Sample.env Sample.page Sample.answer
              (lit "/summarize")
              (Sample.url_body (lit "http://example.com/page-with-html"))
              107 (lit "3y") eq_refl eq_refl)
    as (ho & th & rs & ts & Hh & Hs & _ & Hiff & Hbody).
  exists ho, th, rs, ts.
  split; [exact Hh|]. split; [exact Hs|]. split; [exact Hiff|].
  intros rh E E2. exact (proj1 (Hbody rh E E2)).
Defined.

(** C1 fails as stated.  With the same request and the target answering
    404, the handler answers 404 and the server 500; and with the target
    answering a page with markup, the handler sends the summarization API
    the stripped text while the server sends the markup. *)
Lemma variants_differ :
  let b := Sample.url_body (lit "http://example.com/page-with-html") in
  (exists rh th rs ts,
     handler (rt := Sample.runtime) Sample.env Sample.not_found Sample.answer
       (Sample.post b) = (inr rh, th) /\
     server (rt := Sample.runtime) Sample.env Sample.not_found Sample.answer
       (Sample.post_summarize b) = (inr rs, ts) /\
     statusCode rh = 404%Z /\ statusCode rs = 500%Z) /\
  List.map req_payload
    (snd (handler (rt := Sample.runtime) Sample.env Sample.page Sample.answer
            (Sample.post b)))
  <> List.map req_payload
       (snd (server (rt := Sample.runtime) Sample.env Sample.page Sample.answer
               (Sample.post_summarize b))).
Proof.
  split.
  - do 4 eexists. split; [vm_compute; reflexivity|].
    split; [vm_compute; reflexivity|]. split; reflexivity.
  - vm_compute. intros E. discriminate E.
Qed.

(** C2 at the body [null].  The body parses, and it has no [url]; reading
    [url] from [null] throws, and both entry points answer 500 instead of
    400.  No outbound call is made. *)
Theorem null_body_is_answered_500 (rt : Runtime) (env : Env)
    (fetchReply geminiReply : NetOutcome) (u b : jstr) :
  url_pathname u = inr (Some (lit "/summarize")) ->
  JSON_parse b = inr JNull ->
  (exists rh,
     handler env fetchReply geminiReply {| httpMethod := lit "POST"; body := b |}
     = (inr rh, []) /\ statusCode rh = 500%Z) /\
  (exists rs,
     server env fetchReply geminiReply
       {| method := lit "POST"; url := u; req_body := b |}
     = (inr rs, []) /\ statusCode rs = 500%Z).
Proof.
  intros H P. split.
  - rewrite handler_post, P, bind_lift_inr. cbn [getField].
    rewrite bind_lift_inl, try_catch_throw, handler_catch_thrown.
    eexists. split; reflexivity.
  - rewrite (server_summarize env fetchReply geminiReply u b H), P.
    cbn [getField]. rewrite bind_lift_inl, try_catch_throw.
    eexists. split; reflexivity.
Qed.

Lemma null_body_is_answered_500_witness :
  (exists rh,
     handler (rt := Sample.runtime) Sample.env Sample.page Sample.answer
       {| httpMethod := lit "POST"; body := lit "null" |}
     = (inr rh, []) /\ statusCode rh = 500%Z) /\
  (exists rs,
     server (rt := Sample.runtime) Sample.env Sample.page Sample.answer
       {| method := lit "POST"; url := lit "/summarize"; req_body := lit "null" |}
     = (inr rs, []) /\ statusCode rs = 500%Z).
Proof.
  apply (null_body_is_answered_500 Sample.runtime Sample.env Sample.page
           Sample.answer (lit "/summarize") (lit "null")).
  - reflexivity.
  - reflexivity.
Defined.

(** Apart from [null], a body that parses and has no truthy [url] is
    refused with 400 by both entry points, before any outbound call. *)
Lemma missing_url_is_refused (rt : Runtime) (env : Env)
    (fetchReply geminiReply : NetOutcome) (u b : jstr) (v : JsVal) :
  url_pathname u = inr (Some (lit "/summarize")) ->
  JSON_parse b = inr v ->
  v <> JNull -> v <> JUndefined ->
  (forall target, getField v (lit "url") = inr target -> truthy target = false) ->
  (exists rh,
     handler env fetchReply geminiReply {| httpMethod := lit "POST"; body := b |}
     = (inr rh, []) /\ statusCode rh = 400%Z /\
     res_body rh = JSON_stringify (JObj [ (lit "error", JStr (lit "URL is required")) ])) /\
  (exists rs,
     server env fetchReply geminiReply
       {| method := lit "POST"; url := u; req_body := b |}
     = (inr rs, []) /\ statusCode rs = 400%Z /\
     res_body rs = JSON_stringify (JObj [ (lit "error", JStr (lit "URL is required")) ])).
Proof.
  intros H P N1 N2 G.
  assert (exists target, getField v (lit "url") = inr target) as (target & F).
  { destruct v; cbn [getField]; try (eexists; reflexivity); try congruence.
    destruct (lookup (lit "url") props); eexists; reflexivity. }
  specialize (G target F). split.
  - rewrite (handler_url_required env fetchReply geminiReply b v target P F G).
    eexists. split; [reflexivity|]. split; reflexivity.
  - rewrite (server_url_required env fetchReply geminiReply u b v target H P F G).
    eexists. split; [reflexivity|]. split; reflexivity.
Qed.

(** The handler, unlike the server, passes a failed fetch's status on. *)
Lemma handler_passes_upstream_status (rt : Runtime) (env : Env)
    (geminiReply : NetOutcome) (b : jstr) (v target : JsVal) (text : jstr)
    (st : Z) (hs : Headers) (d : jstr) :
  JSON_parse b = inr v ->
  getField v (lit "url") = inr target ->
  truthy target = true ->
  ToString target = inr text ->
  ~ (200 <= st < 300)%Z ->
  exists res trace,
    handler env (Responded st hs d) geminiReply
      {| httpMethod := lit "POST"; body := b |} = (inr res, trace) /\
    statusCode res = (if st =? 0 then 500 else st)%Z.
Proof.
  intros P F T S N.
  rewrite handler_post, P, bind_lift_inr, F, bind_lift_inr, T.
  cbn [negb]. rewrite S, bind_lift_inr.
  rewrite (bind_makeRequest_rejected _ _ _ _ _ _ (settle_not_2xx st hs d N)).
  rewrite try_catch_rejected.
  eexists. eexists. split; [reflexivity|]. reflexivity.
Qed.

End VariantFacts.

(** ** The model at work *)

Module SampleRuns.
Import Js Net Normalizer Summarize Server Sample.

(** The spec's end-to-end example through the handler: the page
    [<html><body>Hello <b>World</b></body></html>] is fetched, the prompt
    carries [Hello World], and the API's sentence comes back verbatim. *)
Example handler_end_to_end :
  let b := url_body (lit "http://example.com/page-with-html") in
  handler (rt := runtime) env page answer (post b)
  = (inr {| statusCode := 200%Z;
            res_headers :=
              cors_headers ++ [ (lit "Content-Type", lit "application/json") ];
            res_body := stringify
              (JObj [ (lit "url", JStr (lit "http://example.com/page-with-html"));
                      (lit "summary", JStr (lit "A greeting.")) ]) |},
     [ {| req_url := JStr (lit "http://example.com/page-with-html");
          req_method := lit "GET";
          req_headers := [];
          req_payload := None |};
       {| req_url := JStr (lit "https://api.example/v1/generate?key=k3y");
          req_method := lit "POST";
          req_headers := [ (lit "Content-Type", JStr (lit "application/json")) ];
          req_payload :=
            Some (stringify (gemini_payload (PROMPT_INTRO ++ lit "Hello World"))) |} ]).
Proof. vm_compute. reflexivity. Qed.

(** The same request through the server: the prompt carries the markup. *)
Example server_end_to_end :
  let b := url_body (lit "http://example.com/page-with-html") in
  List.map req_payload (snd (server (rt := runtime) env page answer (post_summarize b)))
  = [ None;
      Some (stringify
              (gemini_payload
                 (PROMPT_INTRO ++ lit "<html><body>Hello <b>World</b></body></html>"))) ].
Proof. vm_compute. reflexivity. Qed.

(** [OPTIONS] is answered 204 with an empty body by both entry points. *)
Example preflight :
  handler (rt := runtime) env page answer {| httpMethod := lit "OPTIONS"; body := [] |}
  = (inr {| statusCode := 204%Z; res_headers := cors_headers; res_body := [] |}, [])
  /\ exists res,
       server (rt := runtime) env page answer
         {| method := lit "OPTIONS"; url := lit "/anything"; req_body := [] |}
       = (inr res, []) /\ statusCode res = 204%Z /\ res_body res = [].
Proof.
  split; [reflexivity|]. eexists. split; [reflexivity|]. split; reflexivity.
Qed.

(** An answer of the API without candidates ends in 500. *)
Example handler_unexpected_shape :
  let b := url_body (lit "http://example.com/") in
  exists res trace,
    handler (rt := runtime) env page (Responded 200%Z json_headers (lit "{}")) (post b)
    = (inr res, trace) /\ statusCode res = 500%Z.
Proof. do 2 eexists. split; [vm_compute; reflexivity|]. reflexivity. Qed.

(** When the connection to the target fails, the handler's [catch]
    clause throws while it logs the error, and the handler returns no
    response; the server answers 500. *)
Example connection_failure :
  let b := url_body (lit "http://example.com/") in
  handler (rt := runtime) env (Failed (lit "connect ECONNREFUSED")) answer (post b)
  = (inl (Thrown (TypeError (Runtime := runtime)
                    (lit "Converting circular structure to JSON"))),
     [ {| req_url := JStr (lit "http://example.com/");
          req_method := lit "GET";
          req_headers := [];
          req_payload := None |} ])
  /\ exists res trace,
       server (rt := runtime) env (Failed (lit "connect ECONNREFUSED")) answer
         (post_summarize b)
       = (inr res, trace) /\ statusCode res = 500%Z.
Proof.
  split; [vm_compute; reflexivity|].
  do 2 eexists. split; [vm_compute; reflexivity|]. reflexivity.
Qed.

(** A text with a quote, a backslash and a line feed, as the sample
    runtime serialises it. *)
Example stringify_escapes :
  stringify (JStr (lit "a" ++ [QUOTE] ++ lit "b" ++ [BACKSLASH] ++ lit "c" ++ [10; 1]))
  = [QUOTE] ++ lit "a" ++ [BACKSLASH; QUOTE] ++ lit "b" ++ [BACKSLASH; BACKSLASH]
    ++ lit "c" ++ [BACKSLASH] ++ lit "n" ++ [BACKSLASH] ++ lit "u0001" ++ [QUOTE].
Proof. vm_compute. reflexivity. Qed.

End SampleRuns.

(** * Further properties *)

(** ** The normalizer: bounds and normal form *)

Module NormalizerMore.
Import Normalizer NormalizerFacts.

Lemma strip_tags_length (s : jstr) :
  (List.length (strip_tags s) <= List.length s)%nat /\
  (List.length (skip_tag s) <= List.length s)%nat.
Proof.
  induction s as [|c r [IHa IHb]]; [split; apply Nat.le_refl|].
  split.
  - cbn [strip_tags]. destruct ((c =? LT) && has_gt r); cbn [List.length]; lia.
  - cbn [skip_tag]. destruct (c =? GT); cbn [List.length]; lia.
Qed.

Lemma collapse_length (b : bool) (s : jstr) :
  (List.length (collapse_from b s) <= List.length s)%nat.
Proof.
  revert b. induction s as [|c r IH]; intros b; [apply Nat.le_refl|].
  cbn [collapse_from]. destruct (is_ws c); [destruct b|]; cbn [List.length].
  - specialize (IH true). lia.
  - specialize (IH true). lia.
  - specialize (IH false). lia.
Qed.

Lemma trimStart_length (s : jstr) :
  (List.length (trimStart s) <= List.length s)%nat.
Proof.
  induction s as [|c r IH]; [apply Nat.le_refl|].
  cbn [trimStart]. destruct (is_ws c); cbn [List.length] in *; lia.
Qed.

Lemma trimEnd_length (s : jstr) :
  (List.length (trimEnd s) <= List.length s)%nat.
Proof.
  induction s as [|c r IH]; [apply Nat.le_refl|].
  cbn [trimEnd]. destruct (trimEnd r); [destruct (is_ws c)|]; cbn [List.length] in *; lia.
Qed.

Lemma cleaned_length (s : jstr) :
  js_length (trim (collapse_ws (strip_tags s))) <= js_length s.
Proof.
  unfold js_length, trim, collapse_ws.
  pose proof (trimEnd_length (trimStart (collapse_from false (strip_tags s)))).
  pose proof (trimStart_length (collapse_from false (strip_tags s))).
  pose proof (collapse_length false (strip_tags s)).
  pose proof (proj1 (strip_tags_length s)). lia.
Qed.

(** The normalized text has at most 10,003 code units, and one longer
    than 10,000 consists of 10,000 code units followed by the marker. *)
Theorem normalize_length_bound (s : jstr) :
  js_length (normalize s) <= 10003 /\
  (MAX_CHARS < js_length (normalize s) ->
   exists p, normalize s = p ++ lit "..." /\ js_length p = 10000).
Proof.
  unfold normalize.
  set (z := trim (collapse_ws (strip_tags s))).
  destruct (N.le_gt_cases (js_length z) MAX_CHARS) as [Hle|Hgt].
  - rewrite (truncate_short z Hle). unfold MAX_CHARS in *. split; lia.
  - rewrite (truncate_long z Hgt).
    assert (js_length (substring0 MAX_CHARS z) = 10000) as L.
    { apply substring0_length. unfold MAX_CHARS in *. lia. }
    split.
    + rewrite js_length_app, L. unfold js_length. rewrite length_ELLIPSIS. lia.
    + intros _. exists (substring0 MAX_CHARS z). split; [reflexivity | exact L].
Qed.

(** A text of at most 10,000 code units is never truncated: its
    normalization is the words of the tag-free text joined by single
    spaces, and is no longer than the text. *)
Theorem normalize_short_input (s : jstr) :
  js_length s <= MAX_CHARS ->
  normalize s = unwords (words (strip_tags s)) /\
  js_length (normalize s) <= js_length s.
Proof.
  intros H. pose proof (cleaned_length s) as L.
  unfold normalize. rewrite truncate_short by lia.
  rewrite trim_collapse_words in *. split; [reflexivity | exact L].
Qed.

Lemma normalize_short_input_witness :
  normalize (lit "<p>a  b</p>") = unwords (words (strip_tags (lit "<p>a  b</p>"))) /\
  js_length (normalize (lit "<p>a  b</p>")) <= js_length (lit "<p>a  b</p>").
Proof.
  apply (normalize_short_input (lit "<p>a  b</p>")).
  apply N.leb_le. reflexivity.
Defined.

(** The normalized text contains no substring matching [<[^>]*>]. *)
Theorem normalize_has_no_tag (s : jstr) : tag_free (normalize s).
Proof. apply tagfree_b_sound, normalize_tagfree. Qed.

Lemma normalize_spaced (s : jstr) :
  spaced true (normalize s) = true /\ trimEnd (normalize s) = normalize s.
Proof.
  unfold normalize.
  set (z := trim (collapse_ws (strip_tags s))).
  assert (spaced true z = true) as Sz by apply trim_collapse_spaced.
  assert (trimEnd z = z) as Tz by apply trim_collapse_trimmed.
  unfold truncate. destruct (MAX_CHARS <? js_length z); [|split; assumption].
  split.
  - apply spaced_ellipsis, spaced_firstn. exact Sz.
  - apply trimEnd_app_fixed; [discriminate | apply trimEnd_ELLIPSIS].
Qed.

Lemma spaced_at (b0 : bool) (a : jstr) (c : N) (r : jstr) :
  spaced b0 (a ++ c :: r) = true ->
  is_ws c = true ->
  c = SP /\
  match rev a with
  | [] => b0 = false
  | x :: _ => is_ws x = false
  end /\
  match r with
  | [] => True
  | y :: _ => is_ws y = false
  end.
Proof.
  revert b0. induction a as [|x a IH]; intros b0 H W.
  - cbn [app spaced] in H. rewrite W in H.
    apply andb_true_iff in H as [H1 H3]. apply andb_true_iff in H1 as [H1 H2].
    apply N.eqb_eq in H1. apply negb_true_iff in H2.
    split; [exact H1|]. split; [exact H2|].
    destruct r as [|y r]; [exact I|]. cbn [spaced] in H3.
    destruct (is_ws y); [|reflexivity].
    rewrite andb_false_r in H3. discriminate.
  - cbn [app spaced] in H. cbn [rev].
    assert (forall b1, spaced b1 (a ++ c :: r) = true ->
                       (b1 = true \/ is_ws x = false) ->
                       c = SP /\
                       match rev a ++ [x] with
                       | [] => b0 = false
                       | x0 :: _ => is_ws x0 = false
                       end /\
                       match r with [] => True | y :: _ => is_ws y = false end) as K.
    { intros b1 Hs Hb. destruct (IH b1 Hs W) as (E1 & E2 & E3).
      split; [exact E1|]. split; [|exact E3].
      destruct (rev a) as [|x0 l]; [|exact E2].
      cbn [app]. destruct Hb as [Hb|Hb]; [congruence | exact Hb]. }
    destruct (is_ws x) eqn:Wx.
    + apply andb_true_iff in H as [_ H]. apply (K true H). left. reflexivity.
    + apply (K false H). right. reflexivity.
Qed.

Lemma trimEnd_drops_last (a : jstr) (c : N) :
  is_ws c = true -> trimEnd (a ++ [c]) = trimEnd a.
Proof.
  intros W. induction a as [|x a IH].
  - cbn [app trimEnd]. rewrite W. reflexivity.
  - cbn [app trimEnd]. rewrite IH. reflexivity.
Qed.

(** Every whitespace code unit of the normalized text is a single space
    standing between two non-whitespace code units: no other whitespace
    character survives, no two spaces are adjacent, and the text neither
    starts nor ends with one. *)
Theorem normalize_whitespace (s a : jstr) (c : N) (b : jstr) :
  normalize s = a ++ c :: b ->
  is_ws c = true ->
  c = SP /\
  (exists a' x, a = a' ++ [x] /\ is_ws x = false) /\
  (exists y b', b = y :: b' /\ is_ws y = false).
Proof.
  intros E W. destruct (normalize_spaced s) as [Hs Ht]. rewrite E in Hs, Ht.
  destruct (spaced_at true a c b Hs W) as (E1 & E2 & E3).
  split; [exact E1|]. split.
  - destruct (rev a) as [|x l] eqn:R; [discriminate E2|].
    exists (rev l), x. split; [|exact E2].
    rewrite <- (rev_involutive a), R. reflexivity.
  - destruct b as [|y b']; [|exists y, b'; split; [reflexivity | exact E3]].
    exfalso. rewrite (trimEnd_drops_last a c W) in Ht.
    pose proof (trimEnd_length a) as L. rewrite Ht in L.
    rewrite length_app in L. cbn [List.length] in L. lia.
Qed.

Lemma normalize_whitespace_witness :
  SP = SP /\
  (exists a' x, lit "a" = a' ++ [x] /\ is_ws x = false) /\
  (exists y b', lit "b" = y :: b' /\ is_ws y = false).
Proof.
  apply (normalize_whitespace
           ([9; 32] ++ lit "a" ++ [32; 10; 9] ++ lit "b" ++ [13; 10])
           (lit "a") SP (lit "b")).
  - vm_compute. reflexivity.
  - reflexivity.
Defined.

Lemma visible_collapse (b : bool) (x : jstr) :
  filter (fun c => negb (is_ws c)) (collapse_from b x)
  = filter (fun c => negb (is_ws c)) x.
Proof.
  revert b. induction x as [|c r IH]; intros b; [reflexivity|].
  cbn [collapse_from filter]. destruct (is_ws c) eqn:W; cbn [negb].
  - destruct b; cbn [filter]; rewrite ?is_ws_SP; cbn [negb]; apply IH.
  - cbn [filter]. rewrite W. cbn [negb]. f_equal. apply IH.
Qed.

Lemma visible_trimStart (x : jstr) :
  filter (fun c => negb (is_ws c)) (trimStart x)
  = filter (fun c => negb (is_ws c)) x.
Proof.
  induction x as [|c r IH]; [reflexivity|].
  cbn [trimStart]. destruct (is_ws c) eqn:W; [|reflexivity].
  cbn [filter]. rewrite W. exact IH.
Qed.

Lemma visible_trimEnd (x : jstr) :
  filter (fun c => negb (is_ws c)) (trimEnd x)
  = filter (fun c => negb (is_ws c)) x.
Proof.
  induction x as [|c r IH]; [reflexivity|].
  cbn [trimEnd filter]. destruct (trimEnd r) as [|d t] eqn:ET.
  - rewrite <- IH. destruct (is_ws c) eqn:W; cbn [filter negb]; [reflexivity|].
    rewrite W. reflexivity.
  - cbn [filter]. cbn [filter] in IH. rewrite IH. reflexivity.
Qed.

Lemma visible_cleaned (x : jstr) :
  filter (fun c => negb (is_ws c)) (trim (collapse_ws x))
  = filter (fun c => negb (is_ws c)) x.
Proof.
  unfold trim, collapse_ws.
  rewrite visible_trimEnd, visible_trimStart. apply visible_collapse.
Qed.

(** Collapsing whitespace and trimming neither drops nor reorders a
    non-whitespace code unit. *)
Theorem cleaning_keeps_visible (x : jstr) :
  filter (fun c => negb (is_ws c)) (trim (collapse_ws x))
  = filter (fun c => negb (is_ws c)) x.
Proof. exact (visible_cleaned x). Qed.

Lemma no_visible_all_ws (x : jstr) :
  filter (fun c => negb (is_ws c)) x = [] <-> forallb is_ws x = true.
Proof.
  induction x as [|c r IH]; [split; reflexivity|].
  cbn [filter forallb]. destruct (is_ws c); cbn [negb andb].
  - exact IH.
  - split; discriminate.
Qed.

(** The normalized text is empty exactly when nothing but whitespace is
    left once the tags are replaced. *)
Theorem normalize_empty_iff (s : jstr) :
  normalize s = [] <-> forallb is_ws (strip_tags s) = true.
Proof.
  rewrite <- no_visible_all_ws, <- visible_cleaned.
  unfold normalize.
  set (z := trim (collapse_ws (strip_tags s))).
  assert (spaced true z = true) as Sz by apply trim_collapse_spaced.
  split.
  - intros E. unfold truncate in E.
    destruct (MAX_CHARS <? js_length z).
    + apply app_eq_nil in E as [_ E]. discriminate E.
    + rewrite E. reflexivity.
  - intros E. destruct z as [|c r].
    + reflexivity.
    + exfalso. cbn [spaced filter] in Sz, E.
      destruct (is_ws c); cbn [negb andb] in Sz, E.
      * rewrite andb_false_r in Sz. discriminate Sz.
      * discriminate E.
Qed.

(** A text without ['<'], or without ['>'], passes tag stripping
    unchanged. *)
Theorem strip_tags_plain_text (s : jstr) :
  ~ In LT s \/ ~ In GT s -> strip_tags s = s.
Proof.
  intros [H|H]; apply tagfree_b_fixed.
  - rewrite <- (app_nil_r s). apply no_lt_tagfree; [exact H | reflexivity].
  - apply no_gt_tagfree. apply has_gt_false. exact H.
Qed.

Lemma strip_tags_plain_text_witness :
  strip_tags (lit "if a < b then c") = lit "if a < b then c".
Proof.
  apply (strip_tags_plain_text (lit "if a < b then c")).
  right. vm_compute. intuition discriminate.
Defined.

End NormalizerMore.

(** ** The [.env] file *)

Module StartupFacts.
Import Js Normalizer NormalizerFacts NormalizerMore Summarize Startup StringFacts.

Lemma split_cons (sep : N) (s : jstr) : exists w ws, split sep s = w :: ws.
Proof.
  destruct s as [|c r]; cbn [split]; [eauto|].
  destruct (c =? sep); [eauto|]. destruct (split sep r); eauto.
Qed.

Lemma split_whole (sep : N) (s : jstr) : ~ In sep s -> split sep s = [s].
Proof.
  induction s as [|c r IH]; intros H; [reflexivity|].
  cbn [split]. destruct (N.eqb_spec c sep) as [->|Hc].
  - exfalso. apply H. left. reflexivity.
  - rewrite IH; [reflexivity|]. intros Hin. apply H. right. exact Hin.
Qed.

Lemma split_app (sep : N) (a b : jstr) :
  split sep (a ++ sep :: b) = split sep a ++ split sep b.
Proof.
  induction a as [|c a IH].
  - cbn [app split]. rewrite N.eqb_refl. reflexivity.
  - cbn [app split]. destruct (c =? sep).
    + rewrite IH. reflexivity.
    + rewrite IH. destruct (split_cons sep a) as (w & ws & ->). reflexivity.
Qed.

Lemma split_at_sep (sep : N) (r : jstr) : split sep (sep :: r) = [] :: split sep r.
Proof. cbn [split]. rewrite N.eqb_refl. reflexivity. Qed.

Lemma split_pieces (sep : N) (s w : jstr) :
  In w (split sep s) -> ~ In sep w /\ (forall c, In c w -> In c s).
Proof.
  revert w. induction s as [|c r IH]; intros w H.
  - destruct H as [<-|[]]. split; [intros [] | trivial].
  - cbn [split] in H. destruct (N.eqb_spec c sep) as [->|Hc].
    + destruct H as [<-|H]; [split; [intros [] | intros ? []]|].
      destruct (IH w H) as [H1 H2]. split; [exact H1|].
      intros x Hx. right. apply H2. exact Hx.
    + destruct (split sep r) as [|w0 ws] eqn:E.
      * destruct H as [<-|[]]. split.
        -- intros [E1|[]]. congruence.
        -- intros x [<-|[]]. left. reflexivity.
      * destruct H as [<-|H].
        -- destruct (IH w0 (or_introl eq_refl)) as [H1 H2]. split.
           ++ intros [E1|E1]; [congruence | contradiction].
           ++ intros x [<-|Hx]; [left; reflexivity | right; apply H2; exact Hx].
        -- destruct (IH w (or_intror H)) as [H1 H2]. split; [exact H1|].
           intros x Hx. right. apply H2. exact Hx.
Qed.

(** Splitting loses nothing: the pieces joined by the separator give the
    text back. *)
Lemma split_join (sep : N) (s : jstr) :
  (fix join (l : list jstr) : jstr :=
     match l with
     | [] => []
     | [w] => w
     | w :: ws => w ++ sep :: join ws
     end) (split sep s) = s.
Proof.
  induction s as [|c r IH]; [reflexivity|].
  cbn [split]. destruct (N.eqb_spec c sep) as [->|Hc].
  - destruct (split_cons sep r) as (w & ws & E). rewrite E in *.
    cbn [app]. f_equal. exact IH.
  - destruct (split_cons sep r) as (w & ws & E). rewrite E in *.
    destruct ws; cbn [app]; f_equal; exact IH.
Qed.

Lemma starts_with_head (p : N) (a : jstr) (x : N) (r1 r2 : jstr) :
  starts_with [p] (a ++ x :: r1) = starts_with [p] (a ++ x :: r2).
Proof. destruct a; cbn [app starts_with]; rewrite !andb_true_r; reflexivity. Qed.

Lemma nonempty_true (w : jstr) : nonempty w = true <-> w <> [].
Proof. destruct w; cbn [nonempty]; split; congruence. Qed.

Ltac branches :=
  repeat match goal with
         | |- context [if ?b then _ else _] => destruct b
         end;
  reflexivity.

(** A line that is empty, starts with [#], has no [=], or has nothing
    before or right after its first [=], leaves [env] as it is. *)
Theorem read_line_ignored (env : Dict) (line : jstr) :
  line = [] \/
  starts_with [HASH] line = true \/
  ~ In EQUALS line \/
  (exists rest, line = EQUALS :: rest) \/
  (exists key, ~ In EQUALS key /\ line = key ++ [EQUALS]) \/
  (exists key rest, ~ In EQUALS key /\ line = key ++ EQUALS :: EQUALS :: rest) ->
  read_line env line = env.
Proof.
  unfold read_line.
  intros [->|[H|[H|[(rest & ->)|[(key & Hk & ->)|(key & rest & Hk & ->)]]]]].
  - reflexivity.
  - rewrite H, andb_false_r. reflexivity.
  - rewrite (split_whole EQUALS line H). branches.
  - rewrite split_at_sep.
    destruct (split_cons EQUALS rest) as (w & ws & ->). cbn [nonempty andb].
    branches.
  - rewrite split_app, (split_whole EQUALS key Hk). cbn [split app nonempty].
    rewrite andb_false_r. branches.
  - rewrite split_app, (split_whole EQUALS key Hk), split_at_sep.
    cbn [app nonempty]. rewrite andb_false_r. branches.
Qed.

Lemma read_line_ignored_witness :
  read_line [ (lit "PORT", lit "8080") ] (lit "# GEMINI_API_KEY=abc")
  = [ (lit "PORT", lit "8080") ].
Proof.
  apply (read_line_ignored [ (lit "PORT", lit "8080") ] (lit "# GEMINI_API_KEY=abc")).
  right. left. reflexivity.
Defined.

(** A line [key=value] sets the trimmed key to the trimmed value, and
    leaves every other name as it was. *)
Theorem read_line_assigns (env : Dict) (key value : jstr) :
  key <> [] -> starts_with [HASH] key = false -> ~ In EQUALS key ->
  value <> [] -> ~ In EQUALS value ->
  trim key <> lit "__proto__" ->
  lookup (trim key) (read_line env (key ++ EQUALS :: value)) = Some (trim value) /\
  (forall name, name <> trim key ->
     lookup name (read_line env (key ++ EQUALS :: value)) = lookup name env).
Proof.
  intros Hk Hh Hke Hv Hve Hp.
  assert (read_line env (key ++ EQUALS :: value) = (trim key, trim value) :: env) as E.
  { unfold read_line.
    rewrite split_app, (split_whole EQUALS key Hke), (split_whole EQUALS value Hve).
    cbn [app].
    replace (nonempty (key ++ EQUALS :: value)) with true
      by (destruct key; reflexivity).
    replace (starts_with [HASH] (key ++ EQUALS :: value)) with false.
    2:{ destruct key as [|c k]; [congruence|]. cbn [app starts_with] in *.
        symmetry. exact Hh. }
    cbn [negb andb].
    rewrite (proj2 (nonempty_true key) Hk), (proj2 (nonempty_true value) Hv).
    cbn [andb]. unfold assign. rewrite (str_eqb_neq _ _ Hp). reflexivity. }
  rewrite E. cbn [lookup]. rewrite str_eqb_refl. split; [reflexivity|].
  intros name Hn. rewrite (str_eqb_neq _ _ Hn). reflexivity.
Qed.

Lemma read_line_assigns_witness :
  lookup (trim (lit "PORT ")) (read_line [] (lit "PORT " ++ EQUALS :: lit " 8080"))
  = Some (trim (lit " 8080")) /\
  (forall name, name <> trim (lit "PORT ") ->
     lookup name (read_line [] (lit "PORT " ++ EQUALS :: lit " 8080")) = lookup name []).
Proof.
  apply (read_line_assigns [] (lit "PORT ") (lit " 8080")).
  - discriminate.
  - reflexivity.
  - vm_compute. intuition discriminate.
  - discriminate.
  - vm_compute. intuition discriminate.
  - vm_compute. discriminate.
Defined.

(** Only the text between the first and the second [=] is the value:
    whatever follows a second [=] is dropped. *)
Theorem read_line_cuts_at_second_equals (env : Dict) (key value rest : jstr) :
  ~ In EQUALS key -> ~ In EQUALS value ->
  read_line env (key ++ EQUALS :: value ++ EQUALS :: rest)
  = read_line env (key ++ EQUALS :: value).
Proof.
  intros Hk Hv. unfold read_line.
  rewrite (starts_with_head HASH key EQUALS (value ++ EQUALS :: rest) value).
  replace (nonempty (key ++ EQUALS :: value ++ EQUALS :: rest))
    with (nonempty (key ++ EQUALS :: value)) by (destruct key; reflexivity).
  rewrite !split_app, (split_whole EQUALS key Hk), (split_whole EQUALS value Hv).
  cbn [app]. reflexivity.
Qed.

Lemma read_line_cuts_at_second_equals_witness :
  read_line [] (lit "GEMINI_API_URL" ++ EQUALS :: lit "https://api.example/v1?alt"
                  ++ EQUALS :: lit "json")
  = read_line [] (lit "GEMINI_API_URL" ++ EQUALS :: lit "https://api.example/v1?alt").
Proof.
  apply (read_line_cuts_at_second_equals [] (lit "GEMINI_API_URL")
           (lit "https://api.example/v1?alt") (lit "json")).
  - vm_compute. intuition discriminate.
  - vm_compute. intuition discriminate.
Defined.

(** Reading a file with one more line is reading the file and then
    that line. *)
Theorem load_env_append (envFile line : jstr) :
  ~ In NEWLINE line ->
  load_env (envFile ++ NEWLINE :: line) = read_line (load_env envFile) line.
Proof.
  intros H. unfold load_env.
  rewrite split_app, (split_whole NEWLINE line H), fold_left_app. reflexivity.
Qed.

Lemma load_env_append_witness :
  load_env (lit "PORT=1" ++ NEWLINE :: lit "PORT=2")
  = read_line (load_env (lit "PORT=1")) (lit "PORT=2").
Proof.
  apply (load_env_append (lit "PORT=1") (lit "PORT=2")).
  vm_compute. intuition discriminate.
Defined.

Lemma trimStart_head (x : jstr) :
  trimStart x = [] \/ exists c r, trimStart x = c :: r /\ is_ws c = false.
Proof.
  induction x as [|c r IH]; [left; reflexivity|].
  cbn [trimStart]. destruct (is_ws c) eqn:W; [exact IH|].
  right. exists c, r. split; [reflexivity | exact W].
Qed.

Lemma trim_idem (x : jstr) : trim (trim x) = trim x.
Proof.
  unfold trim.
  destruct (trimStart_head x) as [E|(c & r & E & W)]; rewrite E.
  - reflexivity.
  - rewrite (trimEnd_cons_word c r W). cbn [trimStart]. rewrite W.
    rewrite <- (trimEnd_cons_word c r W). apply trimEnd_idem.
Qed.

Lemma In_trimStart (c : N) (x : jstr) : In c (trimStart x) -> In c x.
Proof.
  induction x as [|d r IH]; [trivial|].
  cbn [trimStart]. destruct (is_ws d); [|trivial]. intros H. right. apply IH. exact H.
Qed.

Lemma In_trimEnd (c : N) (x : jstr) : In c (trimEnd x) -> In c x.
Proof.
  induction x as [|d r IH]; [trivial|].
  cbn [trimEnd]. destruct (trimEnd r) as [|e t].
  - destruct (is_ws d); [intros [] | intros [<-|[]]; left; reflexivity].
  - intros [<-|H]; [left; reflexivity | right; apply IH; exact H].
Qed.

Lemma In_trim (c : N) (x : jstr) : In c (trim x) -> In c x.
Proof. intros H. apply In_trimStart, In_trimEnd. exact H. Qed.

(** Every name and value that ends up in [env] is trimmed and contains
    neither [=] nor a line break. *)
Theorem load_env_entries (envFile k v : jstr) :
  In (k, v) (load_env envFile) ->
  trim k = k /\ trim v = v /\
  ~ In EQUALS k /\ ~ In EQUALS v /\ ~ In NEWLINE k /\ ~ In NEWLINE v.
Proof.
  unfold load_env.
  set (Q := fun kv : jstr * jstr =>
              trim (fst kv) = fst kv /\ trim (snd kv) = snd kv /\
              ~ In EQUALS (fst kv) /\ ~ In EQUALS (snd kv) /\
              ~ In NEWLINE (fst kv) /\ ~ In NEWLINE (snd kv)).
  assert (forall lines env,
             (forall l, In l lines -> ~ In NEWLINE l) ->
             (forall kv, In kv env -> Q kv) ->
             forall kv, In kv (fold_left read_line lines env) -> Q kv) as K.
  { induction lines as [|line lines IH]; intros env Hl He; [exact He|].
    cbn [fold_left]. apply IH.
    - intros l Hin. apply Hl. right. exact Hin.
    - intros kv. unfold read_line.
      destruct (nonempty line && negb (starts_with [HASH] line)); [|apply He].
      destruct (split EQUALS line) as [|key [|value rest]] eqn:E; try apply He.
      destruct (nonempty key && nonempty value); [|apply He].
      unfold assign. destruct (str_eqb (trim key) (lit "__proto__")); [apply He|].
      intros [<-|Hin]; [|apply He; exact Hin].
      assert (In key (split EQUALS line)) as Ik by (rewrite E; left; reflexivity).
      assert (In value (split EQUALS line)) as Iv
        by (rewrite E; right; left; reflexivity).
      destruct (split_pieces EQUALS line key Ik) as [K1 K2].
      destruct (split_pieces EQUALS line value Iv) as [V1 V2].
      assert (~ In NEWLINE line) as Nl by (apply Hl; left; reflexivity).
      unfold Q. cbn [fst snd].
      split; [apply trim_idem|]. split; [apply trim_idem|].
      split; [intros H; apply K1, In_trim; exact H|].
      split; [intros H; apply V1, In_trim; exact H|].
      split; intros H; apply Nl; [apply K2 | apply V2]; apply In_trim; exact H. }
  intros H. apply (K (split NEWLINE envFile) [] ) in H.
  - exact H.
  - intros l Hin. apply (split_pieces NEWLINE envFile l Hin).
  - intros kv [].
Qed.

Lemma load_env_entries_witness :
  trim (lit "PORT") = lit "PORT" /\ trim (lit "8080") = lit "8080" /\
  ~ In EQUALS (lit "PORT") /\ ~ In EQUALS (lit "8080") /\
  ~ In NEWLINE (lit "PORT") /\ ~ In NEWLINE (lit "8080").
Proof.
  apply (load_env_entries (lit "# port" ++ [NEWLINE] ++ lit " PORT = 8080 ")
           (lit "PORT") (lit "8080")).
  vm_compute. left. reflexivity.
Defined.

Lemma startup_cases (envFile : jstr) :
  startup envFile =
  let env := load_env envFile in
  let PORT :=
    match stored (Some (match lookup (lit "PORT") env with
                        | Some (c :: p) => c :: p
                        | Some [] | None => lit "3000"
                        end)) with
    | c :: p => JStr (c :: p)
    | [] => JNum Literals.DEFAULT_PORT
    end in
  match stored (lookup (lit "GEMINI_API_KEY") env),
        stored (lookup (lit "GEMINI_API_URL") env) with
  | [], [] => Exit [ lit "GEMINI_API_KEY"; lit "GEMINI_API_URL" ]
  | [], _ :: _ => Exit [ lit "GEMINI_API_KEY" ]
  | _ :: _, [] => Exit [ lit "GEMINI_API_URL" ]
  | c :: k, d :: u =>
      Listening {| GEMINI_API_KEY := Some (c :: k); GEMINI_API_URL := Some (d :: u) |} PORT
  end.
Proof.
  unfold startup.
  destruct (stored (lookup (lit "GEMINI_API_KEY") (load_env envFile)));
    destruct (stored (lookup (lit "GEMINI_API_URL") (load_env envFile)));
    reflexivity.
Qed.

Lemma upto_nul_empty (s : jstr) :
  upto_nul s = [] <-> s = [] \/ exists r, s = NUL :: r.
Proof.
  destruct s as [|c r]; cbn [upto_nul].
  - split; [intros _; left; reflexivity | reflexivity].
  - destruct (N.eqb_spec c NUL) as [->|N].
    + split; [intros _; right; exists r; reflexivity | reflexivity].
    + split; [discriminate|].
      intros [E | (r' & E)]; [discriminate E|]. injection E as E _. contradiction.
Qed.

(** What is stored is empty exactly when the value assigned is a text
    that is empty or begins with NUL. *)
Lemma stored_empty (v : option jstr) :
  stored v = [] <-> exists s, v = Some s /\ (s = [] \/ exists r, s = NUL :: r).
Proof.
  unfold stored. destruct v as [s|].
  - rewrite upto_nul_empty. split.
    + intros H. exists s. split; [reflexivity | exact H].
    + intros (s' & E & H). injection E as <-. exact H.
  - split; [discriminate|]. intros (s & E & _). discriminate E.
Qed.

(** When start-up ends with the server listening, the credential and
    the endpoint it runs with are non-empty strings, and the port is a
    non-empty string or the number 3000. *)
Theorem startup_listening_configured (envFile : jstr) (env : Env) (port : JsVal) :
  startup envFile = Listening env port ->
  (exists c k, GEMINI_API_KEY env = Some (c :: k)) /\
  (exists c u, GEMINI_API_URL env = Some (c :: u)) /\
  ((exists c p, port = JStr (c :: p)) \/ port = JNum Literals.DEFAULT_PORT).
Proof.
  rewrite startup_cases. cbv zeta.
  destruct (stored (lookup (lit "GEMINI_API_KEY") _)) as [|c k];
    destruct (stored (lookup (lit "GEMINI_API_URL") _)) as [|d u]; try discriminate.
  intros E. injection E as <- <-. cbn [GEMINI_API_KEY GEMINI_API_URL].
  split; [eauto|]. split; [eauto|].
  destruct (stored (Some _)) as [|x p]; [right; reflexivity | left; eauto].
Qed.

Lemma startup_listening_configured_witness :
  (exists c k, GEMINI_API_KEY Sample.env = Some (c :: k)) /\
  (exists c u, GEMINI_API_URL Sample.env = Some (c :: u)) /\
  ((exists c p, JStr (lit "3000") = JStr (c :: p))
   \/ JStr (lit "3000") = JNum Literals.DEFAULT_PORT).
Proof.
  apply (startup_listening_configured
           (lit "GEMINI_API_KEY=k3y" ++ [NEWLINE]
            ++ lit "GEMINI_API_URL=https://api.example/v1/generate")
           Sample.env (JStr (lit "3000"))).
  vm_compute. reflexivity.
Defined.

(** Start-up exits exactly when the file gives one of the two required
    names a value that is empty or begins with NUL, which the environment of
    the process keeps as the empty text; a name the file does not set at
    all does not stop it. *)
Theorem startup_exits_iff (envFile : jstr) :
  (exists missing, startup envFile = Exit missing) <->
  (exists s, lookup (lit "GEMINI_API_KEY") (load_env envFile) = Some s /\
             (s = [] \/ exists r, s = NUL :: r)) \/
  (exists s, lookup (lit "GEMINI_API_URL") (load_env envFile) = Some s /\
             (s = [] \/ exists r, s = NUL :: r)).
Proof.
  rewrite startup_cases. cbv zeta. rewrite <- !stored_empty.
  destruct (stored (lookup (lit "GEMINI_API_KEY") _)) as [|c k];
    destruct (stored (lookup (lit "GEMINI_API_URL") _)) as [|d u]; split;
    try (intros _; eexists; reflexivity);
    try (intros _; left; reflexivity);
    try (intros _; right; reflexivity).
  - intros (m & E). discriminate E.
  - intros [E|E]; discriminate E.
Qed.

(** With no line for the credential in the file, and an endpoint that
    does not begin with NUL, the server starts; it uses the text
    [undefined] as its credential, and as its endpoint what the file gives
    up to the first NUL. *)
Theorem startup_without_key (envFile : jstr) (c : N) (u : jstr) :
  lookup (lit "GEMINI_API_KEY") (load_env envFile) = None ->
  lookup (lit "GEMINI_API_URL") (load_env envFile) = Some (c :: u) ->
  c <> NUL ->
  exists port,
    startup envFile
    = Listening {| GEMINI_API_KEY := Some (lit "undefined");
                   GEMINI_API_URL := Some (c :: upto_nul u) |} port.
Proof.
  intros Hk Hu Hc. rewrite startup_cases. cbv zeta. rewrite Hk, Hu.
  assert (stored (Some (c :: u)) = c :: upto_nul u) as ->.
  { unfold stored. cbn [upto_nul].
    destruct (N.eqb_spec c NUL) as [E|_]; [contradiction | reflexivity]. }
  assert (stored None = lit "undefined") as -> by reflexivity.
  eexists. reflexivity.
Qed.

Lemma startup_without_key_witness :
  exists port,
    startup (lit "GEMINI_API_URL=https://api.example/v1/generate")
    = Listening {| GEMINI_API_KEY := Some (lit "undefined");
                   GEMINI_API_URL :=
                     Some (104 :: upto_nul (lit "ttps://api.example/v1/generate")) |}
                port.
Proof.
  apply (startup_without_key (lit "GEMINI_API_URL=https://api.example/v1/generate")
           104 (lit "ttps://api.example/v1/generate")).
  - reflexivity.
  - reflexivity.
  - discriminate.
Defined.

(** A value made of whitespace only is stored as the empty string, and
    start-up then exits. *)
Example startup_blank_value :
  startup (lit "GEMINI_API_KEY= " ++ [NEWLINE] ++ lit "GEMINI_API_URL=https://a.example")
  = Exit [ lit "GEMINI_API_KEY" ].
Proof. vm_compute. reflexivity. Qed.

(** So is a value that begins with NUL. *)
Example startup_nul_value :
  startup (lit "GEMINI_API_KEY=" ++ [NUL] ++ lit "k3y" ++ [NEWLINE]
           ++ lit "GEMINI_API_URL=https://a.example")
  = Exit [ lit "GEMINI_API_KEY" ].
Proof. vm_compute. reflexivity. Qed.

(** A port that begins with NUL is stored empty, and the server listens
    on the number 3000; an endpoint is cut at its first NUL. *)
Example startup_nul_port :
  startup (lit "GEMINI_API_KEY=k3y" ++ [NEWLINE]
           ++ lit "GEMINI_API_URL=https://a.example" ++ [NUL] ++ lit "/v1" ++ [NEWLINE]
           ++ lit "PORT=" ++ [NUL] ++ lit "80")
  = Listening {| GEMINI_API_KEY := Some (lit "k3y");
                 GEMINI_API_URL := Some (lit "https://a.example") |}
              (JNum Literals.DEFAULT_PORT).
Proof. vm_compute. reflexivity. Qed.

End StartupFacts.

(** ** What the handler does on every path *)

Module HandlerPaths.
Import Js Net Normalizer Summarize Replies Calls StringFacts AsyncFacts RequestFacts.
Import HandlerFacts VariantFacts.

Section WithRuntime.
Context {rt : Runtime}.

Lemma fetch_call_trace (reply : NetOutcome) (target : JsVal) :
  snd (makeRequest reply target no_options JNull) = [fetch_call target].
Proof. reflexivity. Qed.

Lemma handler_api_call_trace (env : Env) (reply : NetOutcome) (key text : jstr) :
  snd (handler_gemini_call reply
         match GEMINI_API_URL env with
         | Some (c :: u) => c :: u
         | Some [] | None => DEFAULT_GEMINI_API_URL
         end key (PROMPT_INTRO ++ normalize text))
  = [handler_api_call env key text].
Proof. reflexivity. Qed.

(** The status a rejection of [makeRequest] is answered with is 500 or
    the status of the reply, which is then outside 200-299. *)
Lemma rejected_status (reply : NetOutcome) (err : JsError) (r : Response) :
  settle reply = inl err ->
  statusCode r =
    match err with
    | RejResponse st _ _ => if (st =? 0)%Z then 500%Z else st
    | RejRequest _ | Thrown _ => 500%Z
    end ->
  statusCode r = 500%Z \/
  exists hs d, reply = Responded (statusCode r) hs d /\ ~ (200 <= statusCode r < 300)%Z.
Proof.
  intros S E. pose proof (settle_rejected _ _ S) as R.
  destruct err as [st d hs | m | e]; [|left; exact E|left; exact E].
  destruct R as [-> N]. destruct (Z.eqb_spec st 0); [left; exact E|].
  right. rewrite E. exists hs, d. split; [reflexivity | exact N].
Qed.

End WithRuntime.

(** Every run of the handler, path by path: the calls made, and either
    the response with its headers and status, or the exception the handler
    ends with. *)
Lemma handler_runs (rt : Runtime) (env : Env)
    (fetchReply geminiReply : NetOutcome) (event : Event) :
  exists o t,
    handler env fetchReply geminiReply event = (o, t) /\
    (t = [] \/
     exists v target,
       httpMethod event = lit "POST" /\
       JSON_parse (body event) = inr v /\
       getField v (lit "url") = inr target /\
       truthy target = true /\
       (t = [fetch_call target] \/
        exists fetched text c k,
          settle fetchReply = inr fetched /\
          toString (data fetched) = inr text /\
          GEMINI_API_KEY env = Some (c :: k) /\
          t = [fetch_call target; handler_api_call env (c :: k) text])) /\
    match o with
    | inr r =>
        (res_headers r = cors_headers \/
         res_headers r = cors_headers ++ [ (lit "Content-Type", lit "application/json") ] /\
         statusCode r = 200%Z) /\
        (statusCode r = 204%Z \/ statusCode r = 405%Z \/ statusCode r = 400%Z \/
         statusCode r = 500%Z \/
         (exists hs d, (fetchReply = Responded (statusCode r) hs d \/
                        geminiReply = Responded (statusCode r) hs d) /\
                       ~ (200 <= statusCode r < 300)%Z) \/
         (statusCode r = 200%Z /\
          exists target answered summary,
            settle geminiReply = inr answered /\
            extract_summary (data answered) = inr summary /\
            res_body r = JSON_stringify
                           (JObj [ (lit "url", target); (lit "summary", summary) ]) /\
            List.length t = 2%nat))
    | inl e =>
        e = Thrown (TypeError (lit "Converting circular structure to JSON")) /\
        exists m,
          (fetchReply = Failed m /\ List.length t = 1%nat) \/
          (geminiReply = Failed m /\ List.length t = 2%nat)
    end.
Proof.
  destruct event as [m b]. cbn [httpMethod body].
  destruct (str_eqb m (lit "OPTIONS")) eqn:E1.
  { unfold handler. cbn [httpMethod]. rewrite E1.
    do 2 eexists. split; [reflexivity|]. cbn [res_headers statusCode].
    split; [left; reflexivity|]. split; [left; reflexivity|]. left. reflexivity. }
  destruct (str_eqb m (lit "POST")) eqn:E2.
  2:{ unfold handler. cbn [httpMethod]. rewrite E1, E2. cbn [negb].
      do 2 eexists. split; [reflexivity|]. cbn [res_headers statusCode].
      split; [left; reflexivity|]. split; [left; reflexivity|].
      right. left. reflexivity. }
  apply str_eqb_eq in E2. subst m. clear E1.
  rewrite handler_post.
  destruct (JSON_parse b) as [e|v] eqn:P.
  { rewrite bind_lift_inl, try_catch_throw, handler_catch_thrown.
    do 2 eexists. split; [reflexivity|].
    split; [left; reflexivity|]. split; [left; reflexivity|].
    do 3 right. left. reflexivity. }
  rewrite bind_lift_inr.
  destruct (getField v (lit "url")) as [e|target] eqn:F.
  { rewrite bind_lift_inl, try_catch_throw, handler_catch_thrown.
    do 2 eexists. split; [reflexivity|].
    split; [left; reflexivity|]. split; [left; reflexivity|].
    do 3 right. left. reflexivity. }
  rewrite bind_lift_inr.
  destruct (truthy target) eqn:T; cbn [negb].
  2:{ rewrite try_catch_ret.
      do 2 eexists. split; [reflexivity|].
      split; [left; reflexivity|]. split; [left; reflexivity|].
      do 2 right. left. reflexivity. }
  destruct (ToString target) as [e|shown] eqn:TS.
  { rewrite bind_lift_inl, try_catch_throw, handler_catch_thrown.
    do 2 eexists. split; [reflexivity|].
    split; [left; reflexivity|]. split; [left; reflexivity|].
    do 3 right. left. reflexivity. }
  rewrite bind_lift_inr.
  assert (forall t' : list OutReq,
             (t' = [fetch_call target] \/
              exists fetched text c k,
                settle fetchReply = inr fetched /\
                toString (data fetched) = inr text /\
                GEMINI_API_KEY env = Some (c :: k) /\
                t' = [fetch_call target; handler_api_call env (c :: k) text]) ->
             t' = [] \/
             exists v0 target0,
               lit "POST" = lit "POST" /\
               (inr v : NativeError + JsVal) = inr v0 /\
               getField v0 (lit "url") = inr target0 /\
               truthy target0 = true /\
               (t' = [fetch_call target0] \/
                exists fetched text c k,
                  settle fetchReply = inr fetched /\
                  toString (data fetched) = inr text /\
                  GEMINI_API_KEY env = Some (c :: k) /\
                  t' = [fetch_call target0; handler_api_call env (c :: k) text]))
    as Called.
  { intros t' H. right. exists v, target. repeat split; assumption. }
  destruct (settle fetchReply) as [err|fetched] eqn:Sf.
  { rewrite (bind_makeRequest_rejected _ _ _ _ _ _ Sf), try_catch_rejected.
    rewrite fetch_call_trace.
    destruct (handler_catch_status err) as [(r & -> & Hh & Hs) | (x & -> & ->)];
      cbn [fst snd ret throw app].
    - do 2 eexists. split; [reflexivity|].
      split; [apply Called; left; reflexivity|]. split; [left; exact Hh|].
      destruct (rejected_status fetchReply err r Sf Hs) as [E|(hs & d & E & N)].
      + do 3 right. left. exact E.
      + do 4 right. left. exists hs, d. split; [left; exact E | exact N].
    - do 2 eexists. split; [reflexivity|].
      split; [apply Called; left; reflexivity|]. split; [reflexivity|].
      exists x. left. split; [exact (settle_rejected _ _ Sf) | reflexivity]. }
  rewrite (bind_makeRequest_resolved _ _ _ _ _ _ Sf), fetch_call_trace.
  destruct (toString (data fetched)) as [e|text] eqn:TT.
  { rewrite bind_lift_inl. cbn [fst snd throw].
    rewrite try_catch_rejected, handler_catch_thrown. cbn [fst snd ret app].
    do 2 eexists. split; [reflexivity|].
    split; [apply Called; left; reflexivity|]. split; [left; reflexivity|].
    do 3 right. left. reflexivity. }
  rewrite bind_lift_inr.
  destruct (GEMINI_API_KEY env) as [[|c k]|] eqn:K.
  1,3: cbn [fst snd ret]; rewrite try_catch_resolved;
    do 2 eexists; (split; [reflexivity|]);
    (split; [apply Called; left; reflexivity|]); (split; [left; reflexivity|]);
    do 3 right; left; reflexivity.
  assert (forall prefix : list OutReq,
             prefix = [fetch_call target] ->
             prefix ++ [handler_api_call env (c :: k) text]
             = [fetch_call target; handler_api_call env (c :: k) text]) as Two
    by (intros ? ->; reflexivity).
  destruct (settle geminiReply) as [err|answered] eqn:Sg.
  { unfold handler_gemini_call.
    rewrite (bind_makeRequest_rejected _ _ _ _ _ _ Sg).
    cbn [fst snd]. rewrite try_catch_rejected.
    destruct (handler_catch_status err) as [(r & -> & Hh & Hs) | (x & -> & ->)];
      cbn [fst snd ret throw app].
    - do 2 eexists. split; [reflexivity|].
      split; [apply Called; right; exists fetched, text, c, k; repeat split; trivial|].
      split; [left; exact Hh|].
      destruct (rejected_status geminiReply err r Sg Hs) as [E|(hs & d & E & N)].
      + do 3 right. left. exact E.
      + do 4 right. left. exists hs, d. split; [right; exact E | exact N].
    - do 2 eexists. split; [reflexivity|].
      split; [apply Called; right; exists fetched, text, c, k; repeat split; trivial|].
      split; [reflexivity|].
      exists x. right. split; [exact (settle_rejected _ _ Sg) | reflexivity]. }
  unfold handler_gemini_call.
  rewrite (bind_makeRequest_resolved _ _ _ _ _ _ Sg).
  destruct (extract_summary (data answered)) as [e|summary] eqn:X.
  { rewrite bind_lift_inl. cbn [fst snd throw].
    rewrite try_catch_rejected, handler_catch_thrown. cbn [fst snd ret app].
    do 2 eexists. split; [reflexivity|].
    split; [apply Called; right; exists fetched, text, c, k; repeat split; trivial|].
    split; [left; reflexivity|].
    do 3 right. left. reflexivity. }
  rewrite bind_lift_inr. cbn [fst snd ret]. rewrite try_catch_resolved.
  cbn [app].
  do 2 eexists. split; [reflexivity|].
  split; [apply Called; right; exists fetched, text, c, k; repeat split; trivial|].
  split; [right; split; reflexivity|].
  do 5 right. split; [reflexivity|].
  exists target, answered, summary. repeat split; trivial.
Qed.


(** The calls the handler makes, whether it answers or not.  It makes
    none unless the body of a [POST] parses and has a truthy [url]; its
    first call is then the [GET] of that URL; and it calls the summarization
    API, by [POST] with the credential in the query string and the
    normalized text in the prompt, only after the fetch resolved and only
    when the credential is set. *)
Theorem handler_calls (rt : Runtime) (env : Env)
    (fetchReply geminiReply : NetOutcome) (event : Event) :
  exists t,
    snd (handler env fetchReply geminiReply event) = t /\
    (t = [] \/
     exists v target,
       httpMethod event = lit "POST" /\
       JSON_parse (body event) = inr v /\
       getField v (lit "url") = inr target /\
       truthy target = true /\
       (t = [ {| req_url := target; req_method := lit "GET"; req_headers := [];
                 req_payload := None |} ] \/
        exists fetched text c k,
          settle fetchReply = inr fetched /\
          toString (data fetched) = inr text /\
          GEMINI_API_KEY env = Some (c :: k) /\
          t = [ {| req_url := target; req_method := lit "GET"; req_headers := [];
                   req_payload := None |};
                {| req_url :=
                     JStr (match GEMINI_API_URL env with
                           | Some (x :: u) => x :: u
                           | Some [] | None => DEFAULT_GEMINI_API_URL
                           end ++ lit "?key=" ++ c :: k);
                   req_method := lit "POST";
                   req_headers := [ (lit "Content-Type", JStr (lit "application/json")) ];
                   req_payload :=
                     Some (JSON_stringify
                             (gemini_payload (PROMPT_INTRO ++ normalize text))) |} ])).
Proof.
  destruct (handler_runs rt env fetchReply geminiReply event)
    as (o & t & E & Ht & _).
  exists t. split; [rewrite E; reflexivity | exact Ht].
Qed.

(** When the handler answers, the status is 204, 405, 400 or 500, or the
    status outside 200-299 that the target or the summarization API replied
    with, or 200; and it is 200 only when two calls were made, the API's
    answer had the expected shape, and the body is [{url, summary}]. *)
Theorem handler_answer_statuses (rt : Runtime) (env : Env)
    (fetchReply geminiReply : NetOutcome) (event : Event)
    (r : Response) (t : list OutReq) :
  handler env fetchReply geminiReply event = (inr r, t) ->
  statusCode r = 204%Z \/ statusCode r = 405%Z \/ statusCode r = 400%Z \/
  statusCode r = 500%Z \/
  (exists hs d, (fetchReply = Responded (statusCode r) hs d \/
                 geminiReply = Responded (statusCode r) hs d) /\
                ~ (200 <= statusCode r < 300)%Z) \/
  (statusCode r = 200%Z /\
   exists target answered summary,
     settle geminiReply = inr answered /\
     extract_summary (data answered) = inr summary /\
     res_body r = JSON_stringify
                    (JObj [ (lit "url", target); (lit "summary", summary) ]) /\
     List.length t = 2%nat).
Proof.
  intros E.
  destruct (handler_runs rt env fetchReply geminiReply event)
    as (o & t' & E' & _ & Ho).
  rewrite E in E'. injection E' as <- <-. exact (proj2 Ho).
Qed.

Lemma handler_answer_statuses_witness :
  let r := {| statusCode := 404%Z;
              res_headers := cors_headers;
              res_body := JSON_stringify (Runtime := Sample.runtime)
                (JObj [ (lit "error", JStr (lit "Error processing request"));
                        (lit "details", JStr (lit "Not Found"));
                        (lit "message", JUndefined);
                        (lit "stack", JUndefined) ]) |} in
  let t := [ fetch_call (JStr (lit "http://example.com/missing")) ] in
  statusCode r = 204%Z \/ statusCode r = 405%Z \/ statusCode r = 400%Z \/
  statusCode r = 500%Z \/
  (exists hs d, (Sample.not_found = Responded (statusCode r) hs d \/
                 Sample.answer = Responded (statusCode r) hs d) /\
                ~ (200 <= statusCode r < 300)%Z) \/
  (statusCode r = 200%Z /\
   exists target answered summary,
     settle (rt := Sample.runtime) Sample.answer = inr answered /\
     extract_summary (rt := Sample.runtime) (data answered) = inr summary /\
     res_body r = JSON_stringify (Runtime := Sample.runtime)
                    (JObj [ (lit "url", target); (lit "summary", summary) ]) /\
     List.length t = 2%nat).
Proof.
  apply (handler_answer_statuses Sample.runtime Sample.env Sample.not_found
           Sample.answer
           (Sample.post (Sample.url_body (lit "http://example.com/missing")))).
  vm_compute. reflexivity.
Defined.

(** With the credential unset or empty, the handler still fetches the
    target; only then does it answer 500 with the configuration error, and
    the summarization API is not called. *)
Theorem handler_missing_credential (rt : Runtime) (env : Env)
    (fetchReply geminiReply : NetOutcome) (b : jstr) (v target : JsVal)
    (shown : jstr) (fetched : Resolved) (text : jstr) :
  GEMINI_API_KEY env = None \/ GEMINI_API_KEY env = Some [] ->
  JSON_parse b = inr v ->
  getField v (lit "url") = inr target ->
  truthy target = true ->
  ToString target = inr shown ->
  settle fetchReply = inr fetched ->
  toString (data fetched) = inr text ->
  handler env fetchReply geminiReply {| httpMethod := lit "POST"; body := b |}
  = (inr {| statusCode := 500%Z;
            res_headers := cors_headers;
            res_body := JSON_stringify
              (JObj [ (lit "error",
                       JStr (lit "GEMINI_API_KEY environment variable is not set")) ]) |},
     [ {| req_url := target; req_method := lit "GET"; req_headers := [];
          req_payload := None |} ]).
Proof.
  intros K P F T TS Sf TT.
  rewrite handler_post, P, bind_lift_inr, F, bind_lift_inr, T. cbn [negb].
  rewrite TS, bind_lift_inr, (bind_makeRequest_resolved _ _ _ _ _ _ Sf).
  rewrite TT, bind_lift_inr.
  destruct K as [-> | ->]; reflexivity.
Qed.

Lemma handler_missing_credential_witness :
  handler (rt := Sample.runtime)
    {| GEMINI_API_KEY := None; GEMINI_API_URL := None |}
    Sample.page Sample.answer
    {| httpMethod := lit "POST";
       body := Sample.url_body (lit "http://example.com/") |}
  = (inr {| statusCode := 500%Z;
            res_headers := cors_headers;
            res_body := JSON_stringify (Runtime := Sample.runtime)
              (JObj [ (lit "error",
                       JStr (lit "GEMINI_API_KEY environment variable is not set")) ]) |},
     [ {| req_url := JStr (lit "http://example.com/"); req_method := lit "GET";
          req_headers := []; req_payload := None |} ]).
Proof.
  apply (handler_missing_credential Sample.runtime
           {| GEMINI_API_KEY := None; GEMINI_API_URL := None |}
           Sample.page Sample.answer
           (Sample.url_body (lit "http://example.com/"))
           (JObj [ (lit "url", JStr (lit "http://example.com/")) ])
           (JStr (lit "http://example.com/"))
           (lit "http://example.com/")
           {| data := JStr (lit "<html><body>Hello <b>World</b></body></html>");
              status := 200%Z; headers := Sample.html_headers |}
           (lit "<html><body>Hello <b>World</b></body></html>")).
  - left. reflexivity.
  - reflexivity.
  - reflexivity.
  - reflexivity.
  - reflexivity.
  - reflexivity.
  - reflexivity.
Defined.

End HandlerPaths.

(** ** What the server does on every path *)

Module ServerPaths.
Import Js Net Normalizer Summarize Server Replies Calls.
Import StringFacts AsyncFacts RequestFacts HandlerFacts ServerFacts VariantFacts HandlerPaths.

Section WithRuntime.
Context {rt : Runtime}.

Lemma server_catch_answer (err : JsError) :
  exists r, server_catch cors_res err = ret r /\
    statusCode r = 500%Z /\
    res_headers r = res_headers (json_content cors_res).
Proof.
  destruct err as [st d hs | m | e]; eexists;
    (split; [reflexivity|]); split; reflexivity.
Qed.

Lemma server_api_call_trace (env : Env) (reply : NetOutcome) (text : jstr) :
  snd (server_gemini_call env reply text) = [server_api_call env text].
Proof. reflexivity. Qed.

End WithRuntime.

(** Every run of the server's callback, path by path: the calls made,
    and either the response, or the exception the callback ends with. *)
Lemma server_runs (rt : Runtime) (env : Env)
    (fetchReply geminiReply : NetOutcome) (req : Request) :
  exists o t,
    server env fetchReply geminiReply req = (o, t) /\
    (t = [] \/
     exists v0 target0,
       method req = lit "POST" /\
       url_pathname (url req) = inr (Some (lit "/summarize")) /\
       JSON_parse (req_body req) = inr v0 /\
       getField v0 (lit "url") = inr target0 /\
       truthy target0 = true /\
       (t = [fetch_call target0] \/
        exists fetched text,
          settle fetchReply = inr fetched /\
          toString (data fetched) = inr text /\
          t = [fetch_call target0; server_api_call env text])) /\
    match o with
    | inr r =>
        (res_headers r = res_headers cors_res /\ statusCode r = 204%Z /\
         res_body r = [] /\ method req = lit "OPTIONS" \/
         res_headers r = res_headers (json_content cors_res) /\
         method req <> lit "OPTIONS") /\
        (statusCode r = 200%Z \/ statusCode r = 204%Z \/ statusCode r = 400%Z \/
         statusCode r = 404%Z \/ statusCode r = 500%Z)
    | inl e =>
        exists x,
          e = Thrown x /\ url_pathname (url req) = inl x /\
          method req <> lit "OPTIONS" /\ t = []
    end.
Proof.
  destruct req as [m u b]. cbn [method url req_body].
  destruct (str_eqb m (lit "OPTIONS")) eqn:E1.
  { unfold server. cbn [method]. rewrite E1. apply str_eqb_eq in E1.
    do 2 eexists. split; [reflexivity|].
    split; [left; reflexivity|].
    split; [left; repeat split; exact E1 | right; left; reflexivity]. }
  assert (m <> lit "OPTIONS") as NO.
  { intros ->. rewrite str_eqb_refl in E1. discriminate. }
  destruct (url_pathname u) as [x|pathname] eqn:Hq.
  { unfold server. cbn [method url]. rewrite E1, Hq, bind_lift_inl.
    do 2 eexists. split; [reflexivity|].
    split; [left; reflexivity|].
    exists x. repeat split. exact NO. }
  assert (forall code v,
             (code = 200%Z \/ code = 400%Z \/ code = 404%Z) ->
             exists o t,
               (inr (json_reply code v), []) = (o, t) /\
               (t = [] \/
                exists v0 target0,
                  m = lit "POST" /\
                  (inr pathname : NativeError + option jstr) = inr (Some (lit "/summarize")) /\
                  JSON_parse b = inr v0 /\
                  getField v0 (lit "url") = inr target0 /\
                  truthy target0 = true /\
                  (t = [fetch_call target0] \/
                   exists fetched text,
                     settle fetchReply = inr fetched /\
                     toString (data fetched) = inr text /\
                     t = [fetch_call target0; server_api_call env text])) /\
               match o with
               | inr r =>
                   (res_headers r = res_headers cors_res /\ statusCode r = 204%Z /\
                    res_body r = [] /\ m = lit "OPTIONS" \/
                    res_headers r = res_headers (json_content cors_res) /\
                    m <> lit "OPTIONS") /\
                   (statusCode r = 200%Z \/ statusCode r = 204%Z \/ statusCode r = 400%Z \/
                    statusCode r = 404%Z \/ statusCode r = 500%Z)
               | inl e =>
                   exists x,
                     e = Thrown x /\ (inr pathname : NativeError + option jstr) = inl x /\
                     m <> lit "OPTIONS" /\ t = []
               end)
    as Plain.
  { intros code v Hc. do 2 eexists. split; [reflexivity|].
    split; [left; reflexivity|].
    split; [right; split; [reflexivity | exact NO]|].
    cbn [json_reply statusCode end_ json_content setHeader setStatus].
    destruct Hc as [-> | [-> | ->]]; auto. }
  destruct pathname as [q|].
  2:{ unfold server. cbn [method url]. rewrite E1, Hq, bind_lift_inr.
      cbn [andb]. apply (Plain 404%Z). auto. }
  destruct (str_eqb q (lit "/") && str_eqb m (lit "GET")) eqn:E2.
  { unfold server. cbn [method url]. rewrite E1, Hq, bind_lift_inr.
    cbv beta iota zeta. rewrite E2. apply (Plain 200%Z). auto. }
  destruct (str_eqb q (lit "/summarize") && str_eqb m (lit "POST")) eqn:E3.
  2:{ unfold server. cbn [method url]. rewrite E1, Hq, bind_lift_inr.
      cbv beta iota zeta. rewrite E2, E3. apply (Plain 404%Z). auto. }
  apply andb_true_iff in E3 as [A B]. apply str_eqb_eq in A, B. subst q m.
  clear E1 E2.
  rewrite (server_summarize env fetchReply geminiReply u b Hq).
  destruct (JSON_parse b) as [e|v] eqn:P.
  { rewrite try_catch_ret. apply (Plain 400%Z). auto. }
  assert (forall r, statusCode r = 500%Z ->
                    res_headers r = res_headers (json_content cors_res) ->
                    (res_headers r = res_headers cors_res /\ statusCode r = 204%Z /\
                     res_body r = [] /\ lit "POST" = lit "OPTIONS" \/
                     res_headers r = res_headers (json_content cors_res) /\
                     lit "POST" <> lit "OPTIONS") /\
                    (statusCode r = 200%Z \/ statusCode r = 204%Z \/
                     statusCode r = 400%Z \/ statusCode r = 404%Z \/
                     statusCode r = 500%Z)) as Failed500.
  { intros r Hs Hh. split; [right; split; [exact Hh | exact NO]|]. auto. }
  destruct (getField v (lit "url")) as [e|target] eqn:F.
  { rewrite bind_lift_inl, try_catch_throw.
    destruct (server_catch_answer (Thrown e)) as (r & -> & Hs & Hh).
    do 2 eexists. split; [reflexivity|].
    split; [left; reflexivity | exact (Failed500 r Hs Hh)]. }
  rewrite bind_lift_inr.
  destruct (truthy target) eqn:T; cbn [negb].
  2:{ rewrite try_catch_ret. apply (Plain 400%Z). auto. }
  destruct (ToString target) as [e|shown] eqn:TS.
  { rewrite bind_lift_inl, try_catch_throw.
    destruct (server_catch_answer (Thrown e)) as (r & -> & Hs & Hh).
    do 2 eexists. split; [reflexivity|].
    split; [left; reflexivity | exact (Failed500 r Hs Hh)]. }
  rewrite bind_lift_inr.
  assert (forall t : list OutReq,
             (t = [fetch_call target] \/
              exists fetched text,
                settle fetchReply = inr fetched /\
                toString (data fetched) = inr text /\
                t = [fetch_call target; server_api_call env text]) ->
             (t = [] \/
              exists v0 target0,
                lit "POST" = lit "POST" /\
                (inr (Some (lit "/summarize")) : NativeError + option jstr) = inr (Some (lit "/summarize")) /\
                (inr v : NativeError + JsVal) = inr v0 /\
                getField v0 (lit "url") = inr target0 /\
                truthy target0 = true /\
                (t = [fetch_call target0] \/
                 exists fetched text,
                   settle fetchReply = inr fetched /\
                   toString (data fetched) = inr text /\
                   t = [fetch_call target0; server_api_call env text])))
    as Called.
  { intros t' H. right. exists v, target. repeat split; assumption. }
  destruct (settle fetchReply) as [err|fetched] eqn:Sf.
  { rewrite (bind_makeRequest_rejected _ _ _ _ _ _ Sf), try_catch_rejected.
    rewrite fetch_call_trace.
    destruct (server_catch_answer err) as (r & -> & Hs & Hh).
    cbn [fst snd ret app].
    do 2 eexists. split; [reflexivity|].
    split; [apply Called; left; reflexivity | exact (Failed500 r Hs Hh)]. }
  rewrite (bind_makeRequest_resolved _ _ _ _ _ _ Sf), fetch_call_trace.
  destruct (toString (data fetched)) as [e|text] eqn:TT.
  { rewrite bind_lift_inl. cbn [fst snd throw]. rewrite try_catch_rejected.
    destruct (server_catch_answer (Thrown e)) as (r & -> & Hs & Hh).
    cbn [fst snd ret app].
    do 2 eexists. split; [reflexivity|].
    split; [apply Called; left; reflexivity | exact (Failed500 r Hs Hh)]. }
  rewrite bind_lift_inr.
  destruct (settle geminiReply) as [err|answered] eqn:Sg.
  { unfold server_gemini_call.
    rewrite (bind_makeRequest_rejected _ _ _ _ _ _ Sg).
    cbn [fst snd]. rewrite try_catch_rejected.
    destruct (server_catch_answer err) as (r & -> & Hs & Hh).
    cbn [fst snd ret app].
    do 2 eexists. split; [reflexivity|].
    split; [|exact (Failed500 r Hs Hh)].
    apply Called. right. exists fetched, text. repeat split; trivial. }
  unfold server_gemini_call.
  rewrite (bind_makeRequest_resolved _ _ _ _ _ _ Sg).
  destruct (extract_summary (data answered)) as [e|summary] eqn:X.
  { rewrite bind_lift_inl. cbn [fst snd throw]. rewrite try_catch_rejected.
    destruct (server_catch_answer (Thrown e)) as (r & -> & Hs & Hh).
    cbn [fst snd ret app].
    do 2 eexists. split; [reflexivity|].
    split; [|exact (Failed500 r Hs Hh)].
    apply Called. right. exists fetched, text. repeat split; trivial. }
  rewrite bind_lift_inr. cbn [fst snd ret]. rewrite try_catch_resolved.
  cbn [app].
  do 2 eexists. split; [reflexivity|].
  split; [apply Called; right; exists fetched, text; repeat split; trivial|].
  split; [right; split; [reflexivity | exact NO] | left; reflexivity].
Qed.


(** The calls the server makes, whether it answers or not.  It makes
    none unless the request is a [POST] on [/summarize] whose body parses
    and has a truthy [url]; its first call is then the [GET] of that URL;
    and it calls the summarization API only after the fetch resolved: by
    [POST] to the configured endpoint as it is, with the credential in the
    header [x-goog-api-key] and the fetched text, not normalized, in the
    prompt. *)
Theorem server_calls (rt : Runtime) (env : Env)
    (fetchReply geminiReply : NetOutcome) (req : Request) :
  exists t,
    snd (server env fetchReply geminiReply req) = t /\
    (t = [] \/
     exists v target,
       method req = lit "POST" /\
       url_pathname (url req) = inr (Some (lit "/summarize")) /\
       JSON_parse (req_body req) = inr v /\
       getField v (lit "url") = inr target /\
       truthy target = true /\
       (t = [ {| req_url := target; req_method := lit "GET"; req_headers := [];
                 req_payload := None |} ] \/
        exists fetched text,
          settle fetchReply = inr fetched /\
          toString (data fetched) = inr text /\
          t = [ {| req_url := target; req_method := lit "GET"; req_headers := [];
                   req_payload := None |};
                {| req_url := env_val (GEMINI_API_URL env);
                   req_method := lit "POST";
                   req_headers :=
                     [ (lit "Content-Type", JStr (lit "application/json"));
                       (lit "x-goog-api-key", env_val (GEMINI_API_KEY env)) ];
                   req_payload :=
                     Some (JSON_stringify (gemini_payload (PROMPT_INTRO ++ text))) |} ])).
Proof.
  destruct (server_runs rt env fetchReply geminiReply req)
    as (o & t & E & Ht & _).
  exists t. split; [rewrite E; reflexivity | exact Ht].
Qed.

(** A preflight request is answered 204 with an empty body and the CORS
    headers by both entry points, whatever its path and body, and without
    any outbound call. *)
Theorem preflight_answered_204 (rt : Runtime) (env : Env)
    (fetchReply geminiReply : NetOutcome) (b u : jstr) :
  handler env fetchReply geminiReply {| httpMethod := lit "OPTIONS"; body := b |}
  = (inr {| statusCode := 204%Z;
            res_headers :=
              [ (lit "Access-Control-Allow-Origin", lit "*");
                (lit "Access-Control-Allow-Headers", lit "Content-Type");
                (lit "Access-Control-Allow-Methods", lit "POST, OPTIONS") ];
            res_body := [] |}, [])
  /\
  server env fetchReply geminiReply
    {| method := lit "OPTIONS"; url := u; req_body := b |}
  = (inr {| statusCode := 204%Z;
            res_headers :=
              [ (lit "Access-Control-Allow-Origin", lit "*");
                (lit "Access-Control-Allow-Methods", lit "GET, POST, OPTIONS");
                (lit "Access-Control-Allow-Headers", lit "Content-Type") ];
            res_body := [] |}, []).
Proof. split; reflexivity. Qed.

(** [GET] on the path [/] is answered 200 with the welcome document,
    announced as JSON, whatever the body and without any outbound call. *)
Theorem server_welcome (rt : Runtime) (env : Env)
    (fetchReply geminiReply : NetOutcome) (u b : jstr) :
  url_pathname u = inr (Some (lit "/")) ->
  exists r,
    server env fetchReply geminiReply {| method := lit "GET"; url := u; req_body := b |}
    = (inr r, []) /\
    statusCode r = 200%Z /\
    lookup (lit "Content-Type") (res_headers r) = Some (lit "application/json") /\
    res_body r = JSON_stringify
      (JObj [ (lit "message", JStr (lit "Welcome to the URL Summarizer API"));
              (lit "endpoints",
               JObj [ (lit "summarize",
                       JStr (lit "POST /summarize with {" ++ [QUOTE] ++ lit "url"
                             ++ [QUOTE] ++ lit ": " ++ [QUOTE]
                             ++ lit "https://example.com" ++ [QUOTE] ++ lit "}")) ]) ]).
Proof.
  intros H. unfold server. cbn [method url]. rewrite H, bind_lift_inr.
  eexists. split; [reflexivity|]. repeat split.
Qed.

Lemma server_welcome_witness :
  exists r,
    server (rt := Sample.runtime) Sample.env Sample.page Sample.answer
      {| method := lit "GET"; url := lit "/?x=1"; req_body := lit "ignored" |}
    = (inr r, []) /\
    statusCode r = 200%Z /\
    lookup (lit "Content-Type") (res_headers r) = Some (lit "application/json") /\
    res_body r = JSON_stringify (Runtime := Sample.runtime)
      (JObj [ (lit "message", JStr (lit "Welcome to the URL Summarizer API"));
              (lit "endpoints",
               JObj [ (lit "summarize",
                       JStr (lit "POST /summarize with {" ++ [QUOTE] ++ lit "url"
                             ++ [QUOTE] ++ lit ": " ++ [QUOTE]
                             ++ lit "https://example.com" ++ [QUOTE] ++ lit "}")) ]) ]).
Proof.
  apply (server_welcome Sample.runtime Sample.env Sample.page Sample.answer
           (lit "/?x=1") (lit "ignored")).
  reflexivity.
Defined.

End ServerPaths.

(** ** What is fetched and what is extracted *)

Module ContentFacts.
Import Js Net Normalizer Summarize Server Replies Calls.
Import StringFacts AsyncFacts RequestFacts HandlerFacts ServerFacts VariantFacts.
Import HandlerPaths ServerPaths.

Lemma starts_with_prefix (p s : jstr) :
  starts_with p s = true <-> exists rest, s = p ++ rest.
Proof.
  revert s. induction p as [|x p IH]; intros s.
  - split; [intros _; exists s; reflexivity | reflexivity].
  - destruct s as [|y s]; cbn [starts_with].
    + split; [discriminate | intros (rest & E); discriminate E].
    + rewrite andb_true_iff, N.eqb_eq, IH. split.
      * intros [-> (rest & ->)]. exists rest. reflexivity.
      * intros (rest & E). injection E as -> ->. split; [reflexivity | eauto].
Qed.

(** [includes] is the substring test. *)
Lemma includes_substring (needle hay : jstr) :
  includes needle hay = true <-> exists a b, hay = a ++ needle ++ b.
Proof.
  induction hay as [|c hay IH].
  - cbn [includes]. rewrite orb_false_r, starts_with_prefix. split.
    + intros (rest & E). exists [], rest. exact E.
    + intros (a & b & E). destruct a as [|x a]; [|discriminate E].
      exists b. exact E.
  - cbn [includes]. rewrite orb_true_iff, starts_with_prefix, IH. split.
    + intros [(rest & E)|(a & b & E)].
      * exists [], rest. exact E.
      * exists (c :: a), b. rewrite E. reflexivity.
    + intros (a & b & E). destruct a as [|x a].
      * left. exists b. exact E.
      * right. injection E as -> E. exists a, b. exact E.
Qed.

(** The [data] of a 2xx response is the parsed document exactly when
    the [content-type] header has [application/json] somewhere in its value
    and the body parses; in every other case it is the body as text. *)
Theorem resolved_data (rt : Runtime) (st : Z) (hs : Headers) (d : jstr) :
  (200 <= st < 300)%Z ->
  exists r,
    settle (Responded st hs d) = inr r /\ status r = st /\ headers r = hs /\
    ((exists contentType a b v,
        lookup (lit "content-type") hs = Some contentType /\
        contentType = a ++ lit "application/json" ++ b /\
        JSON_parse d = inr v /\ data r = v)
     \/
     ((lookup (lit "content-type") hs = None \/
       (exists contentType,
          lookup (lit "content-type") hs = Some contentType /\
          ~ exists a b, contentType = a ++ lit "application/json" ++ b) \/
       (exists e, JSON_parse d = inl e)) /\
      data r = JStr d)).
Proof.
  intros H. cbn [settle].
  replace ((200 <=? st) && (st <? 300))%Z with true by lia.
  destruct (lookup (lit "content-type") hs) as [ct|] eqn:L.
  - destruct (includes (lit "application/json") ct) eqn:I.
    + destruct (JSON_parse d) as [e|v] eqn:P.
      * eexists. split; [reflexivity|]. repeat split.
        right. split; [|reflexivity]. right. right. exists e. reflexivity.
      * eexists. split; [reflexivity|]. repeat split.
        left. apply includes_substring in I as (a & b & E).
        exists ct, a, b, v. repeat split; trivial.
    + eexists. split; [reflexivity|]. repeat split.
      right. split; [|reflexivity]. right. left. exists ct.
      split; [reflexivity|]. intros E. apply includes_substring in E. congruence.
  - replace (includes (lit "application/json") []) with false by reflexivity.
    eexists. split; [reflexivity|]. repeat split.
    right. split; [|reflexivity]. left. reflexivity.
Qed.

Lemma resolved_data_witness :
  exists r,
    settle (rt := Sample.runtime) (Responded 200%Z Sample.json_headers (lit "{}")) = inr r /\
    status r = 200%Z /\ headers r = Sample.json_headers /\
    ((exists contentType a b v,
        lookup (lit "content-type") Sample.json_headers = Some contentType /\
        contentType = a ++ lit "application/json" ++ b /\
        JSON_parse (Runtime := Sample.runtime) (lit "{}") = inr v /\ data r = v)
     \/
     ((lookup (lit "content-type") Sample.json_headers = None \/
       (exists contentType,
          lookup (lit "content-type") Sample.json_headers = Some contentType /\
          ~ exists a b, contentType = a ++ lit "application/json" ++ b) \/
       (exists e, JSON_parse (Runtime := Sample.runtime) (lit "{}") = inl e)) /\
      data r = JStr (lit "{}"))).
Proof.
  apply (resolved_data Sample.runtime 200%Z Sample.json_headers (lit "{}")).
  lia.
Defined.

(** The summary is the [text] of the first part of the first candidate;
    further candidates, further parts and other fields play no role, and a
    first part without [text] gives [undefined]. *)
Theorem extract_summary_first (rt : Runtime)
    (answer candidate content part : list (jstr * JsVal))
    (candidates parts : list JsVal) :
  lookup (lit "candidates") answer = Some (JArr (JObj candidate :: candidates)) ->
  lookup (lit "content") candidate = Some (JObj content) ->
  lookup (lit "parts") content = Some (JArr (JObj part :: parts)) ->
  extract_summary (JObj answer)
  = inr match lookup (lit "text") part with
        | Some t => t
        | None => JUndefined
        end.
Proof.
  intros H1 H2 H3. unfold extract_summary. cbn [getField index0].
  rewrite H1. cbn [getField index0]. rewrite H2. cbn [getField index0].
  rewrite H3. cbn [getField index0].
  destruct (lookup (lit "text") part); reflexivity.
Qed.

Lemma extract_summary_first_witness :
  extract_summary (rt := Sample.runtime)
    (JObj [ (lit "candidates",
             JArr [ JObj [ (lit "content",
                            JObj [ (lit "parts",
                                    JArr [ JObj [ (lit "text", JStr (lit "One.")) ];
                                           JObj [ (lit "text", JStr (lit "Two.")) ] ]) ]) ];
                    JObj [] ]) ])
  = inr match lookup (lit "text") [ (lit "text", JStr (lit "One.")) ] with
        | Some t => t
        | None => JUndefined
        end.
Proof.
  apply (extract_summary_first Sample.runtime
           [ (lit "candidates",
              JArr [ JObj [ (lit "content",
                             JObj [ (lit "parts",
                                     JArr [ JObj [ (lit "text", JStr (lit "One.")) ];
                                            JObj [ (lit "text", JStr (lit "Two.")) ] ]) ]) ];
                     JObj [] ]) ]
           [ (lit "content",
              JObj [ (lit "parts",
                      JArr [ JObj [ (lit "text", JStr (lit "One.")) ];
                             JObj [ (lit "text", JStr (lit "Two.")) ] ]) ]) ]
           [ (lit "parts",
              JArr [ JObj [ (lit "text", JStr (lit "One.")) ];
                     JObj [ (lit "text", JStr (lit "Two.")) ] ]) ]
           [ (lit "text", JStr (lit "One.")) ]
           [ JObj [] ]
           [ JObj [ (lit "text", JStr (lit "Two.")) ] ]).
  - reflexivity.
  - reflexivity.
  - reflexivity.
Defined.

(** An answer that is not an object with candidates - a text, a document
    without the field [candidates], or one whose [candidates] is empty -
    makes the extraction throw. *)
Theorem extract_summary_no_candidates (rt : Runtime) (d : JsVal) :
  (exists s, d = JStr s) \/
  (exists answer, d = JObj answer /\
     (lookup (lit "candidates") answer = None \/
      lookup (lit "candidates") answer = Some (JArr []))) ->
  exists e, extract_summary d = inl e.
Proof.
  intros [(s & ->)|(answer & -> & [H|H])]; unfold extract_summary;
    cbn [getField index0]; rewrite ?H; cbn [getField index0];
    eexists; reflexivity.
Qed.

Lemma extract_summary_no_candidates_witness :
  exists e,
    extract_summary (rt := Sample.runtime)
      (JObj [ (lit "candidates", JArr []) ]) = inl e.
Proof.
  apply (extract_summary_no_candidates Sample.runtime
           (JObj [ (lit "candidates", JArr []) ])).
  right. exists [ (lit "candidates", JArr []) ]. split; [reflexivity|].
  right. reflexivity.
Defined.

Section Reaching.
Context {rt : Runtime}.
Variables (env : Env) (fetchReply geminiReply : NetOutcome).

Lemma handler_trace_after_fetch (b : jstr) (v target : JsVal) (shown : jstr)
    (fetched : Resolved) (text : jstr) (c : N) (k : jstr) :
  JSON_parse b = inr v ->
  getField v (lit "url") = inr target ->
  truthy target = true ->
  ToString target = inr shown ->
  settle fetchReply = inr fetched ->
  toString (data fetched) = inr text ->
  GEMINI_API_KEY env = Some (c :: k) ->
  snd (handler env fetchReply geminiReply {| httpMethod := lit "POST"; body := b |})
  = [fetch_call target; handler_api_call env (c :: k) text].
Proof.
  intros P F T TS Sf TT K.
  rewrite handler_post, P, bind_lift_inr, F, bind_lift_inr, T. cbn [negb].
  rewrite TS, bind_lift_inr, (bind_makeRequest_resolved _ _ _ _ _ _ Sf).
  rewrite TT, bind_lift_inr, K. unfold handler_gemini_call.
  destruct (settle geminiReply) as [err|answered] eqn:Sg.
  - rewrite (bind_makeRequest_rejected _ _ _ _ _ _ Sg). cbn [fst snd].
    rewrite try_catch_rejected.
    rewrite handler_catch_trace. reflexivity.
  - rewrite (bind_makeRequest_resolved _ _ _ _ _ _ Sg).
    destruct (extract_summary (data answered)) as [e|summary].
    + rewrite bind_lift_inl. cbn [fst snd throw].
      rewrite try_catch_rejected, handler_catch_thrown. reflexivity.
    + rewrite bind_lift_inr. reflexivity.
Qed.

Lemma server_trace_after_fetch (u b : jstr) (v target : JsVal) (shown : jstr)
    (fetched : Resolved) (text : jstr) :
  url_pathname u = inr (Some (lit "/summarize")) ->
  JSON_parse b = inr v ->
  getField v (lit "url") = inr target ->
  truthy target = true ->
  ToString target = inr shown ->
  settle fetchReply = inr fetched ->
  toString (data fetched) = inr text ->
  snd (server env fetchReply geminiReply
         {| method := lit "POST"; url := u; req_body := b |})
  = [fetch_call target; server_api_call env text].
Proof.
  intros H P F T TS Sf TT.
  rewrite (server_summarize env fetchReply geminiReply u b H), P, F, bind_lift_inr, T.
  cbn [negb].
  rewrite TS, bind_lift_inr, (bind_makeRequest_resolved _ _ _ _ _ _ Sf).
  rewrite TT, bind_lift_inr. unfold server_gemini_call.
  destruct (settle geminiReply) as [err|answered] eqn:Sg.
  - rewrite (bind_makeRequest_rejected _ _ _ _ _ _ Sg). cbn [fst snd].
    rewrite try_catch_rejected.
    destruct (server_catch_answer err) as (r & -> & _). reflexivity.
  - rewrite (bind_makeRequest_resolved _ _ _ _ _ _ Sg).
    destruct (extract_summary (data answered)) as [e|summary].
    + rewrite bind_lift_inl. cbn [fst snd throw].
      rewrite try_catch_rejected.
      destruct (server_catch_answer (Thrown e)) as (r & -> & _). reflexivity.
    + rewrite bind_lift_inr. reflexivity.
Qed.

End Reaching.

(** When the target answers with a JSON document that is an object, the
    text both entry points put in the prompt is [[object Object]]: nothing
    of the document reaches the summarization API. *)
Theorem object_document_is_lost (rt : Runtime) (env : Env)
    (geminiReply : NetOutcome) (u b : jstr) (v target : JsVal) (shown : jstr)
    (st : Z) (hs : Headers) (contentType d : jstr)
    (document : list (jstr * JsVal)) (c : N) (k : jstr) :
  url_pathname u = inr (Some (lit "/summarize")) ->
  JSON_parse b = inr v ->
  getField v (lit "url") = inr target ->
  truthy target = true ->
  ToString target = inr shown ->
  (200 <= st < 300)%Z ->
  lookup (lit "content-type") hs = Some contentType ->
  includes (lit "application/json") contentType = true ->
  JSON_parse d = inr (JObj document) ->
  lookup (lit "toString") document = None ->
  GEMINI_API_KEY env = Some (c :: k) ->
  List.map req_payload
    (snd (handler env (Responded st hs d) geminiReply
            {| httpMethod := lit "POST"; body := b |}))
  = [ None;
      Some (JSON_stringify (gemini_payload (PROMPT_INTRO ++ lit "[object Object]"))) ]
  /\
  List.map req_payload
    (snd (server env (Responded st hs d) geminiReply
            {| method := lit "POST"; url := u; req_body := b |}))
  = [ None;
      Some (JSON_stringify (gemini_payload (PROMPT_INTRO ++ lit "[object Object]"))) ].
Proof.
  intros H P F T TS Hst Hct Hinc Pd Hts K.
  assert (settle (Responded st hs d)
          = inr {| data := JObj document; status := st; headers := hs |}) as Sf.
  { cbn [settle]. replace ((200 <=? st) && (st <? 300))%Z with true by lia.
    rewrite Hct, Hinc, Pd. reflexivity. }
  assert (toString (JObj document) = inr (lit "[object Object]")) as TT.
  { cbn [toString ToString]. unfold has_own. rewrite Hts. reflexivity. }
  split.
  - rewrite (handler_trace_after_fetch env _ geminiReply b v target shown _ _ c k
               P F T TS Sf TT K).
    reflexivity.
  - rewrite (server_trace_after_fetch env _ geminiReply u b v target shown _ _
               H P F T TS Sf TT).
    reflexivity.
Qed.

Lemma object_document_is_lost_witness :
  List.map req_payload
    (snd (handler (rt := Sample.runtime) Sample.env
            (Responded 200%Z Sample.json_headers (lit "{}")) Sample.answer
            {| httpMethod := lit "POST";
               body := Sample.url_body (lit "http://example.com/data.json") |}))
  = [ None;
      Some (JSON_stringify (Runtime := Sample.runtime)
              (gemini_payload (PROMPT_INTRO ++ lit "[object Object]"))) ]
  /\
  List.map req_payload
    (snd (server (rt := Sample.runtime) Sample.env
            (Responded 200%Z Sample.json_headers (lit "{}")) Sample.answer
            {| method := lit "POST"; url := lit "/summarize";
               req_body := Sample.url_body (lit "http://example.com/data.json") |}))
  = [ None;
      Some (JSON_stringify (Runtime := Sample.runtime)
              (gemini_payload (PROMPT_INTRO ++ lit "[object Object]"))) ].
Proof.
  apply (object_document_is_lost Sample.runtime Sample.env Sample.answer
           (lit "/summarize") (Sample.url_body (lit "http://example.com/data.json"))
           (JObj [ (lit "url", JStr (lit "http://example.com/data.json")) ])
           (JStr (lit "http://example.com/data.json"))
           (lit "http://example.com/data.json")
           200%Z Sample.json_headers (lit "application/json; charset=utf-8")
           (lit "{}") [] 107 (lit "3y")).
  - reflexivity.
  - reflexivity.
  - reflexivity.
  - reflexivity.
  - reflexivity.
  - lia.
  - reflexivity.
  - reflexivity.
  - reflexivity.
  - reflexivity.
  - reflexivity.
Defined.

End ContentFacts.

(** ** The page's submit handler *)

Module ClientFacts.
Import Js Net Normalizer NormalizerFacts Summarize Replies Calls Client.
Import StringFacts AsyncFacts RequestFacts HandlerFacts VariantFacts.

Lemma blank_trimStart (value : jstr) :
  forallb is_ws value = true -> trimStart value = [].
Proof.
  induction value as [|c r IH]; [reflexivity|].
  cbn [forallb trimStart]. intros H. apply andb_true_iff in H as [W H].
  rewrite W. apply IH. exact H.
Qed.

(** A value that is empty or all whitespace is refused on the page:
    nothing is sent, the message asking for a URL is shown, and nothing
    else on the page changes (a result shown earlier stays). *)
Theorem blank_input_sends_nothing (rt : Runtime) (dom : Browser)
    (value : jstr) (reply : Fetched) (p : Page) :
  forallb is_ws value = true ->
  on_submit value reply p
  = ({| loading_shown := loading_shown p;
        result_shown := result_shown p;
        error_shown := true;
        submit_disabled := submit_disabled p;
        summary_text := summary_text p;
        original_text := original_text p;
        original_href := original_href p;
        error_text := ENTER_URL |}, None).
Proof.
  intros H. unfold on_submit, trim. rewrite (blank_trimStart value H).
  reflexivity.
Qed.

Lemma blank_input_sends_nothing_witness :
  on_submit (rt := Sample.runtime) (dom := sample_browser)
    [32; 9; 32] (FetchRejected Sample.syntax_error) blank_page
  = ({| loading_shown := loading_shown blank_page;
        result_shown := result_shown blank_page;
        error_shown := true;
        submit_disabled := submit_disabled blank_page;
        summary_text := summary_text blank_page;
        original_text := original_text blank_page;
        original_href := original_href blank_page;
        error_text := ENTER_URL |}, None).
Proof.
  apply (blank_input_sends_nothing Sample.runtime sample_browser
           [32; 9; 32] (FetchRejected Sample.syntax_error) blank_page).
  reflexivity.
Defined.

Section WithRuntime.
Context {rt : Runtime} {dom : Browser}.

(** The [try] block touches neither the loading indicator, nor the
    button, nor the error block; it shows the result exactly when it
    completes. *)
Lemma try_block_flags (reply : Fetched) (p : Page) :
  result_shown p = false ->
  let (thrown, p') := try_block reply p in
  loading_shown p' = loading_shown p /\
  submit_disabled p' = submit_disabled p /\
  error_shown p' = error_shown p /\
  error_text p' = error_text p /\
  result_shown p' = match thrown with inl _ => false | inr _ => true end.
Proof.
  intros R. unfold try_block.
  repeat match goal with
         | |- context [match ?x with _ => _ end] =>
             lazymatch x with
             | context [match _ with _ => _ end] => fail
             | _ => destruct x
             end
         | |- context [if ?b then _ else _] => destruct b
         end;
    cbn [loading_shown submit_disabled error_shown error_text result_shown
         show_result set_original_href set_original_text set_summary];
    repeat split; try reflexivity; exact R.
Qed.

End WithRuntime.

(** For a value that is not blank, exactly one call is made: a [POST] to
    the function with the trimmed value as [url].  When it has settled, the
    loading indicator is hidden, the button is enabled again, and exactly
    one of the result and the error message is shown; an error message
    starts with the fixed prefix. *)
Theorem submit_completes (rt : Runtime) (dom : Browser)
    (value : jstr) (reply : Fetched) (p : Page) :
  trim value <> [] ->
  exists p',
    on_submit value reply p
    = (p', Some {| call_url := lit "/.netlify/functions/summarize";
                   call_method := lit "POST";
                   call_headers := [ (lit "Content-Type", lit "application/json") ];
                   call_body := JSON_stringify (JObj [ (lit "url", JStr (trim value)) ]) |}) /\
    loading_shown p' = false /\
    submit_disabled p' = false /\
    xorb (result_shown p') (error_shown p') = true /\
    (error_shown p' = true ->
     exists message, error_text p' = ERROR_PREFIX ++ message).
Proof.
  intros H. unfold on_submit.
  destruct (trim value) as [|c u] eqn:E; [congruence|]. cbn [nonempty negb].
  pose proof (try_block_flags reply (reset_ui p) eq_refl) as K.
  destruct (try_block reply (reset_ui p)) as [[message|[]] p1].
  - destruct K as (K1 & K2 & K3 & K4 & K5).
    eexists. split; [reflexivity|].
    cbn [finish showError loading_shown submit_disabled result_shown error_shown
         error_text].
    rewrite K5. repeat split. intros _. exists message. reflexivity.
  - destruct K as (K1 & K2 & K3 & K4 & K5).
    eexists. split; [reflexivity|].
    cbn [finish loading_shown submit_disabled result_shown error_shown error_text].
    rewrite K5, K3. cbn [reset_ui error_shown]. repeat split. discriminate.
Qed.

Lemma submit_completes_witness :
  exists p',
    on_submit (rt := Sample.runtime) (dom := sample_browser)
      (lit " http://example.com/ ") (FetchRejected Sample.syntax_error) blank_page
    = (p', Some {| call_url := lit "/.netlify/functions/summarize";
                   call_method := lit "POST";
                   call_headers := [ (lit "Content-Type", lit "application/json") ];
                   call_body := JSON_stringify (Runtime := Sample.runtime)
                     (JObj [ (lit "url", JStr (trim (lit " http://example.com/ "))) ]) |}) /\
    loading_shown p' = false /\
    submit_disabled p' = false /\
    xorb (result_shown p') (error_shown p') = true /\
    (error_shown p' = true ->
     exists message, error_text p' = ERROR_PREFIX ++ message).
Proof.
  apply (submit_completes Sample.runtime sample_browser
           (lit " http://example.com/ ") (FetchRejected Sample.syntax_error) blank_page).
  vm_compute. discriminate.
Defined.

(** A response whose body is not JSON ends with the parser's message on
    the page, whatever the status of the response: the status is looked at
    only after the body has parsed. *)
Theorem unparsable_response (rt : Runtime) (dom : Browser)
    (value : jstr) (st : Z) (text : jstr) (e : NativeError) (p : Page) :
  trim value <> [] ->
  JSON_parse text = inl e ->
  fst (on_submit value (FetchResponse st (inr text)) p)
  = {| loading_shown := false;
       result_shown := false;
       error_shown := true;
       submit_disabled := false;
       summary_text := summary_text p;
       original_text := original_text p;
       original_href := original_href p;
       error_text := ERROR_PREFIX ++ err_message e |}.
Proof.
  intros H P. unfold on_submit.
  destruct (trim value) as [|c u]; [congruence|]. cbn [nonempty negb].
  cbn [try_block]. rewrite P. reflexivity.
Qed.

Lemma unparsable_response_witness :
  fst (on_submit (rt := Sample.runtime) (dom := sample_browser)
         (lit "http://example.com/")
         (FetchResponse 200%Z (inr (lit "<html>Bad Gateway</html>"))) blank_page)
  = {| loading_shown := false;
       result_shown := false;
       error_shown := true;
       submit_disabled := false;
       summary_text := summary_text blank_page;
       original_text := original_text blank_page;
       original_href := original_href blank_page;
       error_text := ERROR_PREFIX ++ err_message Sample.syntax_error |}.
Proof.
  apply (unparsable_response Sample.runtime sample_browser
           (lit "http://example.com/") 200%Z (lit "<html>Bad Gateway</html>")
           Sample.syntax_error blank_page).
  - vm_compute. discriminate.
  - reflexivity.
Defined.

(** A response with a status outside 200-299 whose body is a JSON object
    shows the object's [error] text after the prefix, or the fixed message
    when [error] is absent or empty; the result block stays hidden. *)
Theorem refusal_message (rt : Runtime) (dom : Browser)
    (value : jstr) (st : Z) (text : jstr) (document : list (jstr * JsVal))
    (p : Page) :
  trim value <> [] ->
  ~ (200 <= st <= 299)%Z ->
  JSON_parse text = inr (JObj document) ->
  lookup (lit "error") document = None \/
  (exists s, lookup (lit "error") document = Some (JStr s)) ->
  fst (on_submit value (FetchResponse st (inr text)) p)
  = {| loading_shown := false;
       result_shown := false;
       error_shown := true;
       submit_disabled := false;
       summary_text := summary_text p;
       original_text := original_text p;
       original_href := original_href p;
       error_text :=
         ERROR_PREFIX ++
         match lookup (lit "error") document with
         | Some (JStr (c :: m)) => c :: m
         | _ => AN_ERROR_OCCURRED
         end |}.
Proof.
  intros H N P L. unfold on_submit.
  destruct (trim value) as [|c u]; [congruence|]. cbn [nonempty negb].
  cbn [try_block]. rewrite P.
  replace ((200 <=? st) && (st <=? 299))%Z with false by lia.
  cbn [negb getField].
  destruct L as [-> | (s & ->)]; [reflexivity|].
  destruct s as [|x m]; reflexivity.
Qed.

Lemma refusal_message_witness :
  fst (on_submit (rt := Sample.runtime) (dom := sample_browser)
         (lit "http://example.com/") (FetchResponse 502%Z (inr (lit "{}"))) blank_page)
  = {| loading_shown := false;
       result_shown := false;
       error_shown := true;
       submit_disabled := false;
       summary_text := summary_text blank_page;
       original_text := original_text blank_page;
       original_href := original_href blank_page;
       error_text :=
         ERROR_PREFIX ++
         match lookup (lit "error") (@nil (jstr * JsVal)) with
         | Some (JStr (c :: m)) => c :: m
         | _ => AN_ERROR_OCCURRED
         end |}.
Proof.
  apply (refusal_message Sample.runtime sample_browser
           (lit "http://example.com/") 502%Z (lit "{}") [] blank_page).
  - vm_compute. discriminate.
  - lia.
  - reflexivity.
  - left. reflexivity.
Defined.

(** A 2xx response whose body is a JSON document shows the result: the
    summary and the URL as the DOM stores them, the link set to the URL, no
    error block, and the error text left as it was. *)
Theorem success_shows_result (rt : Runtime) (dom : Browser)
    (value : jstr) (st : Z) (text : jstr) (document summary url : JsVal)
    (shown shown_url href : jstr) (p : Page) :
  trim value <> [] ->
  (200 <= st <= 299)%Z ->
  JSON_parse text = inr document ->
  getField document (lit "summary") = inr summary ->
  as_textContent summary = inr shown ->
  getField document (lit "url") = inr url ->
  as_textContent url = inr shown_url ->
  as_href url = inr href ->
  fst (on_submit value (FetchResponse st (inr text)) p)
  = {| loading_shown := false;
       result_shown := true;
       error_shown := false;
       submit_disabled := false;
       summary_text := shown;
       original_text := shown_url;
       original_href := href;
       error_text := error_text p |}.
Proof.
  intros H S P G1 T1 G2 T2 T3. unfold on_submit.
  destruct (trim value) as [|c u]; [congruence|]. cbn [nonempty negb].
  cbn [try_block]. rewrite P.
  replace ((200 <=? st) && (st <=? 299))%Z with true by lia.
  cbn [negb]. rewrite G1, T1, G2, T2, T3. reflexivity.
Qed.

Lemma success_shows_result_witness :
  fst (on_submit (rt := Sample.runtime) (dom := sample_browser)
         (lit "http://example.com/") (FetchResponse 200%Z (inr (lit "{}"))) blank_page)
  = {| loading_shown := false;
       result_shown := true;
       error_shown := false;
       submit_disabled := false;
       summary_text := [];
       original_text := [];
       original_href := lit "undefined";
       error_text := error_text blank_page |}.
Proof.
  apply (success_shows_result Sample.runtime sample_browser
           (lit "http://example.com/") 200%Z (lit "{}") (JObj []) JUndefined JUndefined
           [] [] (lit "undefined") blank_page).
  - vm_compute. discriminate.
  - lia.
  - reflexivity.
  - reflexivity.
  - reflexivity.
  - reflexivity.
  - reflexivity.
  - reflexivity.
Defined.




End ClientFacts.
